(** * SPUD: the persistence subsystem (SpudSubsystem.cpp)

    A shallow embedding of [USpudSubsystem], the save/load orchestrator of
    SPUD, and of the background task that upgrades save files.

    The subsystem is a single object whose member functions run on the game
    thread.  Every member function is embedded as a computation in a small
    monad [M] that threads the members of the object, records every call the
    function makes on a collaborator (the active [USpudState], the file
    manager, the viewport, the multicast delegates, the log) in an ordered
    trace, and fails where the C++ dereferences a null pointer or trips a
    [check].  What the engine answers during a call (the console variable,
    the world and its levels, whether a file opens) is read from a snapshot
    of the host, [FHost].

    The file system branch is the one compiled when [USE_UE_SAVE_SYSTEM] is
    off, the default configuration. *)

From stdpp Require Import base option list strings sorting gmap.

Open Scope string_scope.
Open Scope list_scope.

#[global] Set Warnings "-clear-no-such-hyp".

(** ** Engine-side data *)

(** [ESpudSystemState], declared in SpudSubsystem.h. *)
Inductive ESpudSystemState : Type :=
| Disabled
| RunningIdle
| SavingGame
| LoadingGame
| NewGameOnNextLevel.

#[global] Instance ESpudSystemState_eq_dec : EqDecision ESpudSystemState.
Proof. solve_decision. Defined.

Inductive ELogVerbosity : Type := Error | Log | Verbose.

(** A [UObject] is known by its identity; a raw pointer and a
    [TWeakObjectPtr] are both a nullable identity.  Whether the object
    behind an identity is still alive is a fact of the host. *)
Definition UObject : Type := nat.
Definition UObjectPtr : Type := option UObject.
Definition TWeakObjectPtr : Type := option UObject.

(** What [SubscribeLevelObjectEvents] reads of an actor in [Level->Actors]. *)
Record FLevelActor : Type := mkLevelActor {
  ActorName : string;
  IsPersistentObject : bool;
  IsRuntimeActor : bool
}.

Record ULevel : Type := mkLevel {
  LevelName : string;
  bIsBeingRemoved : bool;
  Actors : list FLevelActor
}.

(** An actor as the destruction handler sees it: [GetLevel] may be null. *)
Record AActor : Type := mkActor {
  ActorInfo : FLevelActor;
  GetLevel : option ULevel
}.

Record UWorld : Type := mkWorld {
  GetLevels : list ULevel;
  GetCurrentLevelName : string;
  IsNetModeClient : bool
}.

(** A streaming level found by name: its loaded level may be null. *)
Record ULevelStreaming : Type := mkStreaming {
  GetLoadedLevel : option ULevel
}.

(** The host at the time of a call. *)
Record FHost : Type := mkHost {
  (** the console variable [SPUD.Enable] *)
  bEnableSPUD : bool;
  (** [GetGameInstance()], its world and the world's authoritative game mode *)
  HasGameInstance : bool;
  GameInstanceHasWorld : bool;
  HasAuthGameMode : bool;
  (** [GetGameInstance()->GetGameViewportClient()] and the viewport of the
      first local player *)
  HasGameViewportClient : bool;
  HasLocalPlayerViewport : bool;
  (** [GetWorld()], [None] when null; a world that is there is valid *)
  GetWorld : option UWorld;
  (** [UGameplayStatics::GetStreamingLevel] *)
  GetStreamingLevel : string → option ULevelStreaming;
  (** liveness of objects, as [TWeakObjectPtr::IsValid] observes it *)
  ObjectIsValid : UObject → bool;
  (** [FPaths::ProjectSavedDir()] *)
  ProjectSavedDir : string;
  (** [IFileManager]: does the writer or reader for a path open, and is the
      archive in error after it was used and closed *)
  FileWriterOpens : string → bool;
  FileWriterError : string → bool;
  FileReaderOpens : string → bool;
  FileReaderError : string → bool;
  (** [FImageUtils]: the thumbnail bytes of a captured frame *)
  CompressThumbnail : nat → nat → list nat → list Byte.byte;
  (** [ListSaveGameFiles]: the save files found in the save directory *)
  FindSaveFiles : list string;
  (** queries answered by the active [USpudState] *)
  StateCanRestoreLevel : ULevel → bool;
  StateCanRestoreWorld : UWorld → bool;
  StateGetPersistentLevel : string
}.

(** ** The trace of collaborator calls *)

(** The multicast delegates the subsystem broadcasts. *)
Inductive FSpudDelegate : Type :=
| PreTravelToNewMap (MapName : string)
| PostTravelToNewMap
| PreLevelStore (Level : string)
| PostLevelStore (Level : string) (bSuccess : bool)
| PreLevelRestore (Level : string)
| PostLevelRestore (Level : string) (bSuccess : bool)
| PreSaveGame (SlotName : string)
| PostSaveGame (SlotName : string) (bSuccess : bool)
| PreLoadGame (SlotName : string)
| PostLoadGame (SlotName : string) (bSuccess : bool)
| PreLoadStreamingLevel (Level : string)
| PostLoadStreamingLevel (Level : string)
| PreUnloadStreamingLevel (Level : string)
| PostUnloadStreamingLevel (Level : string).

(** The member functions of [USpudState] the subsystem calls to change or
    write out the state; [USpudState] itself lives in SpudState.cpp. *)
Inductive FStateCall : Type :=
| ResetState
| StoreWorldGlobals
| StoreGlobalObject (Obj : UObject) (Name : option string)
| StateStoreLevel (Level : ULevel) (bRelease bBlocking : bool)
| SetTitle (Title : string)
| SetTimestampNow
| SetCustomSaveInfo (ExtraInfo : UObjectPtr)
| SetScreenshot (Png : list Byte.byte)
| SaveToArchive (Path : string)
| LoadFromArchive (Path : string) (bLoadAllLevels : bool)
| RestoreGlobalObject (Obj : UObject) (Name : option string)
| RestoreLoadedWorld
| RestoreActor (Actor : AActor)
| RestoreLevel (Level : ULevel)
| PreLoadLevelData (Level : string)
| ReleaseLevelData (Level : string) (bBlocking : bool)
| ClearLevel (Level : string)
| StoreLevelActorDestroyed (Actor : AActor).

Inductive FEffect : Type :=
| UE_LOG (Verbosity : ELogVerbosity) (Message : string)
| Broadcast (Delegate : FSpudDelegate)
| NewSpudState
| StateCall (Call : FStateCall)
| BindScreenshotCaptured
| UnbindScreenshotCaptured
| RequestScreenshot
| CreateFileWriter (Path : string)
| CreateFileReader (Path : string)
| ArchiveClose (Path : string)
| ArchiveIsError (Path : string)
| FileMove (Dest Src : string)
| UpgradeCallback (Path : string)
| OpenLevel (Level : string) (Options : string)
| SetShouldBeVisible (Level : string).

(** ** The members of [USpudSubsystem] *)

Record USpudSubsystem : Type := mkSubsystem {
  bIsTearingDown : bool;
  CurrentState : ESpudSystemState;
  bIsRestoringState : bool;
  (** [ActiveState] is a pointer: [true] when it is not null *)
  ActiveState : bool;
  SlotNameInProgress : string;
  TitleInProgress : string;
  ExtraInfoInProgress : UObjectPtr;
  (** [OnScreenshotHandle]: [true] while the capture delegate is bound *)
  OnScreenshotHandle : bool;
  GlobalObjects : list TWeakObjectPtr;
  (** a [TMap<FString, TWeakObjectPtr<UObject>>]: its pairs in the order in
      which the map is iterated, the order in which their keys were added
      as long as no pair was removed in between *)
  NamedGlobalObjects : list (string * TWeakObjectPtr);
  LevelStreamingRestoreStates : gmap string bool;
  bSaveLevelStateWhileTraveling : bool;
  (** the actors whose [OnDestroyed] delegate has [OnActorDestroyed] bound *)
  OnDestroyedBound : gset string;
  (** the closures handed to [AsyncTask(ENamedThreads::GameThread, ...)] by
      [HandleLevelLoaded], oldest first; each holds a level name *)
  GameThreadTasks : list string
}.

Definition set_bIsTearingDown (v : bool) (s : USpudSubsystem) : USpudSubsystem :=
  mkSubsystem v (CurrentState s) (bIsRestoringState s) (ActiveState s)
    (SlotNameInProgress s) (TitleInProgress s) (ExtraInfoInProgress s)
    (OnScreenshotHandle s) (GlobalObjects s) (NamedGlobalObjects s)
    (LevelStreamingRestoreStates s) (bSaveLevelStateWhileTraveling s)
    (OnDestroyedBound s) (GameThreadTasks s).

Definition set_CurrentState (v : ESpudSystemState) (s : USpudSubsystem) : USpudSubsystem :=
  mkSubsystem (bIsTearingDown s) v (bIsRestoringState s) (ActiveState s)
    (SlotNameInProgress s) (TitleInProgress s) (ExtraInfoInProgress s)
    (OnScreenshotHandle s) (GlobalObjects s) (NamedGlobalObjects s)
    (LevelStreamingRestoreStates s) (bSaveLevelStateWhileTraveling s)
    (OnDestroyedBound s) (GameThreadTasks s).

Definition set_bIsRestoringState (v : bool) (s : USpudSubsystem) : USpudSubsystem :=
  mkSubsystem (bIsTearingDown s) (CurrentState s) v (ActiveState s)
    (SlotNameInProgress s) (TitleInProgress s) (ExtraInfoInProgress s)
    (OnScreenshotHandle s) (GlobalObjects s) (NamedGlobalObjects s)
    (LevelStreamingRestoreStates s) (bSaveLevelStateWhileTraveling s)
    (OnDestroyedBound s) (GameThreadTasks s).

Definition set_ActiveState (v : bool) (s : USpudSubsystem) : USpudSubsystem :=
  mkSubsystem (bIsTearingDown s) (CurrentState s) (bIsRestoringState s) v
    (SlotNameInProgress s) (TitleInProgress s) (ExtraInfoInProgress s)
    (OnScreenshotHandle s) (GlobalObjects s) (NamedGlobalObjects s)
    (LevelStreamingRestoreStates s) (bSaveLevelStateWhileTraveling s)
    (OnDestroyedBound s) (GameThreadTasks s).

Definition set_SlotNameInProgress (v : string) (s : USpudSubsystem) : USpudSubsystem :=
  mkSubsystem (bIsTearingDown s) (CurrentState s) (bIsRestoringState s) (ActiveState s)
    v (TitleInProgress s) (ExtraInfoInProgress s)
    (OnScreenshotHandle s) (GlobalObjects s) (NamedGlobalObjects s)
    (LevelStreamingRestoreStates s) (bSaveLevelStateWhileTraveling s)
    (OnDestroyedBound s) (GameThreadTasks s).

Definition set_TitleInProgress (v : string) (s : USpudSubsystem) : USpudSubsystem :=
  mkSubsystem (bIsTearingDown s) (CurrentState s) (bIsRestoringState s) (ActiveState s)
    (SlotNameInProgress s) v (ExtraInfoInProgress s)
    (OnScreenshotHandle s) (GlobalObjects s) (NamedGlobalObjects s)
    (LevelStreamingRestoreStates s) (bSaveLevelStateWhileTraveling s)
    (OnDestroyedBound s) (GameThreadTasks s).

Definition set_ExtraInfoInProgress (v : UObjectPtr) (s : USpudSubsystem) : USpudSubsystem :=
  mkSubsystem (bIsTearingDown s) (CurrentState s) (bIsRestoringState s) (ActiveState s)
    (SlotNameInProgress s) (TitleInProgress s) v
    (OnScreenshotHandle s) (GlobalObjects s) (NamedGlobalObjects s)
    (LevelStreamingRestoreStates s) (bSaveLevelStateWhileTraveling s)
    (OnDestroyedBound s) (GameThreadTasks s).

Definition set_OnScreenshotHandle (v : bool) (s : USpudSubsystem) : USpudSubsystem :=
  mkSubsystem (bIsTearingDown s) (CurrentState s) (bIsRestoringState s) (ActiveState s)
    (SlotNameInProgress s) (TitleInProgress s) (ExtraInfoInProgress s)
    v (GlobalObjects s) (NamedGlobalObjects s)
    (LevelStreamingRestoreStates s) (bSaveLevelStateWhileTraveling s)
    (OnDestroyedBound s) (GameThreadTasks s).

Definition set_GlobalObjects (v : list TWeakObjectPtr) (s : USpudSubsystem) : USpudSubsystem :=
  mkSubsystem (bIsTearingDown s) (CurrentState s) (bIsRestoringState s) (ActiveState s)
    (SlotNameInProgress s) (TitleInProgress s) (ExtraInfoInProgress s)
    (OnScreenshotHandle s) v (NamedGlobalObjects s)
    (LevelStreamingRestoreStates s) (bSaveLevelStateWhileTraveling s)
    (OnDestroyedBound s) (GameThreadTasks s).

Definition set_NamedGlobalObjects (v : list (string * TWeakObjectPtr)) (s : USpudSubsystem) : USpudSubsystem :=
  mkSubsystem (bIsTearingDown s) (CurrentState s) (bIsRestoringState s) (ActiveState s)
    (SlotNameInProgress s) (TitleInProgress s) (ExtraInfoInProgress s)
    (OnScreenshotHandle s) (GlobalObjects s) v
    (LevelStreamingRestoreStates s) (bSaveLevelStateWhileTraveling s)
    (OnDestroyedBound s) (GameThreadTasks s).

Definition set_LevelStreamingRestoreStates (v : gmap string bool) (s : USpudSubsystem) : USpudSubsystem :=
  mkSubsystem (bIsTearingDown s) (CurrentState s) (bIsRestoringState s) (ActiveState s)
    (SlotNameInProgress s) (TitleInProgress s) (ExtraInfoInProgress s)
    (OnScreenshotHandle s) (GlobalObjects s) (NamedGlobalObjects s)
    v (bSaveLevelStateWhileTraveling s)
    (OnDestroyedBound s) (GameThreadTasks s).

Definition set_OnDestroyedBound (v : gset string) (s : USpudSubsystem) : USpudSubsystem :=
  mkSubsystem (bIsTearingDown s) (CurrentState s) (bIsRestoringState s) (ActiveState s)
    (SlotNameInProgress s) (TitleInProgress s) (ExtraInfoInProgress s)
    (OnScreenshotHandle s) (GlobalObjects s) (NamedGlobalObjects s)
    (LevelStreamingRestoreStates s) (bSaveLevelStateWhileTraveling s)
    v (GameThreadTasks s).

Definition set_GameThreadTasks (v : list string) (s : USpudSubsystem) : USpudSubsystem :=
  mkSubsystem (bIsTearingDown s) (CurrentState s) (bIsRestoringState s) (ActiveState s)
    (SlotNameInProgress s) (TitleInProgress s) (ExtraInfoInProgress s)
    (OnScreenshotHandle s) (GlobalObjects s) (NamedGlobalObjects s)
    (LevelStreamingRestoreStates s) (bSaveLevelStateWhileTraveling s)
    (OnDestroyedBound s) v.

(** ** The monad of member functions

    A member function takes the object to a result, the object after the
    call and the trace of the call, or to [None] when it crashes. *)

Definition M (A : Type) : Type :=
  USpudSubsystem → option (A * USpudSubsystem * list FEffect).

#[global] Instance M_ret : MRet M := λ A (a : A) s, Some (a, s, []).

#[global] Instance M_bind : MBind M := λ A B (k : A → M B) (m : M A) s,
  match m s with
  | None => None
  | Some (a, s1, t1) =>
      match k a s1 with
      | None => None
      | Some (b, s2, t2) => Some (b, s2, t1 ++ t2)
      end
  end.

Definition get {A} (f : USpudSubsystem → A) : M A := λ s, Some (f s, s, []).
Definition modify (f : USpudSubsystem → USpudSubsystem) : M unit :=
  λ s, Some (tt, f s, []).
Definition emit (e : FEffect) : M unit := λ s, Some (tt, s, [e]).
Definition crash {A} : M A := λ _, None.
Definition when (b : bool) (m : M unit) : M unit := if b then m else mret tt.

Fixpoint for_each {A} (l : list A) (body : A → M unit) : M unit :=
  match l with
  | [] => mret tt
  | x :: l' => body x;; for_each l' body
  end.

(** The object and the trace of a run that did not crash. *)
Definition exec {A} (m : M A) (s : USpudSubsystem) : option (USpudSubsystem * list FEffect) :=
  match m s with
  | Some (_, s', t) => Some (s', t)
  | None => None
  end.

(** ** Helpers of the embedding *)

Definition WeakIsValid (h : FHost) (Ptr : TWeakObjectPtr) : bool :=
  match Ptr with
  | Some o => ObjectIsValid h o
  | None => false
  end.

(** [TWeakObjectPtr::Get]: null once the object is gone. *)
Definition WeakGet (h : FHost) (Ptr : TWeakObjectPtr) : UObjectPtr :=
  if WeakIsValid h Ptr then Ptr else None.

(** [TWeakObjectPtr::operator==] of the engine: two handles are equal when
    they are handles of the same object, and also when neither is valid any
    more.  [TArray::AddUnique] and [TArray::Remove] compare with it. *)
Definition WeakEq (h : FHost) (A B : TWeakObjectPtr) : bool :=
  bool_decide (A = B) || (negb (WeakIsValid h A) && negb (WeakIsValid h B)).

(** [FString::operator==] of the engine ignores the case of the letters A
    to Z; the keys of a [TMap<FString, ...>] are told apart by it. *)
Definition ToLower (c : Ascii.ascii) : Ascii.ascii :=
  let n := Ascii.nat_of_ascii c in
  if ((65 <=? n)%nat && (n <=? 90)%nat)%bool then Ascii.ascii_of_nat (n + 32) else c.

Fixpoint ToLowerString (A : string) : string :=
  match A with
  | EmptyString => EmptyString
  | String c A' => String (ToLower c) (ToLowerString A')
  end.

Definition FStringEq (A B : string) : bool :=
  bool_decide (ToLowerString A = ToLowerString B).

(** [TMap::Add]: the pair takes the place of the pair whose key equals the
    new key, and goes after the others when there is none (after a removal
    the engine may give it the place of the pair removed instead; nothing
    below depends on the place of a new pair).  A [TMap] holds one pair per
    key; the pairs after the one replaced are gone through all the same, so
    that any list is left with one pair for the key. *)
Fixpoint TMapAdd {V} (Key : string) (Value : V) (Pairs : list (string * V)) :
    list (string * V) :=
  match Pairs with
  | [] => [(Key, Value)]
  | Pair :: Pairs' =>
      if FStringEq Pair.1 Key
      then (Key, Value) :: filter (λ P : string * V, FStringEq P.1 Key = false) Pairs'
      else Pair :: TMapAdd Key Value Pairs'
  end.

Definition StateDo (c : FStateCall) : M unit := emit (StateCall c).

Definition GetSaveGameDirectory (h : FHost) : string :=
  ProjectSavedDir h +:+ "SaveGames/".

Definition GetSaveGameFilePath (h : FHost) (SlotName : string) : string :=
  GetSaveGameDirectory h +:+ SlotName +:+ ".sav".

(** Modelled from the spec: [GetActiveState] is defined in SpudSubsystem.h,
    which is not among the sources.  One World State Container is active per
    session; the accessor hands out the active one and creates an empty one
    when there is none. *)
Definition GetActiveState : M unit :=
  valid ← get ActiveState;
  if valid : bool then mret tt
  else modify (set_ActiveState true);; emit NewSpudState.

(** ** Member functions, in the order of SpudSubsystem.cpp *)

(** [Initialize] and [Deinitialize] also register and unregister the
    subsystem with the delegates of the engine; the calls the engine makes
    through them are the [FCall]s below.  The new game that [Initialize]
    schedules in the editor is a [CallNewGame] of its own. *)
Definition Initialize : M unit :=
  modify (set_bIsTearingDown false).

Definition Deinitialize : M unit :=
  modify (set_bIsTearingDown true).

Definition ServerCheck (h : FHost) : bool :=
  if negb (bEnableSPUD h) then false
  else if negb (HasGameInstance h) then true
  else if negb (GameInstanceHasWorld h) then true
  else HasAuthGameMode h.

Definition SubscribeLevelObjectEvents (Level : option ULevel) : M unit :=
  match Level with
  | Some L =>
      for_each (Actors L) (λ Actor,
        if negb (IsPersistentObject Actor) then mret tt
        else when (negb (IsRuntimeActor Actor))
               (bound ← get OnDestroyedBound;
                modify (set_OnDestroyedBound ({[ActorName Actor]} ∪ bound))))
  | None => mret tt
  end.

Definition UnsubscribeLevelObjectEvents (Level : option ULevel) : M unit :=
  match Level with
  | Some L =>
      for_each (Actors L) (λ Actor,
        if negb (IsPersistentObject Actor) then mret tt
        else when (negb (IsRuntimeActor Actor))
               (bound ← get OnDestroyedBound;
                modify (set_OnDestroyedBound (bound ∖ {[ActorName Actor]}))))
  | None => mret tt
  end.

Definition SubscribeAllLevelObjectEvents (h : FHost) : M unit :=
  match GetWorld h with
  | Some World => for_each (GetLevels World) (λ Level, SubscribeLevelObjectEvents (Some Level))
  | None => mret tt
  end.

Definition UnsubscribeAllLevelObjectEvents (h : FHost) : M unit :=
  match GetWorld h with
  | Some World => for_each (GetLevels World) (λ Level, UnsubscribeLevelObjectEvents (Some Level))
  | None => mret tt
  end.

Definition EndGame (h : FHost) : M unit :=
  valid ← get ActiveState;
  when valid (StateDo ResetState);;
  modify (set_ActiveState false);;
  UnsubscribeAllLevelObjectEvents h;;
  modify (set_CurrentState Disabled);;
  modify (set_bIsRestoringState false).

Definition NewGame (h : FHost) (bCheckServerOnly bAfterLevelLoad : bool) : M unit :=
  if bCheckServerOnly && negb (ServerCheck h) then mret tt
  else
    EndGame h;;
    if bAfterLevelLoad then modify (set_CurrentState NewGameOnNextLevel)
    else modify (set_CurrentState RunningIdle);; SubscribeAllLevelObjectEvents h.

(** [SlotName] is a reference that may be [SlotNameInProgress]; it is read
    before the members in progress are cleared. *)
Definition SaveComplete (SlotName : string) (bSuccess : bool) : M unit :=
  modify (set_CurrentState RunningIdle);;
  emit (Broadcast (PostSaveGame SlotName bSuccess));;
  modify (set_SlotNameInProgress "");;
  modify (set_TitleInProgress "");;
  modify (set_ExtraInfoInProgress None).

(** [SlotName] is passed by reference and read for the broadcast after
    [SlotNameInProgress] was cleared: a caller that passes
    [SlotNameInProgress] itself has the empty name broadcast.  The reference
    is the way to read the string off the object. *)
Definition LoadComplete (SlotName : USpudSubsystem → string) (bSuccess : bool) : M unit :=
  modify (set_CurrentState RunningIdle);;
  modify (set_bIsRestoringState false);;
  modify (set_SlotNameInProgress "");;
  Name ← get SlotName;
  emit (Broadcast (PostLoadGame Name bSuccess)).

Definition StoreLevel (Level : ULevel) (bRelease bBlocking : bool) : M unit :=
  emit (Broadcast (PreLevelStore (LevelName Level)));;
  GetActiveState;;
  StateDo (StateStoreLevel Level bRelease bBlocking);;
  emit (Broadcast (PostLevelStore (LevelName Level) true)).

(** [World->GetLevels()] on a null world is a crash. *)
Definition StoreWorld (World : option UWorld) (bReleaseLevels bBlocking : bool) : M unit :=
  match World with
  | Some W => for_each (GetLevels W) (λ Level, StoreLevel Level bReleaseLevels bBlocking)
  | None => crash
  end.

Definition StoreGlobalObjects (h : FHost) : M unit :=
  objs ← get GlobalObjects;
  for_each objs (λ Ptr,
    match WeakGet h Ptr with
    | Some o => StateDo (StoreGlobalObject o None)
    | None => mret tt
    end);;
  named ← get NamedGlobalObjects;
  for_each named (λ Pair,
    match WeakGet h Pair.2 with
    | Some o => StateDo (StoreGlobalObject o (Some Pair.1))
    | None => mret tt
    end).

Definition FinishSaveGame (h : FHost) (SlotName Title : string)
    (ExtraInfo : UObjectPtr) (ScreenshotData : option (list Byte.byte)) : M unit :=
  GetActiveState;;
  StateDo StoreWorldGlobals;;
  StoreGlobalObjects h;;
  StoreWorld (GetWorld h) false true;;
  StateDo (SetTitle Title);;
  StateDo SetTimestampNow;;
  StateDo (SetCustomSaveInfo ExtraInfo);;
  match ScreenshotData with
  | Some Png => StateDo (SetScreenshot Png)
  | None => mret tt
  end;;
  let Path := GetSaveGameFilePath h SlotName in
  emit (CreateFileWriter Path);;
  SaveOK ←
    (if FileWriterOpens h Path then
       StateDo (SaveToArchive Path);;
       emit (ArchiveClose Path);;
       emit (ArchiveIsError Path);;
       if FileWriterError h Path then
         emit (UE_LOG Error ("Error while saving game to " +:+ SlotName));;
         mret false
       else
         emit (UE_LOG Log ("Save to slot " +:+ SlotName +:+ ": Success"));;
         mret true
     else
       emit (UE_LOG Error ("Error while creating save game for slot " +:+ SlotName));;
       mret false);
  SaveComplete SlotName SaveOK.

Definition SaveGame (h : FHost) (SlotName Title : string) (bTakeScreenshot : bool)
    (ExtraInfo : UObjectPtr) : M unit :=
  if negb (ServerCheck h) then SaveComplete SlotName false
  else if bool_decide (SlotName = "") then
    emit (UE_LOG Error "Cannot save a game with a blank slot name");;
    SaveComplete SlotName false
  else
    st ← get CurrentState;
    if bool_decide (st ≠ RunningIdle) then
      emit (UE_LOG Error "TODO: Overlapping calls to save/load, resolve this");;
      SaveComplete SlotName false
    else
      modify (set_CurrentState SavingGame);;
      emit (Broadcast (PreSaveGame SlotName));;
      if bTakeScreenshot then
        emit (UE_LOG Verbose ("Queueing screenshot for save " +:+ SlotName));;
        modify (set_SlotNameInProgress SlotName);;
        modify (set_TitleInProgress Title);;
        modify (set_ExtraInfoInProgress ExtraInfo);;
        if HasGameInstance h && HasGameViewportClient h then
          emit BindScreenshotCaptured;;
          modify (set_OnScreenshotHandle true);;
          emit RequestScreenshot
        else crash
      else FinishSaveGame h SlotName Title ExtraInfo None.

Definition OnScreenshotCaptured (h : FHost) (Width Height : nat) (Colours : list nat) : M unit :=
  if HasLocalPlayerViewport h then
    emit UnbindScreenshotCaptured;;
    modify (set_OnScreenshotHandle false);;
    let PngData := CompressThumbnail h Width Height Colours in
    SlotName ← get SlotNameInProgress;
    Title ← get TitleInProgress;
    ExtraInfo ← get ExtraInfoInProgress;
    FinishSaveGame h SlotName Title ExtraInfo (Some PngData)
  else crash.

Definition CanRestoreLevel (h : FHost) (Level : ULevel) : M bool :=
  GetActiveState;;
  mret (StateCanRestoreLevel h Level).

Definition CanRestoreWorld (h : FHost) (World : UWorld) : M bool :=
  GetActiveState;;
  mret (StateCanRestoreWorld h World).

Definition OnPreLoadMap (h : FHost) (MapName : string) : M unit :=
  if negb (ServerCheck h) then mret tt
  else
    emit (Broadcast (PreTravelToNewMap MapName));;
    st ← get CurrentState;
    when (bool_decide (st = RunningIdle))
      (UnsubscribeAllLevelObjectEvents h;;
       match GetWorld h with
       | Some World =>
           keep ← get bSaveLevelStateWhileTraveling;
           if keep : bool then
             emit (UE_LOG Verbose ("OnPreLoadMap saving: " +:+ GetCurrentLevelName World));;
             StoreWorld (Some World) true true
           else
             emit (UE_LOG Verbose ("OnPreLoadMap releasing data: " +:+ GetCurrentLevelName World));;
             for_each (GetLevels World) (λ Level,
               GetActiveState;;
               StateDo (ReleaseLevelData (LevelName Level) true))
       | None => mret tt
       end).

Definition OnSeamlessTravelStart (h : FHost) (World : option UWorld) (MapName : string) : M unit :=
  if negb (ServerCheck h) then mret tt
  else
    match World with
    | Some _ =>
        emit (UE_LOG Verbose ("OnSeamlessTravelStart: " +:+ MapName));;
        OnPreLoadMap h MapName
    | None => mret tt
    end.

Definition OnPostLoadMap (h : FHost) (World : option UWorld) : M unit :=
  if negb (ServerCheck h) then mret tt
  else
    st ← get CurrentState;
    match st with
    | NewGameOnNextLevel =>
        match World with
        | Some W =>
            emit (UE_LOG Verbose ("OnPostLoadMap NewGame starting: " +:+ GetCurrentLevelName W));;
            SubscribeAllLevelObjectEvents h;;
            modify (set_CurrentState RunningIdle)
        | None => mret tt
        end
    | RunningIdle => SubscribeAllLevelObjectEvents h
    | LoadingGame =>
        match World with
        | Some W =>
            let Name := GetCurrentLevelName W in
            can ← CanRestoreWorld h W;
            if can : bool then
              emit (UE_LOG Verbose ("OnPostLoadMap restore: " +:+ Name));;
              modify (set_bIsRestoringState true);;
              GetActiveState;;
              emit (Broadcast (PreLevelRestore Name));;
              StateDo RestoreLoadedWorld;;
              emit (Broadcast (PostLevelRestore Name true));;
              modify (set_bIsRestoringState false);;
              SubscribeAllLevelObjectEvents h;;
              LoadComplete SlotNameInProgress true;;
              emit (UE_LOG Log "Load: Success")
            else
              emit (UE_LOG Log ("Skipping restore of world " +:+ Name +:+ ", no saved data."));;
              SubscribeAllLevelObjectEvents h;;
              LoadComplete SlotNameInProgress false;;
              emit (UE_LOG Log "Load: Skipped")
        | None => mret tt
        end
    | _ => mret tt
    end;;
    emit (Broadcast PostTravelToNewMap).

Definition LoadActorData (h : FHost) (Actor : AActor) (bAsGameLoad : bool) : M unit :=
  if negb (ServerCheck h) then mret tt
  else
    PrevState ← get CurrentState;
    when bAsGameLoad (modify (set_CurrentState LoadingGame));;
    emit (UE_LOG Verbose ("LoadActorData restore: " +:+ ActorName (ActorInfo Actor)));;
    modify (set_bIsRestoringState true);;
    GetActiveState;;
    StateDo (RestoreActor Actor);;
    modify (set_bIsRestoringState false);;
    modify (set_CurrentState PrevState).

Definition OnActorDestroyed (Actor : AActor) : M unit :=
  st ← get CurrentState;
  when (bool_decide (st = RunningIdle))
    match GetLevel Actor with
    | Some Level =>
        when (negb (bIsBeingRemoved Level))
          (GetActiveState;;
           StateDo (StoreLevelActorDestroyed Actor))
    | None => mret tt
    end.

Definition MarkActorDestroyed (h : FHost) (Actor : AActor) : M unit :=
  if negb (ServerCheck h) then mret tt
  else OnActorDestroyed Actor.

Definition IsStreamedLevelRestoring (s : USpudSubsystem) (Level : ULevel) : bool :=
  match LevelStreamingRestoreStates s !! LevelName Level with
  | Some FoundState => FoundState
  | None => false
  end.

Definition PostLoadStreamLevelGameThread (h : FHost) (Name : string) : M unit :=
  emit (Broadcast (PostLoadStreamingLevel Name));;
  match GetStreamingLevel h Name with
  | Some StreamLevel =>
      match GetLoadedLevel StreamLevel with
      | None =>
          emit (UE_LOG Log ("PostLoadStreamLevel called for " +:+ Name +:+
                            " but level is null; probably unloaded again?"))
      | Some Level =>
          modify (set_bIsRestoringState true);;
          emit (Broadcast (PreLevelRestore Name));;
          GetActiveState;;
          StateDo (RestoreLevel Level);;
          emit (SetShouldBeVisible Name);;
          SubscribeLevelObjectEvents (Some Level);;
          emit (Broadcast (PostLevelRestore Name true));;
          modify (set_bIsRestoringState false)
      end
  | None => mret tt
  end.

(** [HandleLevelLoaded] hands a closure to the game thread; it runs when
    the game thread takes it up, see [RunGameThreadTask]. *)
Definition HandleLevelLoaded (Name : string) : M unit :=
  GetActiveState;;
  StateDo (PreLoadLevelData Name);;
  tasks ← get GameThreadTasks;
  modify (set_GameThreadTasks (tasks ++ [Name])).

Definition RunGameThreadTask (h : FHost) : M unit :=
  tasks ← get GameThreadTasks;
  match tasks with
  | [] => mret tt
  | Name :: rest =>
      modify (set_GameThreadTasks rest);;
      PostLoadStreamLevelGameThread h Name;;
      states ← get LevelStreamingRestoreStates;
      modify (set_LevelStreamingRestoreStates (<[Name := false]> states));;
      emit (Broadcast (PostLoadStreamingLevel Name))
  end.

Definition HandleLevelUnloaded (Level : ULevel) : M unit :=
  UnsubscribeLevelObjectEvents (Some Level);;
  st ← get CurrentState;
  tearing ← get bIsTearingDown;
  when (bool_decide (st ≠ LoadingGame) && negb tearing)
    (StoreLevel Level true false).

Definition NotifyLevelLoadedExternally (Name : string) : M unit :=
  HandleLevelLoaded Name.

Definition NotifyLevelUnloadedExternally (Level : ULevel) : M unit :=
  HandleLevelUnloaded Level.

Definition RestoreGlobalObjects (h : FHost) : M unit :=
  objs ← get GlobalObjects;
  for_each objs (λ Ptr,
    match WeakGet h Ptr with
    | Some o => StateDo (RestoreGlobalObject o None)
    | None => mret tt
    end);;
  named ← get NamedGlobalObjects;
  for_each named (λ Pair,
    match WeakGet h Pair.2 with
    | Some o => StateDo (RestoreGlobalObject o (Some Pair.1))
    | None => mret tt
    end).

Definition LoadGame (h : FHost) (SlotName : string) (bAutoTravelLevel : bool)
    (TravelOptions : string) : M unit :=
  if negb (ServerCheck h) then LoadComplete (λ _, SlotName) false
  else
    st ← get CurrentState;
    if bool_decide (st ≠ RunningIdle) then
      emit (UE_LOG Error "TODO: Overlapping calls to save/load, resolve this");;
      LoadComplete (λ _, SlotName) false
    else
      modify (set_CurrentState LoadingGame);;
      modify (set_bIsRestoringState true);;
      emit (Broadcast (PreLoadGame SlotName));;
      emit (UE_LOG Verbose ("Loading Game from slot " +:+ SlotName));;
      GetActiveState;;
      StateDo ResetState;;
      let Path := GetSaveGameFilePath h SlotName in
      emit (CreateFileReader Path);;
      if FileReaderOpens h Path then
        StateDo (LoadFromArchive Path false);;
        emit (ArchiveClose Path);;
        emit (ArchiveIsError Path);;
        if FileReaderError h Path then
          emit (UE_LOG Error ("Error while loading game from " +:+ SlotName));;
          LoadComplete (λ _, SlotName) false
        else
          RestoreGlobalObjects h;;
          modify (set_SlotNameInProgress SlotName);;
          when bAutoTravelLevel
            (emit (UE_LOG Verbose ("(Re)loading map: " +:+ StateGetPersistentLevel h));;
             emit (OpenLevel (StateGetPersistentLevel h) TravelOptions))
      else
        emit (UE_LOG Error ("Error while opening save game for slot " +:+ SlotName));;
        LoadComplete (λ _, SlotName) false.

(** [TArray::AddUnique] adds the handle unless an entry equals it. *)
Definition AddPersistentGlobalObject (h : FHost) (Obj : UObjectPtr) : M unit :=
  objs ← get GlobalObjects;
  if existsb (λ Ptr, WeakEq h Ptr Obj) objs then mret tt
  else modify (set_GlobalObjects (objs ++ [Obj])).

Definition AddPersistentGlobalObjectWithName (Obj : UObjectPtr) (Name : string) : M unit :=
  named ← get NamedGlobalObjects;
  modify (set_NamedGlobalObjects (TMapAdd Name Obj named)).

(** [TArray::Remove] drops every entry equal to the handle of [Obj]; the
    loop over the named entries compares what each handle dereferences to. *)
Definition RemovePersistentGlobalObject (h : FHost) (Obj : UObjectPtr) : M unit :=
  objs ← get GlobalObjects;
  modify (set_GlobalObjects (filter (λ Ptr, WeakEq h Ptr Obj = false) objs));;
  named ← get NamedGlobalObjects;
  modify (set_NamedGlobalObjects
            (filter (λ Pair : string * TWeakObjectPtr, WeakGet h Pair.2 ≠ Obj) named)).

Definition ClearLevelState (Name : string) : M unit :=
  GetActiveState;;
  StateDo (ClearLevel Name).

Definition ForceReset : M unit :=
  modify (set_CurrentState RunningIdle);;
  modify (set_bIsRestoringState false).

Definition OnLevelBeginMakingInvisible (h : FHost) (World : UWorld) (LoadedLevel : ULevel) : M unit :=
  if negb (ServerCheck h) || IsNetModeClient World then mret tt
  else
    let Name := LevelName LoadedLevel in
    emit (UE_LOG Verbose ("Level hidden: " +:+ Name));;
    emit (Broadcast (PreUnloadStreamingLevel Name));;
    HandleLevelUnloaded LoadedLevel;;
    emit (Broadcast (PostUnloadStreamingLevel Name)).

Definition OnLevelBeginMakingVisible (h : FHost) (World : UWorld) (LoadedLevel : ULevel) : M unit :=
  if negb (ServerCheck h) || IsNetModeClient World then mret tt
  else
    let Name := LevelName LoadedLevel in
    emit (UE_LOG Verbose ("Level shown: " +:+ Name));;
    can ← CanRestoreLevel h LoadedLevel;
    if negb can then
      emit (UE_LOG Log ("Skipping restore of streaming level " +:+ Name +:+ ", no saved data."))
    else
      states ← get LevelStreamingRestoreStates;
      modify (set_LevelStreamingRestoreStates (<[Name := true]> states));;
      emit (Broadcast (PreLoadStreamingLevel Name));;
      HandleLevelLoaded Name.

(** ** The background upgrade of all saves: [FUpgradeAllSavesAction::FUpgradeTask] *)

(** What the task reads of a save it has loaded in full. *)
Record FLoadedSave : Type := mkLoadedSave {
  GlobalDataOutdated : bool;
  LevelDataOutdated : list (string * bool)
}.

Record FUpgradeTask : Type := mkUpgradeTask {
  bUpgradeAlways : bool;
  UpgradeCallbackIsBound : bool;
  (** [UpgradeCallback.Execute(State)], by the file the state came from *)
  UpgradeCallbackExecute : string → bool;
  (** the state [LoadFromArchive] yields for a file *)
  LoadedSave : string → FLoadedSave
}.

Definition SaveNeedsUpgrading (State : FLoadedSave) : bool :=
  if GlobalDataOutdated State then true
  else existsb snd (LevelDataOutdated State).

(** The body of the loop of [DoWork] for one save file. *)
Definition UpgradeSaveFile (h : FHost) (Task : FUpgradeTask) (SaveFile : string) : list FEffect :=
  let AbsoluteFilename := GetSaveGameDirectory h +:+ SaveFile in
  CreateFileReader AbsoluteFilename ::
  if FileReaderOpens h AbsoluteFilename then
    NewSpudState ::
    StateCall (LoadFromArchive AbsoluteFilename true) ::
    ArchiveClose AbsoluteFilename ::
    ArchiveIsError AbsoluteFilename ::
    if FileReaderError h AbsoluteFilename then
      [UE_LOG Error ("Error while loading game to check for upgrades: " +:+ SaveFile)]
    else if bUpgradeAlways Task || SaveNeedsUpgrading (LoadedSave Task AbsoluteFilename) then
      UpgradeCallback AbsoluteFilename ::
      if UpgradeCallbackExecute Task AbsoluteFilename then
        let BackupFilename := AbsoluteFilename +:+ ".bak" in
        FileMove BackupFilename AbsoluteFilename ::
        CreateFileWriter AbsoluteFilename ::
        if FileWriterOpens h AbsoluteFilename then
          [StateCall (SaveToArchive AbsoluteFilename)]
        else []
      else []
    else []
  else [].

Definition DoWork (h : FHost) (Task : FUpgradeTask) : list FEffect :=
  if negb (UpgradeCallbackIsBound Task) then []
  else concat (map (UpgradeSaveFile h Task) (FindSaveFiles h)).

(** ** Calls into the subsystem

    Everything the game and the engine can ask of the subsystem, and the
    run of a sequence of such calls, each against the host of its time. *)

Inductive FCall : Type :=
| CallInitialize
| CallDeinitialize
| CallNewGame (bCheckServerOnly bAfterLevelLoad : bool)
| CallEndGame
| CallSaveGame (SlotName Title : string) (bTakeScreenshot : bool) (ExtraInfo : UObjectPtr)
| CallOnScreenshotCaptured (Width Height : nat) (Colours : list nat)
| CallLoadGame (SlotName : string) (bAutoTravelLevel : bool) (TravelOptions : string)
| CallForceReset
| CallOnPreLoadMap (MapName : string)
| CallOnSeamlessTravelStart (World : option UWorld) (MapName : string)
| CallOnPostLoadMap (World : option UWorld)
| CallLoadActorData (Actor : AActor) (bAsGameLoad : bool)
| CallMarkActorDestroyed (Actor : AActor)
| CallOnActorDestroyed (Actor : AActor)
| CallNotifyLevelLoadedExternally (Name : string)
| CallNotifyLevelUnloadedExternally (Level : ULevel)
| CallOnLevelBeginMakingVisible (World : UWorld) (LoadedLevel : ULevel)
| CallOnLevelBeginMakingInvisible (World : UWorld) (LoadedLevel : ULevel)
| CallRunGameThreadTask
| CallAddPersistentGlobalObject (Obj : UObjectPtr)
| CallAddPersistentGlobalObjectWithName (Obj : UObjectPtr) (Name : string)
| CallRemovePersistentGlobalObject (Obj : UObjectPtr)
| CallClearLevelState (Name : string).

Definition call (h : FHost) (c : FCall) : M unit :=
  match c with
  | CallInitialize => Initialize
  | CallDeinitialize => Deinitialize
  | CallNewGame a b => NewGame h a b
  | CallEndGame => EndGame h
  | CallSaveGame slot title shot extra => SaveGame h slot title shot extra
  | CallOnScreenshotCaptured w ht cs => OnScreenshotCaptured h w ht cs
  | CallLoadGame slot travel opts => LoadGame h slot travel opts
  | CallForceReset => ForceReset
  | CallOnPreLoadMap name => OnPreLoadMap h name
  | CallOnSeamlessTravelStart w name => OnSeamlessTravelStart h w name
  | CallOnPostLoadMap w => OnPostLoadMap h w
  | CallLoadActorData a b => LoadActorData h a b
  | CallMarkActorDestroyed a => MarkActorDestroyed h a
  | CallOnActorDestroyed a => OnActorDestroyed a
  | CallNotifyLevelLoadedExternally name => NotifyLevelLoadedExternally name
  | CallNotifyLevelUnloadedExternally l => NotifyLevelUnloadedExternally l
  | CallOnLevelBeginMakingVisible w l => OnLevelBeginMakingVisible h w l
  | CallOnLevelBeginMakingInvisible w l => OnLevelBeginMakingInvisible h w l
  | CallRunGameThreadTask => RunGameThreadTask h
  | CallAddPersistentGlobalObject o => AddPersistentGlobalObject h o
  | CallAddPersistentGlobalObjectWithName o name => AddPersistentGlobalObjectWithName o name
  | CallRemovePersistentGlobalObject o => RemovePersistentGlobalObject h o
  | CallClearLevelState name => ClearLevelState name
  end.

Definition run (calls : list (FHost * FCall)) : M unit :=
  for_each calls (λ hc, call hc.1 hc.2).

(** ** Reading traces and states *)

(** The calls made on the active [USpudState], in order. *)
Definition StateCalls (t : list FEffect) : list FStateCall :=
  omap (λ e, match e with StateCall c => Some c | _ => None end) t.

(** The actors of a level whose destruction is tracked: persistent, and
    placed in the level rather than spawned at run time. *)
Definition TrackedActors (L : ULevel) : list string :=
  ActorName <$> filter (λ A, IsPersistentObject A = true ∧ IsRuntimeActor A = false) (Actors L).

(** No tracked actor of the level has the destruction handler bound. *)
Definition TrackerUnsubscribed (L : ULevel) (s : USpudSubsystem) : Prop :=
  ∀ A, A ∈ TrackedActors L → A ∉ OnDestroyedBound s.

(** What the unloading of a level comes to, from [s] to [s'] with trace
    [t]: the level is stored, released and not blocking, exactly when the
    orchestrator was not [LoadingGame] and the subsystem was not tearing
    down; nothing else is asked of the state; and its tracked actors are
    unsubscribed. *)
Definition StoredUnlessLoading (L : ULevel) (s s' : USpudSubsystem) (t : list FEffect) : Prop :=
  (StateCall (StateStoreLevel L true false) ∈ t ↔
     CurrentState s ≠ LoadingGame ∧ bIsTearingDown s = false) ∧
  (∀ c, StateCall c ∈ t → c = StateStoreLevel L true false) ∧
  TrackerUnsubscribed L s'.

(** The second object differs from the first at most in [ActiveState]. *)
Definition SameButActiveState (s s' : USpudSubsystem) : Prop :=
  set_ActiveState (ActiveState s') s = s'.

(** The effects by which [FinishSaveGame] serialises the game, writes it
    to storage and reports the end of the save.  It stores the levels
    without releasing them; the store of a level that leaves the world
    releases it. *)
Definition IsSavePipelineEffect (e : FEffect) : bool :=
  match e with
  | StateCall StoreWorldGlobals
  | StateCall (StoreGlobalObject _ _)
  | StateCall (StateStoreLevel _ false _)
  | StateCall (SetTitle _)
  | StateCall SetTimestampNow
  | StateCall (SetCustomSaveInfo _)
  | StateCall (SetScreenshot _)
  | StateCall (SaveToArchive _)
  | CreateFileWriter _
  | ArchiveClose _
  | ArchiveIsError _
  | Broadcast (PostSaveGame _ _) => true
  | _ => false
  end.

(** The calls that are neither the capture callback nor a command that
    sets the orchestrator state outright: a new game, the end of the game,
    a forced reset, or another save or load request. *)
Definition Quiet (c : FCall) : bool :=
  match c with
  | CallOnScreenshotCaptured _ _ _
  | CallNewGame _ _
  | CallEndGame
  | CallForceReset
  | CallSaveGame _ _ _ _
  | CallLoadGame _ _ _ => false
  | _ => true
  end.

(** The members a save with a thumbnail leaves behind while it waits for
    the captured frame. *)
Definition AwaitingCapture (SlotName Title : string) (ExtraInfo : UObjectPtr)
    (s : USpudSubsystem) : Prop :=
  CurrentState s = SavingGame ∧ SlotNameInProgress s = SlotName ∧
  TitleInProgress s = Title ∧ ExtraInfoInProgress s = ExtraInfo.

(** No two handles of the list are equal, as [TArray::AddUnique] keeps
    it. *)
Definition WeakUnique (h : FHost) (l : list TWeakObjectPtr) : Prop :=
  ∀ i j P Q, l !! i = Some P → l !! j = Some Q → WeakEq h P Q = true → i = j.

(** The levels whose leaving the world a run of calls notifies. *)
Definition UnloadingLevels (calls : list (FHost * FCall)) : list ULevel :=
  omap (λ hc : FHost * FCall,
          match hc.2 with
          | CallNotifyLevelUnloadedExternally L
          | CallOnLevelBeginMakingInvisible _ L => Some L
          | _ => None
          end) calls.

(** What may reach the trace while a save waits for its frame and the
    levels [Unloading] leave the world: nothing of the save pipeline, and
    of the storing of levels only that of a level that leaves, released and
    not blocking, with its two broadcasts. *)
Definition WhileWaiting (Unloading : list ULevel) (e : FEffect) : Prop :=
  IsSavePipelineEffect e = false ∧
  match e with
  | StateCall (StateStoreLevel L bRelease bBlocking) =>
      L ∈ Unloading ∧ bRelease = true ∧ bBlocking = false
  | Broadcast (PreLevelStore Name) | Broadcast (PostLevelStore Name _) =>
      Name ∈ LevelName <$> Unloading
  | _ => True
  end.

(** ** A small world to run the subsystem in *)

Definition Door (Zone : string) : FLevelActor := mkLevelActor (Zone +:+ ".Door") true false.
Definition Bullet (Zone : string) : FLevelActor := mkLevelActor (Zone +:+ ".Bullet") true true.

Definition Zone (Name : string) : ULevel := mkLevel Name false [Door Name; Bullet Name].

Definition TownWorld : UWorld := mkWorld [Zone "Town"; Zone "Cellar"] "Town" false.

(** A listen server with the plugin enabled, whose disk never fails and
    holds the save [S1] only. *)
Definition ServerHost : FHost := {|
  bEnableSPUD := true;
  HasGameInstance := true;
  GameInstanceHasWorld := true;
  HasAuthGameMode := true;
  HasGameViewportClient := true;
  HasLocalPlayerViewport := true;
  GetWorld := Some TownWorld;
  GetStreamingLevel := λ _, None;
  ObjectIsValid := λ _, true;
  ProjectSavedDir := "Saved/";
  FileWriterOpens := λ _, true;
  FileWriterError := λ _, false;
  FileReaderOpens := λ Path, bool_decide (Path = "Saved/SaveGames/S1.sav");
  FileReaderError := λ _, false;
  CompressThumbnail := λ _ _ _, [];
  FindSaveFiles := ["S1.sav"];
  StateCanRestoreLevel := λ _, false;
  StateCanRestoreWorld := λ _, false;
  StateGetPersistentLevel := "Town"
|}.

(** The same machine after [SPUD.Enable 0] was typed at the console. *)
Definition DisabledHost : FHost := {|
  bEnableSPUD := false;
  HasGameInstance := true;
  GameInstanceHasWorld := true;
  HasAuthGameMode := true;
  HasGameViewportClient := true;
  HasLocalPlayerViewport := true;
  GetWorld := Some TownWorld;
  GetStreamingLevel := λ _, None;
  ObjectIsValid := λ _, true;
  ProjectSavedDir := "Saved/";
  FileWriterOpens := λ _, true;
  FileWriterError := λ _, false;
  FileReaderOpens := λ Path, bool_decide (Path = "Saved/SaveGames/S1.sav");
  FileReaderError := λ _, false;
  CompressThumbnail := λ _ _ _, [];
  FindSaveFiles := ["S1.sav"];
  StateCanRestoreLevel := λ _, false;
  StateCanRestoreWorld := λ _, false;
  StateGetPersistentLevel := "Town"
|}.

(** The subsystem before any game was started. *)
Definition FreshSubsystem : USpudSubsystem := {|
  bIsTearingDown := false;
  CurrentState := Disabled;
  bIsRestoringState := false;
  ActiveState := false;
  SlotNameInProgress := "";
  TitleInProgress := "";
  ExtraInfoInProgress := None;
  OnScreenshotHandle := false;
  GlobalObjects := [];
  NamedGlobalObjects := [];
  LevelStreamingRestoreStates := ∅;
  bSaveLevelStateWhileTraveling := true;
  OnDestroyedBound := ∅;
  GameThreadTasks := []
|}.

(** The subsystem a run of calls on the server leaves behind, starting
    from [FreshSubsystem]; [FreshSubsystem] again should the run crash. *)
Definition After (calls : list FCall) : USpudSubsystem :=
  match exec (run ((λ c, (ServerHost, c)) <$> calls)) FreshSubsystem with
  | Some (s, _) => s
  | None => FreshSubsystem
  end.

(** A registry with one object registered both ways and another by name. *)
Definition RegistryCalls : list FCall :=
  [CallNewGame false false;
   CallAddPersistentGlobalObject (Some 7);
   CallAddPersistentGlobalObjectWithName (Some 7) "Inventory";
   CallAddPersistentGlobalObjectWithName (Some 8) "Quests"].

(** An upgrade task whose callback accepts every save. *)
Definition UpgradeEverything : FUpgradeTask := {|
  bUpgradeAlways := true;
  UpgradeCallbackIsBound := true;
  UpgradeCallbackExecute := λ _, true;
  LoadedSave := λ _, mkLoadedSave false []
|}.

(** The members a request in flight is known by. *)
Definition SameSession (s s' : USpudSubsystem) : Prop :=
  CurrentState s' = CurrentState s ∧
  SlotNameInProgress s' = SlotNameInProgress s ∧
  TitleInProgress s' = TitleInProgress s ∧
  ExtraInfoInProgress s' = ExtraInfoInProgress s.

(** The registry of global objects. *)
Definition SameRegistry (s s' : USpudSubsystem) : Prop :=
  GlobalObjects s' = GlobalObjects s ∧ NamedGlobalObjects s' = NamedGlobalObjects s.

(** ** Total correctness of a member function

    [keeps_at R Q m s]: run from [s], [m] does not crash, takes [s] to an
    object related to it by [R], and every effect of its trace satisfies
    [Q]. *)
Definition keeps_at {A} (R : relation USpudSubsystem) (Q : FEffect → Prop)
    (m : M A) (s : USpudSubsystem) : Prop :=
  ∃ a s' t, m s = Some (a, s', t) ∧ R s s' ∧ Forall Q t.

Definition keeps {A} (R : relation USpudSubsystem) (Q : FEffect → Prop) (m : M A) : Prop :=
  ∀ s, keeps_at R Q m s.

(** ** More of SpudSubsystem.cpp: listing the saves *)

(** What the list of saves shows of a save: [USpudSaveGameInfo]. *)
Record USpudSaveGameInfo : Type := mkSaveGameInfo {
  InfoSlotName : string;
  InfoTitle : string;
  InfoTimestamp : Z
}.

(** [ESpudSaveSorting]; its first member is called [None] in the source. *)
Inductive ESpudSaveSorting : Type :=
| SortNone
| SortMostRecent
| SortSlotName
| SortTitle.

#[global] Instance ESpudSaveSorting_eq_dec : EqDecision ESpudSaveSorting.
Proof. solve_decision. Defined.

(** What the listing needs of the engine and of SpudSubsystem.h, beside
    [FHost]. *)
Record FSaveStore : Type := mkSaveStore {
  (** the slot names declared in SpudSubsystem.h *)
  QuickSaveSlotName : string;
  AutoSaveSlotName : string;
  (** [FPaths::GetBaseFilename] *)
  GetBaseFilename : string → string;
  (** [USpudState::LoadSaveInfoFromArchive] on the file of a path: the title
      and the timestamp, when the head of the file can be read; the head
      holds no slot name, and the thumbnail and the custom info it holds
      are not read by the functions here *)
  LoadSaveInfoFromArchive : string → option (string * Z);
  (** [FString::Compare] ignoring case and [FText::CompareToCaseIgnored] *)
  CompareIgnoreCase : string → string → Z;
  (** [TArray::Sort] with a predicate *)
  ArraySort : (USpudSaveGameInfo → USpudSaveGameInfo → bool) →
              list USpudSaveGameInfo → list USpudSaveGameInfo
}.

Definition FSaveSorter (store : FSaveStore) (Sorting : ESpudSaveSorting)
    (A B : USpudSaveGameInfo) : bool :=
  match Sorting with
  | SortNone => false
  | SortMostRecent => (InfoTimestamp B <? InfoTimestamp A)%Z
  | SortSlotName => (CompareIgnoreCase store (InfoSlotName A) (InfoSlotName B) <? 0)%Z
  | SortTitle => (CompareIgnoreCase store (InfoTitle A) (InfoTitle B) <? 0)%Z
  end.

(** [FPaths::Combine] adds no separator after a directory that ends in
    one, as [GetSaveGameDirectory] does. *)
Definition GetSaveGameInfo (h : FHost) (store : FSaveStore) (SlotName : string) :
    M (option USpudSaveGameInfo) :=
  let AbsoluteFilename := GetSaveGameDirectory h +:+ (SlotName +:+ ".sav") in
  emit (CreateFileReader AbsoluteFilename);;
  if FileReaderOpens h AbsoluteFilename then
    let Result := LoadSaveInfoFromArchive store AbsoluteFilename in
    emit (ArchiveClose AbsoluteFilename);;
    mret (match Result with
          | Some (Title, Timestamp) => Some (mkSaveGameInfo SlotName Title Timestamp)
          | None => None
          end)
  else
    emit (UE_LOG Error ("Unable to open " +:+ AbsoluteFilename +:+ " for reading info"));;
    mret None.

(** A loop that adds to an array what its body finds. *)
Fixpoint gather {A B} (l : list A) (body : A → M (option B)) : M (list B) :=
  match l with
  | [] => mret []
  | x :: l' =>
      found ← body x;
      rest ← gather l' body;
      mret (match found with Some b => b :: rest | None => rest end)
  end.

(** The slot of a file is its base name, the branch compiled when
    [PLATFORM_PS5] is off. *)
Definition GetSaveGameList (h : FHost) (store : FSaveStore)
    (bIncludeQuickSave bIncludeAutoSave : bool) (Sorting : ESpudSaveSorting) :
    M (list USpudSaveGameInfo) :=
  Ret ← gather (FindSaveFiles h) (λ File,
    let SlotName := GetBaseFilename store File in
    if (negb bIncludeQuickSave && FStringEq SlotName (QuickSaveSlotName store)) ||
       (negb bIncludeAutoSave && FStringEq SlotName (AutoSaveSlotName store))
    then mret None
    else GetSaveGameInfo h store SlotName);
  mret (if bool_decide (Sorting ≠ SortNone)
        then ArraySort store (FSaveSorter store Sorting) Ret
        else Ret).

(** The loop of [GetLatestSaveGame] over the list of saves. *)
Definition LatestOf (SaveGameList : list USpudSaveGameInfo) : option USpudSaveGameInfo :=
  foldl (λ Best Curr,
           match Best with
           | None => Some Curr
           | Some B => if (InfoTimestamp B <? InfoTimestamp Curr)%Z then Some Curr else Best
           end)
        None SaveGameList.

(** [GetLatestSaveGame] calls [GetSaveGameList] with the default arguments
    of its declaration in SpudSubsystem.h; they are taken as arguments. *)
Definition GetLatestSaveGame (h : FHost) (store : FSaveStore)
    (bIncludeQuickSave bIncludeAutoSave : bool) (Sorting : ESpudSaveSorting) :
    M (option USpudSaveGameInfo) :=
  SaveGameList ← GetSaveGameList h store bIncludeQuickSave bIncludeAutoSave Sorting;
  mret (LatestOf SaveGameList).

Definition LoadLatestSaveGame (h : FHost) (store : FSaveStore)
    (bIncludeQuickSave bIncludeAutoSave : bool) (Sorting : ESpudSaveSorting)
    (bAutoTravelLevel : bool) (TravelOptions : string) : M unit :=
  Latest ← GetLatestSaveGame h store bIncludeQuickSave bIncludeAutoSave Sorting;
  match Latest with
  | Some Info => LoadGame h (InfoSlotName Info) bAutoTravelLevel TravelOptions
  | None => mret tt
  end.

Definition GetQuickSaveGame (h : FHost) (store : FSaveStore) : M (option USpudSaveGameInfo) :=
  GetSaveGameInfo h store (QuickSaveSlotName store).

Definition GetAutoSaveGame (h : FHost) (store : FSaveStore) : M (option USpudSaveGameInfo) :=
  GetSaveGameInfo h store (AutoSaveSlotName store).

Definition GetActiveGameFolder (h : FHost) : string :=
  ProjectSavedDir h +:+ "CurrentGame/".

Definition GetActiveGameFilePath (h : FHost) (Name : string) : string :=
  GetActiveGameFolder h +:+ "SaveGames/" +:+ Name +:+ ".sav".

(** ** More ways to read traces and states *)

(** The delegates broadcast, in order. *)
Definition Broadcasts (t : list FEffect) : list FSpudDelegate :=
  omap (λ e, match e with Broadcast d => Some d | _ => None end) t.

(** The tracked actors of all the levels of the world of the host. *)
Definition WorldTrackedActors (h : FHost) : list string :=
  match GetWorld h with
  | Some World => GetLevels World ≫= TrackedActors
  | None => []
  end.

(** What a save asks of the state for the global objects: for the unnamed
    ones, then for the named ones, the live ones only. *)
Definition StoreGlobalObjectCalls (h : FHost) (s : USpudSubsystem) : list FStateCall :=
  omap (λ Ptr, (λ o, StoreGlobalObject o None) <$> WeakGet h Ptr) (GlobalObjects s) ++
  omap (λ Pair : string * TWeakObjectPtr,
          (λ o, StoreGlobalObject o (Some Pair.1)) <$> WeakGet h Pair.2)
       (NamedGlobalObjects s).

Definition RestoreGlobalObjectCalls (h : FHost) (s : USpudSubsystem) : list FStateCall :=
  omap (λ Ptr, (λ o, RestoreGlobalObject o None) <$> WeakGet h Ptr) (GlobalObjects s) ++
  omap (λ Pair : string * TWeakObjectPtr,
          (λ o, RestoreGlobalObject o (Some Pair.1)) <$> WeakGet h Pair.2)
       (NamedGlobalObjects s).

(** A level streamed in under the name it is looked up by. *)
Definition StreamedHost (L : ULevel) : FHost := {|
  bEnableSPUD := true;
  HasGameInstance := true;
  GameInstanceHasWorld := true;
  HasAuthGameMode := true;
  HasGameViewportClient := true;
  HasLocalPlayerViewport := true;
  GetWorld := Some TownWorld;
  GetStreamingLevel := λ Name,
    if bool_decide (Name = LevelName L) then Some (mkStreaming (Some L)) else None;
  ObjectIsValid := λ o, bool_decide (o ≠ 9);
  ProjectSavedDir := "Saved/";
  FileWriterOpens := λ _, true;
  FileWriterError := λ _, false;
  FileReaderOpens := λ Path, bool_decide (Path = "Saved/SaveGames/S1.sav");
  FileReaderError := λ _, false;
  CompressThumbnail := λ _ _ _, [];
  FindSaveFiles := ["S1.sav"; "Old.sav"];
  StateCanRestoreLevel := λ _, true;
  StateCanRestoreWorld := λ _, true;
  StateGetPersistentLevel := "Town"
|}.

(** The same server with its save files listed but none of them to be
    opened. *)
Definition LockedHost : FHost := {|
  bEnableSPUD := true;
  HasGameInstance := true;
  GameInstanceHasWorld := true;
  HasAuthGameMode := true;
  HasGameViewportClient := true;
  HasLocalPlayerViewport := true;
  GetWorld := Some TownWorld;
  GetStreamingLevel := λ _, None;
  ObjectIsValid := λ _, true;
  ProjectSavedDir := "Saved/";
  FileWriterOpens := λ _, true;
  FileWriterError := λ _, false;
  FileReaderOpens := λ _, false;
  FileReaderError := λ _, false;
  CompressThumbnail := λ _ _ _, [];
  FindSaveFiles := ["S1.sav"; "Old.sav"];
  StateCanRestoreLevel := λ _, false;
  StateCanRestoreWorld := λ _, false;
  StateGetPersistentLevel := "Town"
|}.

(** A store that drops the last four characters of a file name for its
    slot, reads the same head off every file and sorts by merging. *)
Definition PlainStore : FSaveStore := {|
  QuickSaveSlotName := "Quick";
  AutoSaveSlotName := "Auto";
  GetBaseFilename := λ File, String.substring 0 (String.length File - 4) File;
  LoadSaveInfoFromArchive := λ _, Some ("First", 5%Z);
  CompareIgnoreCase := λ _ _, 0%Z;
  ArraySort := λ Predicate,
    @merge_sort _ (λ A B, Predicate A B = true) (λ A B, decide (Predicate A B = true))
|}.

(** What storing a level leaves in the trace once the state object exists. *)
Definition StoreLevelTrace (L : ULevel) (bRelease bBlocking : bool) : list FEffect :=
  [Broadcast (PreLevelStore (LevelName L));
   StateCall (StateStoreLevel L bRelease bBlocking);
   Broadcast (PostLevelStore (LevelName L) true)].

(** The outcome [FinishSaveGame] reports for a slot: the writer opened and
    the archive was not in error after the close. *)
Definition SaveOK (h : FHost) (SlotName : string) : bool :=
  FileWriterOpens h (GetSaveGameFilePath h SlotName) &&
  negb (FileWriterError h (GetSaveGameFilePath h SlotName)).

(** The trace of [FinishSaveGame] in a world [W], from the object [s]. *)
Definition FinishSaveGameTrace (h : FHost) (W : UWorld) (SlotName Title : string)
    (ExtraInfo : UObjectPtr) (ScreenshotData : option (list Byte.byte))
    (s : USpudSubsystem) : list FEffect :=
  let Path := GetSaveGameFilePath h SlotName in
  (if ActiveState s then [] else [NewSpudState]) ++
  StateCall StoreWorldGlobals ::
  (StateCall <$> StoreGlobalObjectCalls h s) ++
  (GetLevels W ≫= λ L, StoreLevelTrace L false true) ++
  [StateCall (SetTitle Title); StateCall SetTimestampNow;
   StateCall (SetCustomSaveInfo ExtraInfo)] ++
  match ScreenshotData with
  | Some Png => [StateCall (SetScreenshot Png)]
  | None => []
  end ++
  CreateFileWriter Path ::
  (if FileWriterOpens h Path then
     [StateCall (SaveToArchive Path); ArchiveClose Path; ArchiveIsError Path;
      if FileWriterError h Path
      then UE_LOG Error ("Error while saving game to " +:+ SlotName)
      else UE_LOG Log ("Save to slot " +:+ SlotName +:+ ": Success")]
   else [UE_LOG Error ("Error while creating save game for slot " +:+ SlotName)]) ++
  [Broadcast (PostSaveGame SlotName (SaveOK h SlotName))].

(** The object [FinishSaveGame] leaves behind. *)
Definition AfterSave (s : USpudSubsystem) : USpudSubsystem :=
  set_ExtraInfoInProgress None (set_TitleInProgress ""
    (set_SlotNameInProgress "" (set_CurrentState RunningIdle (set_ActiveState true s)))).

(** Once the frame arrives, on a machine with a viewport and a world, the
    save in progress is serialised with the thumbnail made of the frame,
    written to the file of its slot when the writer opens, and reported
    once, as a success exactly when the writer opened and the archive was
    not in error after the close; the orchestrator is idle again. *)
Definition CaptureCompletesSave (SlotName Title : string) (ExtraInfo : UObjectPtr)
    (s : USpudSubsystem) : Prop :=
  ∀ h W Width Height Colours,
    HasLocalPlayerViewport h = true → GetWorld h = Some W →
    ∃ s' t, exec (OnScreenshotCaptured h Width Height Colours) s = Some (s', t) ∧
      CurrentState s' = RunningIdle ∧ SlotNameInProgress s' = "" ∧
      StateCalls t =
        StoreWorldGlobals :: StoreGlobalObjectCalls h s ++
        ((λ L, StateStoreLevel L false true) <$> GetLevels W) ++
        [SetTitle Title; SetTimestampNow; SetCustomSaveInfo ExtraInfo;
         SetScreenshot (CompressThumbnail h Width Height Colours)] ++
        (if FileWriterOpens h (GetSaveGameFilePath h SlotName)
         then [SaveToArchive (GetSaveGameFilePath h SlotName)] else []) ∧
      CreateFileWriter (GetSaveGameFilePath h SlotName) ∈ t ∧
      Broadcasts t =
        (GetLevels W ≫=
           λ L, [PreLevelStore (LevelName L); PostLevelStore (LevelName L) true]) ++
        [PostSaveGame SlotName (SaveOK h SlotName)].

(** What [GetSaveGameInfo] answers for a slot, and what the loop of
    [GetSaveGameList] adds for a file. *)
Definition SaveInfoOf (h : FHost) (store : FSaveStore) (SlotName : string) :
    option USpudSaveGameInfo :=
  if FileReaderOpens h (GetSaveGameFilePath h SlotName) then
    match LoadSaveInfoFromArchive store (GetSaveGameFilePath h SlotName) with
    | Some (Title, Timestamp) => Some (mkSaveGameInfo SlotName Title Timestamp)
    | None => None
    end
  else None.

Definition ListedInfoOf (h : FHost) (store : FSaveStore)
    (bIncludeQuickSave bIncludeAutoSave : bool) (File : string) : option USpudSaveGameInfo :=
  let SlotName := GetBaseFilename store File in
  if (negb bIncludeQuickSave && FStringEq SlotName (QuickSaveSlotName store)) ||
     (negb bIncludeAutoSave && FStringEq SlotName (AutoSaveSlotName store))
  then None
  else SaveInfoOf h store SlotName.

(** The effects that only read a file or write to the log. *)
Definition IsReadOrLog (e : FEffect) : Prop :=
  match e with
  | CreateFileReader _ | ArchiveClose _ | UE_LOG _ _ => True
  | _ => False
  end.

(** What has to hold of a save file for the task to hand it to the upgrade
    callback. *)
Definition UpgradeOffered (h : FHost) (Task : FUpgradeTask) (SaveFile : string) : Prop :=
  let AbsoluteFilename := GetSaveGameDirectory h +:+ SaveFile in
  UpgradeCallbackIsBound Task = true ∧ SaveFile ∈ FindSaveFiles h ∧
  FileReaderOpens h AbsoluteFilename = true ∧ FileReaderError h AbsoluteFilename = false ∧
  (bUpgradeAlways Task = true ∨
   GlobalDataOutdated (LoadedSave Task AbsoluteFilename) = true ∨
   ∃ Name, (Name, true) ∈ LevelDataOutdated (LoadedSave Task AbsoluteFilename)).

(** ** Proof tools *)

Ltac unfold_M :=
  unfold mbind, M_bind, mret, M_ret, get, modify, emit, crash, when, StateDo in *.

(** Membership in a trace that computes. *)
Ltac in_trace := apply list_elem_of_In; vm_compute; tauto.
Ltac not_in_trace := rewrite list_elem_of_In; vm_compute; intuition discriminate.

(** Membership in a set of actor names that computes. *)
Ltac in_set := apply (bool_decide_unpack _); vm_compute; exact I.

Lemma bind_run {A B} (m : M A) (k : A → M B) s a s1 t1 :
  m s = Some (a, s1, t1) →
  (m ≫= k) s =
    match k a s1 with
    | Some (b, s2, t2) => Some (b, s2, t1 ++ t2)
    | None => None
    end.
Proof. intros Hm. unfold mbind, M_bind. by rewrite Hm. Qed.

Lemma GetActiveState_run s :
  GetActiveState s =
    Some (tt, set_ActiveState true s, if ActiveState s then [] else [NewSpudState]).
Proof.
  unfold GetActiveState. unfold_M. destruct s as [? ? ? []]; reflexivity.
Qed.

(** ** Two runs on the small world *)

(** A new game subscribes the actors placed in the levels, and not the
    ones spawned at run time. *)
Example new_game_subscribes_doors :
  let s := After [CallNewGame false false] in
  CurrentState s = RunningIdle ∧
  "Town.Door" ∈ OnDestroyedBound s ∧ "Cellar.Door" ∈ OnDestroyedBound s ∧
  ("Town.Bullet" ∉ OnDestroyedBound s) ∧ ("Cellar.Bullet" ∉ OnDestroyedBound s).
Proof.
  cbv zeta. split; [vm_compute; reflexivity|]. repeat split; in_set.
Qed.

(** A load of S1 with travel, the map transition it causes and the arrival
    in the new map.  The state holds nothing for the world, so the load ends
    as skipped; the orchestrator is idle again. *)
Example load_travel_arrive :
  exec (run [(ServerHost, CallOnPreLoadMap "Town");
             (ServerHost, CallOnPostLoadMap (Some TownWorld))])
    (After [CallNewGame false false; CallLoadGame "S1" true ""]) =
  Some (After [CallNewGame false false; CallLoadGame "S1" true ""; CallOnPreLoadMap "Town";
               CallOnPostLoadMap (Some TownWorld)],
        [Broadcast (PreTravelToNewMap "Town");
         UE_LOG Log "Skipping restore of world Town, no saved data.";
         Broadcast (PostLoadGame "" false);
         UE_LOG Log "Load: Skipped";
         Broadcast PostTravelToNewMap]) ∧
  CurrentState (After [CallNewGame false false; CallLoadGame "S1" true ""; CallOnPreLoadMap "Town";
                       CallOnPostLoadMap (Some TownWorld)]) = RunningIdle.
Proof. split; vm_compute; reflexivity. Qed.

(** ** Rejected requests (C1) *)

(** A save request that meets a state other than [RunningIdle] goes through
    [SaveComplete], which sets [RunningIdle] and forgets the slot in
    progress. *)
Lemma SaveGame_overlapping h slot title shot extra s :
  ServerCheck h = true → slot ≠ "" → CurrentState s ≠ RunningIdle →
  exec (SaveGame h slot title shot extra) s =
    Some (set_ExtraInfoInProgress None (set_TitleInProgress ""
            (set_SlotNameInProgress "" (set_CurrentState RunningIdle s))),
          [UE_LOG Error "TODO: Overlapping calls to save/load, resolve this";
           Broadcast (PostSaveGame slot false)]).
Proof.
  intros Hs Hn Hst. unfold exec, SaveGame. rewrite Hs. cbn [negb].
  rewrite bool_decide_false by done.
  unfold SaveComplete. unfold_M. cbn.
  rewrite bool_decide_true by done. reflexivity.
Qed.

Lemma LoadGame_overlapping h slot travel opts s :
  ServerCheck h = true → CurrentState s ≠ RunningIdle →
  exec (LoadGame h slot travel opts) s =
    Some (set_SlotNameInProgress "" (set_bIsRestoringState false
            (set_CurrentState RunningIdle s)),
          [UE_LOG Error "TODO: Overlapping calls to save/load, resolve this";
           Broadcast (PostLoadGame slot false)]).
Proof.
  intros Hs Hst. unfold exec, LoadGame. rewrite Hs. cbn [negb].
  unfold LoadComplete. unfold_M. cbn.
  rewrite bool_decide_true by done. reflexivity.
Qed.

(** C1. A save with a thumbnail is in flight for slot S1 when the game asks
    for a save to slot S2.  The second request is refused, but the refusal
    puts the orchestrator back to [RunningIdle] and clears the slot in
    progress, so that the first save, when its frame arrives, is written to
    the file of the empty slot name and reported for the empty slot name,
    never for S1.  A refused load request resets the orchestrator the same
    way. *)
Theorem C1_rejected_request_resets_orchestrator :
  let s1 := After [CallNewGame false false; CallSaveGame "S1" "First" true None] in
  CurrentState s1 = SavingGame ∧ SlotNameInProgress s1 = "S1" ∧
  ∃ s2 s3 t3 s4,
    exec (SaveGame ServerHost "S2" "Second" false None) s1 =
      Some (s2, [UE_LOG Error "TODO: Overlapping calls to save/load, resolve this";
                 Broadcast (PostSaveGame "S2" false)]) ∧
    CurrentState s2 = RunningIdle ∧ SlotNameInProgress s2 = "" ∧
    exec (OnScreenshotCaptured ServerHost 4 4 []) s2 = Some (s3, t3) ∧
    CreateFileWriter "Saved/SaveGames/.sav" ∈ t3 ∧
    (CreateFileWriter "Saved/SaveGames/S1.sav" ∉ t3) ∧
    Broadcast (PostSaveGame "" true) ∈ t3 ∧
    (∀ ok : bool, Broadcast (PostSaveGame "S1" ok) ∉ t3) ∧
    exec (LoadGame ServerHost "S1" false "") s1 =
      Some (s4, [UE_LOG Error "TODO: Overlapping calls to save/load, resolve this";
                 Broadcast (PostLoadGame "S1" false)]) ∧
    CurrentState s4 = RunningIdle.
Proof.
  cbv zeta. split; [vm_compute; reflexivity|]. split; [vm_compute; reflexivity|].
  eexists _, _, _, _.
  split; [vm_compute; reflexivity|].
  split; [reflexivity|]. split; [reflexivity|].
  split; [vm_compute; reflexivity|].
  split; [in_trace|]. split; [not_in_trace|]. split; [in_trace|].
  split; [intros ok; not_in_trace|].
  split; [vm_compute; reflexivity|].
  reflexivity.
Qed.

(** ** Levels leaving the world (C2) *)

Lemma unsubscribe_actors (actors : list FLevelActor) s :
  for_each actors (λ Actor,
    if negb (IsPersistentObject Actor) then mret tt
    else when (negb (IsRuntimeActor Actor))
           (bound ← get OnDestroyedBound;
            modify (set_OnDestroyedBound (bound ∖ {[ActorName Actor]})))) s =
  Some (tt,
        set_OnDestroyedBound
          (OnDestroyedBound s ∖
             list_to_set (ActorName <$>
               filter (λ A, IsPersistentObject A = true ∧ IsRuntimeActor A = false) actors)) s,
        []).
Proof.
  revert s. induction actors as [|A actors IH]; intros s.
  - cbn. rewrite difference_empty_L. by destruct s.
  - cbn [for_each]. unfold_M. rewrite filter_cons.
    destruct (IsPersistentObject A) eqn:Hp, (IsRuntimeActor A) eqn:Hr; cbn -[filter];
      rewrite IH; cbn -[filter];
      try (rewrite decide_False by (intros [Ha Hb]; discriminate); reflexivity).
    rewrite decide_True by done. cbn -[filter].
    do 3 f_equal. unfold set_OnDestroyedBound at 1; cbn -[filter].
    unfold set_OnDestroyedBound. f_equal. set_solver.
Qed.

Lemma UnsubscribeLevelObjectEvents_run L s :
  UnsubscribeLevelObjectEvents (Some L) s =
    Some (tt, set_OnDestroyedBound (OnDestroyedBound s ∖ list_to_set (TrackedActors L)) s, []).
Proof. apply unsubscribe_actors. Qed.

Lemma HandleLevelUnloaded_run L s :
  ∃ s' t, exec (HandleLevelUnloaded L) s = Some (s', t) ∧
    StateCalls t =
      (if bool_decide (CurrentState s ≠ LoadingGame) && negb (bIsTearingDown s)
       then [StateStoreLevel L true false] else []) ∧
    (∀ d, Broadcast d ∈ t → d = PreLevelStore (LevelName L) ∨ d = PostLevelStore (LevelName L) true) ∧
    TrackerUnsubscribed L s'.
Proof.
  unfold exec, HandleLevelUnloaded, StoreLevel. unfold mbind, M_bind at 1.
  rewrite UnsubscribeLevelObjectEvents_run. unfold_M. cbn -[TrackedActors].
  destruct (bool_decide (CurrentState s ≠ LoadingGame) && negb (bIsTearingDown s));
    cbn -[TrackedActors].
  - rewrite GetActiveState_run. cbn -[TrackedActors]. eexists _, _. split; [reflexivity|].
    split; [by destruct (ActiveState s)|]. split.
    + intros d. destruct (ActiveState s); cbn; set_solver.
    + intros A HA. cbn. set_solver.
  - eexists _, _. split; [reflexivity|]. split; [done|]. split.
    + intros d. set_solver.
    + intros A HA. cbn. set_solver.
Qed.

Lemma elem_of_StateCalls c t : c ∈ StateCalls t ↔ StateCall c ∈ t.
Proof.
  unfold StateCalls. rewrite list_elem_of_omap. split.
  - intros [e [He Hc]]. destruct e; simplify_eq. done.
  - intros He. by exists (StateCall c).
Qed.

Lemma unload_outcome
    (h : FHost) (World : UWorld) (L : ULevel) (s : USpudSubsystem) (m : M unit) :
  ServerCheck h = true → IsNetModeClient World = false →
  m = HandleLevelUnloaded L ∨ m = OnLevelBeginMakingInvisible h World L →
  ∃ s' t, exec m s = Some (s', t) ∧ StoredUnlessLoading L s s' t.
Proof.
  intros Hserver Hnet Hm. unfold StoredUnlessLoading.
  destruct (HandleLevelUnloaded_run L s) as (s' & t & Hrun & Hcalls & _ & Hunsub).
  assert (Hiff : (StateStoreLevel L true false ∈ StateCalls t ↔
                   CurrentState s ≠ LoadingGame ∧ bIsTearingDown s = false) ∧
                 (∀ c, c ∈ StateCalls t → c = StateStoreLevel L true false)).
  { rewrite Hcalls. destruct (decide (CurrentState s = LoadingGame)) as [He|He].
    - rewrite bool_decide_false by naive_solver. cbn. set_solver.
    - rewrite bool_decide_true by done. destruct (bIsTearingDown s); cbn; set_solver. }
  destruct Hiff as [Hiff Honly].
  destruct Hm as [-> | ->].
  - exists s', t. split; [done|]. rewrite <- elem_of_StateCalls. split; [done|].
    split; [|done]. intros c Hc. by apply Honly, elem_of_StateCalls.
  - unfold exec in Hrun |- *. unfold OnLevelBeginMakingInvisible.
    rewrite Hserver, Hnet. cbn [negb orb]. unfold_M.
    destruct (HandleLevelUnloaded L s) as [[[[] s1] t1]|] eqn:Hh; [|done].
    injection Hrun as -> ->. cbn.
    eexists _, _. split; [reflexivity|].
    rewrite <- elem_of_StateCalls.
    change (StateCalls _)
      with (StateCalls (t ++ [Broadcast (PostUnloadStreamingLevel (LevelName L))])).
    unfold StateCalls in *. rewrite omap_app, app_nil_r. split; [done|]. split; [|done].
    intros c Hc. apply Honly. apply list_elem_of_omap. exists (StateCall c). split; [|done].
    rewrite !elem_of_cons in Hc. destruct Hc as [?|[?|Hc]]; try discriminate.
    rewrite elem_of_app in Hc. destruct Hc as [Hc|Hc]; [done|]. set_solver.
Qed.

Lemma OnLevelBeginMakingInvisible_elsewhere
    (h : FHost) (World : UWorld) (L : ULevel) (s : USpudSubsystem) :
  ServerCheck h && negb (IsNetModeClient World) = false →
  exec (OnLevelBeginMakingInvisible h World L) s = Some (s, []).
Proof.
  intros Hguard. unfold exec, OnLevelBeginMakingInvisible.
  destruct (ServerCheck h), (IsNetModeClient World); try discriminate; reflexivity.
Qed.

(** C2 (as amended).  A level that is unloaded is stored into the state
    (released, not blocking) exactly when the orchestrator is not
    [LoadingGame] and the subsystem is not tearing down; nothing else is
    asked of the state; and afterwards no tracked actor of the level has
    the destruction handler bound.  The same holds of a level that becomes
    invisible when the server check passes and the world is not a net
    client; when the server check fails or the world is a net client the
    notification does nothing: the subsystem is unchanged, the level is not
    stored and no actor is unsubscribed. *)
Theorem C2_unload_stores_unless_loading
    (h : FHost) (World : UWorld) (L : ULevel) (s : USpudSubsystem) :
  (∃ s' t, exec (HandleLevelUnloaded L) s = Some (s', t) ∧
           StoredUnlessLoading L s s' t) ∧
  (if ServerCheck h && negb (IsNetModeClient World)
   then ∃ s' t, exec (OnLevelBeginMakingInvisible h World L) s = Some (s', t) ∧
                StoredUnlessLoading L s s' t
   else exec (OnLevelBeginMakingInvisible h World L) s = Some (s, [])).
Proof.
  split.
  - destruct (HandleLevelUnloaded_run L s) as (s' & t & Hrun & Hcalls & _ & Hunsub).
    exists s', t. split; [done|]. unfold StoredUnlessLoading.
    rewrite <- elem_of_StateCalls. setoid_rewrite <- elem_of_StateCalls. rewrite Hcalls.
    split; [|split; [|done]].
    + destruct (decide (CurrentState s = LoadingGame)) as [He|He].
      * rewrite bool_decide_false by naive_solver. cbn. set_solver.
      * rewrite bool_decide_true by done. destruct (bIsTearingDown s); cbn; set_solver.
    + intros c. destruct (_ && _); set_solver.
  - destruct (ServerCheck h && negb (IsNetModeClient World)) eqn:Hguard.
    + apply andb_true_iff in Hguard as [Hserver Hnet%negb_true_iff].
      eapply unload_outcome; eauto.
    + by apply OnLevelBeginMakingInvisible_elsewhere.
Qed.

(** C2 as stated fails where the level becomes invisible while the plugin
    is switched off: the orchestrator is idle and nothing is tearing down,
    yet the level is not stored and its actors stay subscribed. *)
Lemma C2_counterexample :
  let s := After [CallNewGame false false] in
  CurrentState s ≠ LoadingGame ∧ bIsTearingDown s = false ∧
  exec (OnLevelBeginMakingInvisible DisabledHost TownWorld (Zone "Cellar")) s = Some (s, []) ∧
  ¬ TrackerUnsubscribed (Zone "Cellar") s.
Proof.
  cbv zeta. split; [vm_compute; discriminate|]. split; [vm_compute; reflexivity|].
  split; [vm_compute; reflexivity|].
  intros H. apply (H "Cellar.Door"); [in_trace | in_set].
Qed.

(** ** Levels entering the world (C3) *)

(** C3.  When the state holds nothing for a level that becomes visible,
    the handler restores nothing: it asks nothing of the state, broadcasts
    nothing and only writes to the log; no member of the subsystem changes,
    the orchestrator state included, except that the state object itself
    may have been created by the query. *)
Theorem C3_visible_without_data_is_inert
    (h : FHost) (World : UWorld) (L : ULevel) (s : USpudSubsystem)
    (Hnodata : StateCanRestoreLevel h L = false) :
  ∃ s' t, exec (OnLevelBeginMakingVisible h World L) s = Some (s', t) ∧
    CurrentState s' = CurrentState s ∧
    bIsRestoringState s' = bIsRestoringState s ∧
    LevelStreamingRestoreStates s' = LevelStreamingRestoreStates s ∧
    GameThreadTasks s' = GameThreadTasks s ∧
    SameButActiveState s s' ∧
    StateCalls t = [] ∧
    Forall (λ e, (∃ v msg, e = UE_LOG v msg) ∨ e = NewSpudState) t.
Proof.
  unfold exec, OnLevelBeginMakingVisible, CanRestoreLevel, SameButActiveState.
  destruct (negb (ServerCheck h) || IsNetModeClient World).
  - exists s, []. cbn. repeat split; try done. by destruct s.
  - unfold mbind, M_bind, emit. cbn. rewrite GetActiveState_run. unfold_M.
    rewrite Hnodata. cbn.
    eexists _, _. split; [reflexivity|]. cbn. repeat split; try done.
    + by destruct (ActiveState s).
    + destruct (ActiveState s); cbn;
        repeat first
          [ apply Forall_nil_2
          | apply Forall_cons_2;
            [first [left; eexists _, _; reflexivity | right; reflexivity]|] ].
Qed.

Lemma C3_visible_without_data_is_inert_witness :
  ∃ s' t,
    exec (OnLevelBeginMakingVisible ServerHost TownWorld (Zone "Cellar"))
      (After [CallNewGame false false]) = Some (s', t) ∧
    CurrentState s' = CurrentState (After [CallNewGame false false]) ∧
    bIsRestoringState s' = bIsRestoringState (After [CallNewGame false false]) ∧
    LevelStreamingRestoreStates s' =
      LevelStreamingRestoreStates (After [CallNewGame false false]) ∧
    GameThreadTasks s' = GameThreadTasks (After [CallNewGame false false]) ∧
    SameButActiveState (After [CallNewGame false false]) s' ∧
    StateCalls t = [] ∧
    Forall (λ e, (∃ v msg, e = UE_LOG v msg) ∨ e = NewSpudState) t.
Proof.
  apply (C3_visible_without_data_is_inert ServerHost TownWorld (Zone "Cellar")
           (After [CallNewGame false false]) eq_refl).
Defined.

(** ** Destroyed actors (C4) *)

Lemma OnActorDestroyed_run Actor s :
  let recorded :=
    bool_decide (CurrentState s = RunningIdle) &&
    match GetLevel Actor with
    | Some L => negb (bIsBeingRemoved L)
    | None => false
    end in
  exec (OnActorDestroyed Actor) s =
    if recorded
    then Some (set_ActiveState true s,
               (if ActiveState s then [] else [NewSpudState]) ++
               [StateCall (StoreLevelActorDestroyed Actor)])
    else Some (s, []).
Proof.
  unfold exec, OnActorDestroyed. unfold mbind, M_bind, get, when. cbn.
  destruct (bool_decide (CurrentState s = RunningIdle)); [|reflexivity].
  destruct (GetLevel Actor) as [L|]; [|reflexivity].
  destruct (bIsBeingRemoved L); [reflexivity|]. cbn.
  rewrite GetActiveState_run. unfold_M. cbn. reflexivity.
Qed.

(** The destruction of an actor is passed on to the state exactly when
    the orchestrator is [RunningIdle] and the actor has a level that is not
    being removed; [bIsTearingDown] is not looked at.  The handler asks
    nothing else of the state and changes no member of the subsystem other
    than creating the state object. *)
Lemma OnActorDestroyed_records_iff_idle (Actor : AActor) (s : USpudSubsystem) :
  ∃ s' t, exec (OnActorDestroyed Actor) s = Some (s', t) ∧
    (StateCall (StoreLevelActorDestroyed Actor) ∈ t ↔
       CurrentState s = RunningIdle ∧
       ∃ L, GetLevel Actor = Some L ∧ bIsBeingRemoved L = false) ∧
    (∀ c, StateCall c ∈ t → c = StoreLevelActorDestroyed Actor) ∧
    SameButActiveState s s'.
Proof.
  rewrite OnActorDestroyed_run. cbv zeta.
  destruct (decide (CurrentState s = RunningIdle)) as [Hst|Hst].
  - rewrite bool_decide_true by done. cbn [andb].
    destruct (GetLevel Actor) as [L|].
    + destruct (bIsBeingRemoved L) eqn:HR; cbn [negb].
      * exists s, []. split; [done|]. split; [|split].
        -- rewrite elem_of_nil. split; [done|]. intros (_ & L0 & [= <-] & ?). congruence.
        -- intros c Hc. by apply elem_of_nil in Hc.
        -- by destruct s.
      * eexists _, _. split; [done|]. split; [|split].
        -- split; [eauto|]. intros _. apply elem_of_app. right. apply list_elem_of_singleton. done.
        -- intros c Hc. destruct (ActiveState s); cbn in Hc;
             rewrite ?elem_of_cons, elem_of_nil in Hc; naive_solver.
        -- reflexivity.
    + exists s, []. split; [done|]. split; [|split].
      * rewrite elem_of_nil. split; [done|]. intros (_ & L0 & [=] & ?).
      * intros c Hc. by apply elem_of_nil in Hc.
      * by destruct s.
  - rewrite bool_decide_false by done. cbn [andb].
    exists s, []. split; [done|]. split; [|split].
    + rewrite elem_of_nil. naive_solver.
    + intros c Hc. by apply elem_of_nil in Hc.
    + by destruct s.
Qed.

(** C4.  The subsystem is tearing down once [Deinitialize] has run, and
    the orchestrator is still [RunningIdle] then.  The destruction of an
    actor whose level stays is recorded all the same: [OnActorDestroyed]
    does not look at [bIsTearingDown], and [Deinitialize] unsubscribes no
    actor.  The unloading of the very level, in the same state, is not
    stored, since [HandleLevelUnloaded] does look at the flag. *)
Theorem C4_destruction_recorded_while_tearing_down :
  let s := After [CallNewGame false false; CallDeinitialize] in
  let Actor := mkActor (Door "Town") (Some (Zone "Town")) in
  bIsTearingDown s = true ∧ CurrentState s = RunningIdle ∧
  ActorName (ActorInfo Actor) ∈ OnDestroyedBound s ∧
  exec (OnActorDestroyed Actor) s =
    Some (set_ActiveState true s, [NewSpudState; StateCall (StoreLevelActorDestroyed Actor)]) ∧
  ∃ s', exec (HandleLevelUnloaded (Zone "Town")) s = Some (s', []).
Proof.
  cbv zeta. split; [vm_compute; reflexivity|]. split; [vm_compute; reflexivity|].
  split; [in_set|]. split; [vm_compute; reflexivity|].
  eexists. vm_compute. reflexivity.
Qed.


(** ** Travelling to another map (C6) *)

Lemma StateCalls_app t1 t2 : StateCalls (t1 ++ t2) = StateCalls t1 ++ StateCalls t2.
Proof. apply omap_app. Qed.

Lemma SameButActiveState_refl s : SameButActiveState s s.
Proof. by destruct s. Qed.

Lemma SameButActiveState_trans s1 s2 s3 :
  SameButActiveState s1 s2 → SameButActiveState s2 s3 → SameButActiveState s1 s3.
Proof. unfold SameButActiveState. intros <- <-. reflexivity. Qed.

Lemma release_level_run L s :
  (GetActiveState;; StateDo (ReleaseLevelData (LevelName L) true)) s =
    Some (tt, set_ActiveState true s,
          (if ActiveState s then [] else [NewSpudState]) ++
          [StateCall (ReleaseLevelData (LevelName L) true)]).
Proof. erewrite bind_run by apply GetActiveState_run. reflexivity. Qed.

Lemma StoreLevel_run L r b s :
  StoreLevel L r b s =
    Some (tt, set_ActiveState true s,
          Broadcast (PreLevelStore (LevelName L)) ::
          (if ActiveState s then [] else [NewSpudState]) ++
          [StateCall (StateStoreLevel L r b); Broadcast (PostLevelStore (LevelName L) true)]).
Proof.
  unfold StoreLevel. unfold mbind, M_bind at 1. cbn.
  unfold mbind, M_bind at 1. rewrite GetActiveState_run. unfold_M. cbn.
  by destruct (ActiveState s).
Qed.

Lemma store_levels_run (levels : list ULevel) r b s :
  ∃ s' t, for_each levels (λ L, StoreLevel L r b) s = Some (tt, s', t) ∧
    SameButActiveState s s' ∧
    StateCalls t = (λ L, StateStoreLevel L r b) <$> levels.
Proof.
  revert s. induction levels as [|L levels IH]; intros s.
  - exists s, []. split; [done|]. split; [apply SameButActiveState_refl|done].
  - cbn [for_each]. erewrite bind_run by apply StoreLevel_run.
    destruct (IH (set_ActiveState true s)) as (s' & t & -> & Hs & Ht).
    eexists _, _. split; [reflexivity|]. split.
    + eapply SameButActiveState_trans; [|exact Hs]. reflexivity.
    + rewrite StateCalls_app, Ht. by destruct (ActiveState s).
Qed.

Lemma release_levels_run (levels : list ULevel) s :
  ∃ s' t,
    for_each levels (λ L, GetActiveState;; StateDo (ReleaseLevelData (LevelName L) true)) s =
      Some (tt, s', t) ∧
    SameButActiveState s s' ∧
    StateCalls t = (λ L, ReleaseLevelData (LevelName L) true) <$> levels.
Proof.
  revert s. induction levels as [|L levels IH]; intros s.
  - exists s, []. split; [done|]. split; [apply SameButActiveState_refl|done].
  - cbn [for_each]. erewrite bind_run by apply release_level_run.
    destruct (IH (set_ActiveState true s)) as (s' & t & -> & Hs & Ht).
    eexists _, _. split; [reflexivity|]. split.
    + eapply SameButActiveState_trans; [|exact Hs]. reflexivity.
    + rewrite !StateCalls_app, Ht. by destruct (ActiveState s).
Qed.

Lemma UnsubscribeAllLevelObjectEvents_run h s :
  ∃ bound, UnsubscribeAllLevelObjectEvents h s = Some (tt, set_OnDestroyedBound bound s, []).
Proof.
  unfold UnsubscribeAllLevelObjectEvents. destruct (GetWorld h) as [W|].
  - generalize (GetLevels W). intros levels. revert s.
    induction levels as [|L levels IH]; intros s.
    + exists (OnDestroyedBound s). by destruct s.
    + cbn [for_each]. erewrite bind_run by apply UnsubscribeLevelObjectEvents_run.
      destruct (IH (set_OnDestroyedBound (OnDestroyedBound s ∖ list_to_set (TrackedActors L)) s))
        as [bound ->].
      by exists bound.
  - exists (OnDestroyedBound s). by destruct s.
Qed.

(** C6 (as amended).  When a new map is about to load, the server is
    [RunningIdle] and the world is valid, then with
    [bSaveLevelStateWhileTraveling] every level of the world is stored,
    released and blocking, in the order of the world, and without it the
    data of every level is released, blocking; the state is asked nothing
    else.  In any other orchestrator state, off the server or without a
    world, the state is asked nothing at all.  The orchestrator state does
    not change. *)
Theorem C6_map_transition_stores_or_releases
    (h : FHost) (MapName : string) (s : USpudSubsystem) :
  ∃ s' t, exec (OnPreLoadMap h MapName) s = Some (s', t) ∧
    CurrentState s' = CurrentState s ∧
    StateCalls t =
      if ServerCheck h && bool_decide (CurrentState s = RunningIdle) then
        match GetWorld h with
        | Some World =>
            if bSaveLevelStateWhileTraveling s
            then (λ L, StateStoreLevel L true true) <$> GetLevels World
            else (λ L, ReleaseLevelData (LevelName L) true) <$> GetLevels World
        | None => []
        end
      else [].
Proof.
  unfold exec, OnPreLoadMap. destruct (ServerCheck h); cbn [negb andb]; [|by exists s, []].
  erewrite bind_run by reflexivity. erewrite bind_run by reflexivity.
  destruct (bool_decide (CurrentState s = RunningIdle)); cbn [when]; [|by eexists _, _].
  destruct (UnsubscribeAllLevelObjectEvents_run h s) as [bound Hunsub].
  erewrite bind_run by apply Hunsub.
  destruct (GetWorld h) as [W|]; [|by eexists _, _].
  erewrite bind_run by reflexivity. cbn [bSaveLevelStateWhileTraveling set_OnDestroyedBound].
  destruct (bSaveLevelStateWhileTraveling s).
  - erewrite bind_run by reflexivity. unfold StoreWorld.
    destruct (store_levels_run (GetLevels W) true true (set_OnDestroyedBound bound s))
      as (s' & t & -> & Hs & Ht).
    eexists _, _. split; [reflexivity|]. split; [by rewrite <- Hs|]. exact Ht.
  - erewrite bind_run by reflexivity.
    destruct (release_levels_run (GetLevels W) (set_OnDestroyedBound bound s))
      as (s' & t & -> & Hs & Ht).
    eexists _, _. split; [reflexivity|]. split; [by rewrite <- Hs|]. exact Ht.
Qed.

(** C6 as stated fails while a game is loading: the travel that the load
    itself started finds the orchestrator in [LoadingGame], and although the
    subsystem is set to keep level state while travelling, no level of the
    world is stored. *)
Lemma C6_counterexample :
  let s := After [CallNewGame false false; CallLoadGame "S1" true ""] in
  CurrentState s = LoadingGame ∧ bSaveLevelStateWhileTraveling s = true ∧
  GetWorld ServerHost = Some TownWorld ∧ Zone "Town" ∈ GetLevels TownWorld ∧
  exec (OnPreLoadMap ServerHost "Town") s =
    Some (s, [Broadcast (PreTravelToNewMap "Town")]).
Proof.
  cbv zeta. split; [vm_compute; reflexivity|]. split; [vm_compute; reflexivity|].
  split; [reflexivity|]. split; [in_trace|]. vm_compute; reflexivity.
Qed.

(** ** Loading (C5, C9) *)

(** C5.  A game is running and has been saved to S1, so the state is live.
    A save request with an empty slot name is turned away before anything
    happens.  A load request with an empty slot name is not: it announces
    the load, resets the state, asks the file manager for the file of the
    empty slot name, and only fails because that file does not open. *)
Theorem C5_load_of_blank_slot_resets_state :
  let s := After [CallNewGame false false; CallSaveGame "S1" "First" false None] in
  CurrentState s = RunningIdle ∧ ActiveState s = true ∧
  exec (SaveGame ServerHost "" "Second" false None) s =
    Some (s, [UE_LOG Error "Cannot save a game with a blank slot name";
              Broadcast (PostSaveGame "" false)]) ∧
  exec (LoadGame ServerHost "" false "") s =
    Some (s, [Broadcast (PreLoadGame "");
              UE_LOG Verbose "Loading Game from slot ";
              StateCall ResetState;
              CreateFileReader "Saved/SaveGames/.sav";
              UE_LOG Error "Error while opening save game for slot ";
              Broadcast (PostLoadGame "" false)]).
Proof.
  cbv zeta. repeat split; vm_compute; reflexivity.
Qed.

Lemma LoadActorData_run h Actor b s :
  exec (LoadActorData h Actor b) s =
    if ServerCheck h
    then Some (set_bIsRestoringState false (set_ActiveState true s),
               UE_LOG Verbose ("LoadActorData restore: " +:+ ActorName (ActorInfo Actor)) ::
               (if ActiveState s then [] else [NewSpudState]) ++
               [StateCall (RestoreActor Actor)])
    else Some (s, []).
Proof.
  unfold exec, LoadActorData. destruct (ServerCheck h); [|reflexivity]. cbn [negb].
  erewrite bind_run by reflexivity.
  destruct b; cbn [when].
  - do 3 (erewrite bind_run by reflexivity). erewrite bind_run by apply GetActiveState_run.
    destruct s as [? ? ? []]; reflexivity.
  - do 3 (erewrite bind_run by reflexivity). erewrite bind_run by apply GetActiveState_run.
    destruct s as [? ? ? []]; reflexivity.
Qed.

(** C9 (as amended).  A call of [LoadActorData] on the server, whatever
    [bAsGameLoad], restores the given actor and nothing else, leaves the
    orchestrator state as it found it and leaves the restoring flag off.
    Off the server the call does nothing: it restores nothing and leaves
    both the orchestrator state and the restoring flag as they were. *)
Theorem C9_LoadActorData_keeps_orchestrator_state
    (h : FHost) (Actor : AActor) (bAsGameLoad : bool) (s : USpudSubsystem) :
  ∃ s' t, exec (LoadActorData h Actor bAsGameLoad) s = Some (s', t) ∧
    CurrentState s' = CurrentState s ∧
    bIsRestoringState s' = (if ServerCheck h then false else bIsRestoringState s) ∧
    StateCalls t = (if ServerCheck h then [RestoreActor Actor] else []).
Proof.
  rewrite LoadActorData_run. destruct (ServerCheck h).
  - eexists _, _. split; [reflexivity|]. split; [reflexivity|]. split; [reflexivity|].
    by destruct (ActiveState s).
  - by exists s, [].
Qed.

(** C9 as stated fails for a call made off the server while a load is in
    flight: the load has raised the restoring flag, the call returns at the
    server check, and the flag is still raised afterwards. *)
Lemma C9_counterexample :
  let s := After [CallNewGame false false; CallLoadGame "S1" false ""] in
  let Actor := mkActor (Door "Town") (Some (Zone "Town")) in
  bIsRestoringState s = true ∧
  exec (LoadActorData DisabledHost Actor true) s = Some (s, []).
Proof.
  cbv zeta. split; vm_compute; reflexivity.
Qed.

(** ** Upgrading all saves (C8) *)

(** The write-back of an upgraded save is the last thing the task does for
    a file: the writer is created, the state is written, and the archive is
    neither closed nor asked for errors. *)
Lemma UpgradeSaveFile_write_is_last h Task SaveFile Path :
  StateCall (SaveToArchive Path) ∈ UpgradeSaveFile h Task SaveFile →
  ∃ pre, UpgradeSaveFile h Task SaveFile =
           pre ++ [CreateFileWriter Path; StateCall (SaveToArchive Path)].
Proof.
  unfold UpgradeSaveFile.
  set (File := GetSaveGameDirectory h +:+ SaveFile).
  destruct (FileReaderOpens h File), (FileReaderError h File),
    (bUpgradeAlways Task || SaveNeedsUpgrading (LoadedSave Task File)),
    (UpgradeCallbackExecute Task File), (FileWriterOpens h File);
    rewrite ?elem_of_cons, ?elem_of_nil; intros H;
    repeat (destruct H as [H|H]; try discriminate); try done.
  injection H as ->.
  by eexists [_; _; _; _; _; _; _].
Qed.

(** The batch goes through the files one after the other; none stops it. *)
Lemma DoWork_cons h Task SaveFile Files :
  UpgradeCallbackIsBound Task = true →
  FindSaveFiles h = SaveFile :: Files →
  ∃ rest, DoWork h Task = UpgradeSaveFile h Task SaveFile ++ rest ∧
          rest = concat (UpgradeSaveFile h Task <$> Files).
Proof.
  intros Hb Hf. unfold DoWork. rewrite Hb, Hf. cbn. by eexists.
Qed.

(** C8.  The task upgrades the one save on disk.  Reading it, the task
    closes the archive and asks it for errors; writing the upgraded save
    back, it does neither, where [FinishSaveGame] writing the same file
    closes the archive and asks it for errors.  A save file whose reader
    does not open is passed over without a word in the log. *)
Theorem C8_upgrade_writes_back_unchecked :
  DoWork ServerHost UpgradeEverything =
    [CreateFileReader "Saved/SaveGames/S1.sav";
     NewSpudState;
     StateCall (LoadFromArchive "Saved/SaveGames/S1.sav" true);
     ArchiveClose "Saved/SaveGames/S1.sav";
     ArchiveIsError "Saved/SaveGames/S1.sav";
     UpgradeCallback "Saved/SaveGames/S1.sav";
     FileMove "Saved/SaveGames/S1.sav.bak" "Saved/SaveGames/S1.sav";
     CreateFileWriter "Saved/SaveGames/S1.sav";
     StateCall (SaveToArchive "Saved/SaveGames/S1.sav")] ∧
  (∃ s' pre,
     exec (FinishSaveGame ServerHost "S1" "First" None None)
       (After [CallNewGame false false]) =
       Some (s', pre ++ [CreateFileWriter "Saved/SaveGames/S1.sav";
                         StateCall (SaveToArchive "Saved/SaveGames/S1.sav");
                         ArchiveClose "Saved/SaveGames/S1.sav";
                         ArchiveIsError "Saved/SaveGames/S1.sav";
                         UE_LOG Log "Save to slot S1: Success";
                         Broadcast (PostSaveGame "S1" true)])) ∧
  UpgradeSaveFile ServerHost UpgradeEverything "Gone.sav" =
    [CreateFileReader "Saved/SaveGames/Gone.sav"].
Proof.
  split; [vm_compute; reflexivity|]. split; [|vm_compute; reflexivity].
  eexists _, [_; _; _; _; _; _; _; _; _; _; _].
  vm_compute. reflexivity.
Qed.

(** ** Effects and members a member function leaves alone *)

Section keeps.
Context (R : relation USpudSubsystem) (Q : FEffect → Prop).
Context `{!Reflexive R, !Transitive R}.

Lemma keeps_at_bind {A B} (m : M A) (k : A → M B) s :
  keeps_at R Q m s →
  (∀ a s', R s s' → keeps_at R Q (k a) s') →
  keeps_at R Q (m ≫= k) s.
Proof.
  intros (a & s1 & t1 & Hm & HR1 & HQ1) Hk.
  destruct (Hk a s1 HR1) as (b & s2 & t2 & Hk2 & HR2 & HQ2).
  exists b, s2, (t1 ++ t2). unfold mbind, M_bind. rewrite Hm, Hk2.
  split; [done|]. split; [by etrans|]. by apply Forall_app.
Qed.

Lemma keeps_at_get {A B} (f : USpudSubsystem → A) (k : A → M B) s :
  keeps_at R Q (k (f s)) s → keeps_at R Q (get f ≫= k) s.
Proof.
  intros (b & s2 & t2 & Hk & HR2 & HQ2). exists b, s2, t2.
  unfold mbind, M_bind, get. rewrite Hk. done.
Qed.

Lemma keeps_ret {A} (a : A) : keeps R Q (mret a).
Proof. intros s. exists a, s, []. done. Qed.

Lemma keeps_get {A} (f : USpudSubsystem → A) : keeps R Q (get f).
Proof. intros s. exists (f s), s, []. done. Qed.

Lemma keeps_emit e : Q e → keeps R Q (emit e).
Proof.
  intros He s. exists tt, s, [e]. split; [done|]. split; [done|].
  by apply Forall_singleton.
Qed.

Lemma keeps_modify f : (∀ s, R s (f s)) → keeps R Q (modify f).
Proof. intros Hf s. exists tt, (f s), []. done. Qed.

Lemma keeps_bind {A B} (m : M A) (k : A → M B) :
  keeps R Q m → (∀ a, keeps R Q (k a)) → keeps R Q (m ≫= k).
Proof. intros Hm Hk s. apply keeps_at_bind; [apply Hm|]. intros a s' _. apply Hk. Qed.

Lemma keeps_when b m : keeps R Q m → keeps R Q (when b m).
Proof. intros Hm. destruct b; [done|]. apply keeps_ret. Qed.

Lemma keeps_for_each {A} (l : list A) (body : A → M unit) :
  (∀ x, x ∈ l → keeps R Q (body x)) → keeps R Q (for_each l body).
Proof.
  induction l as [|x l IH]; intros Hbody; cbn [for_each].
  - apply keeps_ret.
  - apply keeps_bind; [apply Hbody; left|]. intros _. apply IH.
    intros y Hy. apply Hbody. by right.
Qed.
End keeps.

Ltac keeps_side :=
  first [reflexivity | by intros; repeat split | intros; discriminate
        | split; [reflexivity|exact I] ].

Ltac keeps_step :=
  lazymatch goal with
  | |- keeps _ _ (mret _) => apply keeps_ret; apply _
  | |- keeps _ _ (get _) => apply keeps_get; apply _
  | |- keeps _ _ (emit _) => apply keeps_emit; try apply _
  | |- keeps _ _ (StateDo _) => apply keeps_emit; try apply _
  | |- keeps _ _ (modify _) => apply keeps_modify; try apply _
  | |- keeps _ _ (mbind _ _) => (apply keeps_bind; try apply _); [|intros ?]
  | |- keeps _ _ (when _ _) => apply keeps_when; try apply _
  | |- keeps _ _ (for_each _ _) => (apply keeps_for_each; try apply _); intros ? _
  | |- keeps _ _ (if ?b then _ else _) => destruct b
  | |- keeps _ _ (match ?x with _ => _ end) => destruct x
  end.

Ltac keeps_auto := repeat keeps_step; try keeps_side.

(** ** Handles of global objects *)

Lemma WeakGet_Some h Ptr o :
  WeakGet h Ptr = Some o ↔ Ptr = Some o ∧ ObjectIsValid h o = true.
Proof.
  unfold WeakGet, WeakIsValid. destruct Ptr as [o'|].
  - destruct (ObjectIsValid h o') eqn:Hv.
    + split; [by intros [= <-]|by intros [? _]].
    + split; [done|]. intros [[= <-] ?]. congruence.
  - split; [done|]. by intros [? _].
Qed.

Lemma RemovePersistentGlobalObject_run h Obj s :
  exec (RemovePersistentGlobalObject h Obj) s =
    Some (set_NamedGlobalObjects
            (filter (λ Pair : string * TWeakObjectPtr, WeakGet h Pair.2 ≠ Obj)
               (NamedGlobalObjects s))
            (set_GlobalObjects
               (filter (λ Ptr, WeakEq h Ptr Obj = false) (GlobalObjects s)) s),
          []).
Proof. reflexivity. Qed.

Lemma FStringEq_refl (A : string) : FStringEq A A = true.
Proof. unfold FStringEq. by apply bool_decide_eq_true. Qed.

(** After [TMap::Add] the key has the value added, and no other. *)
Lemma elem_of_TMapAdd_key {V} (Key : string) (Value v : V) (Pairs : list (string * V)) :
  (Key, v) ∈ TMapAdd Key Value Pairs ↔ v = Value.
Proof.
  induction Pairs as [|[k x] Pairs IH]; cbn [TMapAdd fst].
  - rewrite list_elem_of_singleton. naive_solver.
  - destruct (FStringEq k Key) eqn:Hk.
    + rewrite elem_of_cons, list_elem_of_filter. cbn. rewrite FStringEq_refl. naive_solver.
    + rewrite elem_of_cons, IH. split; [|tauto].
      intros [[= -> ->]|?]; [|done]. by rewrite FStringEq_refl in Hk.
Qed.

Lemma WeakEq_refl h Ptr : WeakEq h Ptr Ptr = true.
Proof. unfold WeakEq. by rewrite bool_decide_true. Qed.

Lemma WeakEq_None h Ptr : WeakEq h Ptr None = negb (WeakIsValid h Ptr).
Proof.
  unfold WeakEq. destruct Ptr as [o|]; cbn; [|done].
  by rewrite andb_true_r.
Qed.

Lemma existsb_WeakEq h Obj (l : list TWeakObjectPtr) :
  existsb (λ Ptr, WeakEq h Ptr Obj) l = true ↔ ∃ Ptr, Ptr ∈ l ∧ WeakEq h Ptr Obj = true.
Proof. rewrite existsb_exists. by setoid_rewrite <- list_elem_of_In. Qed.

Lemma existsb_WeakEq_false h Obj (l : list TWeakObjectPtr) :
  existsb (λ Ptr, WeakEq h Ptr Obj) l = false ↔ ∀ Ptr, Ptr ∈ l → WeakEq h Ptr Obj = false.
Proof.
  rewrite <- not_true_iff_false, existsb_WeakEq. split.
  - intros Hn Ptr HPtr. apply not_true_iff_false. intros Heq. apply Hn. eauto.
  - intros Hall (Ptr & HPtr & Heq). rewrite Hall in Heq; done.
Qed.

Lemma filter_all {A} (P : A → Prop) `{∀ x, Decision (P x)} (l : list A) :
  (∀ x, x ∈ l → P x) → filter P l = l.
Proof.
  induction l as [|x l IH]; [done|]. intros Hall.
  rewrite filter_cons_True by (apply Hall; left). f_equal. apply IH.
  intros y Hy. apply Hall. by right.
Qed.

(** ** Subscribing and unsubscribing *)

Lemma subscribe_actors (actors : list FLevelActor) s :
  for_each actors (λ Actor,
    if negb (IsPersistentObject Actor) then mret tt
    else when (negb (IsRuntimeActor Actor))
           (bound ← get OnDestroyedBound;
            modify (set_OnDestroyedBound ({[ActorName Actor]} ∪ bound)))) s =
  Some (tt,
        set_OnDestroyedBound
          (OnDestroyedBound s ∪
             list_to_set (ActorName <$>
               filter (λ A, IsPersistentObject A = true ∧ IsRuntimeActor A = false) actors)) s,
        []).
Proof.
  revert s. induction actors as [|A actors IH]; intros s.
  - cbn. rewrite union_empty_r_L. by destruct s.
  - cbn [for_each]. unfold_M. rewrite filter_cons.
    destruct (IsPersistentObject A) eqn:Hp, (IsRuntimeActor A) eqn:Hr; cbn -[filter];
      rewrite IH; cbn -[filter];
      try (rewrite decide_False by (intros [Ha Hb]; discriminate); reflexivity).
    rewrite decide_True by done. cbn -[filter].
    do 3 f_equal. unfold set_OnDestroyedBound at 1; cbn -[filter].
    unfold set_OnDestroyedBound. f_equal. set_solver.
Qed.

Lemma SubscribeLevelObjectEvents_run L s :
  SubscribeLevelObjectEvents (Some L) s =
    Some (tt, set_OnDestroyedBound (OnDestroyedBound s ∪ list_to_set (TrackedActors L)) s, []).
Proof. apply subscribe_actors. Qed.

Lemma subscribe_levels_run (levels : list ULevel) s :
  for_each levels (λ Level, SubscribeLevelObjectEvents (Some Level)) s =
    Some (tt,
          set_OnDestroyedBound (OnDestroyedBound s ∪ list_to_set (levels ≫= TrackedActors)) s,
          []).
Proof.
  revert s. induction levels as [|L levels IH]; intros s.
  - cbn. rewrite union_empty_r_L. by destruct s.
  - cbn [for_each]. erewrite bind_run by apply SubscribeLevelObjectEvents_run.
    rewrite IH. cbn. do 2 f_equal. unfold set_OnDestroyedBound; cbn. f_equal. f_equal.
    rewrite list_to_set_app_L. set_solver.
Qed.

Lemma unsubscribe_levels_run (levels : list ULevel) s :
  for_each levels (λ Level, UnsubscribeLevelObjectEvents (Some Level)) s =
    Some (tt,
          set_OnDestroyedBound (OnDestroyedBound s ∖ list_to_set (levels ≫= TrackedActors)) s,
          []).
Proof.
  revert s. induction levels as [|L levels IH]; intros s.
  - cbn. rewrite difference_empty_L. by destruct s.
  - cbn [for_each]. erewrite bind_run by apply UnsubscribeLevelObjectEvents_run.
    rewrite IH. cbn. do 2 f_equal. unfold set_OnDestroyedBound; cbn. f_equal. f_equal.
    rewrite list_to_set_app_L. set_solver.
Qed.

Lemma SubscribeAllLevelObjectEvents_exact h s :
  SubscribeAllLevelObjectEvents h s =
    Some (tt,
          set_OnDestroyedBound (OnDestroyedBound s ∪ list_to_set (WorldTrackedActors h)) s,
          []).
Proof.
  unfold SubscribeAllLevelObjectEvents, WorldTrackedActors. destruct (GetWorld h) as [W|].
  - apply subscribe_levels_run.
  - cbn. rewrite union_empty_r_L. by destruct s.
Qed.

Lemma UnsubscribeAllLevelObjectEvents_exact h s :
  UnsubscribeAllLevelObjectEvents h s =
    Some (tt,
          set_OnDestroyedBound (OnDestroyedBound s ∖ list_to_set (WorldTrackedActors h)) s,
          []).
Proof.
  unfold UnsubscribeAllLevelObjectEvents, WorldTrackedActors. destruct (GetWorld h) as [W|].
  - apply unsubscribe_levels_run.
  - cbn. rewrite difference_empty_L. by destruct s.
Qed.

(** X1.  Subscribing to the actors of a level binds the handler to its
    tracked actors and to nothing else, leaves every earlier binding in
    place, and is idempotent: subscribing again changes nothing.  It writes
    nothing to the trace. *)
Theorem X1_subscribe_is_idempotent (L : ULevel) (s : USpudSubsystem) :
  ∃ s1, exec (SubscribeLevelObjectEvents (Some L)) s = Some (s1, []) ∧
    (∀ A, A ∈ OnDestroyedBound s1 ↔ A ∈ OnDestroyedBound s ∨ A ∈ TrackedActors L) ∧
    exec (SubscribeLevelObjectEvents (Some L)) s1 = Some (s1, []).
Proof.
  unfold exec. rewrite SubscribeLevelObjectEvents_run. eexists. split; [reflexivity|].
  split.
  - intros A. cbn. set_solver.
  - rewrite SubscribeLevelObjectEvents_run. do 2 f_equal.
    unfold set_OnDestroyedBound; cbn. f_equal. set_solver.
Qed.

(** X2.  Unsubscribing from a level after subscribing to it leaves bound
    exactly the actors that were bound before and are not tracked actors of
    the level; unsubscribing once more changes nothing. *)
Theorem X2_unsubscribe_undoes_subscribe (L : ULevel) (s : USpudSubsystem) :
  ∃ s2,
    exec (SubscribeLevelObjectEvents (Some L);; UnsubscribeLevelObjectEvents (Some L)) s =
      Some (s2, []) ∧
    (∀ A, A ∈ OnDestroyedBound s2 ↔ A ∈ OnDestroyedBound s ∧ A ∉ TrackedActors L) ∧
    exec (UnsubscribeLevelObjectEvents (Some L)) s2 = Some (s2, []).
Proof.
  unfold exec. erewrite bind_run by apply SubscribeLevelObjectEvents_run.
  rewrite UnsubscribeLevelObjectEvents_run. eexists. split; [reflexivity|]. split.
  - intros A. cbn. set_solver.
  - rewrite UnsubscribeLevelObjectEvents_run. do 2 f_equal.
    unfold set_OnDestroyedBound; cbn. f_equal. set_solver.
Qed.

(** ** Starting and ending a game *)

Ltac run_step :=
  first
    [ erewrite bind_run by apply GetActiveState_run
    | erewrite bind_run by apply SubscribeAllLevelObjectEvents_exact
    | erewrite bind_run by apply UnsubscribeAllLevelObjectEvents_exact
    | erewrite bind_run by apply SubscribeLevelObjectEvents_run
    | erewrite bind_run by apply UnsubscribeLevelObjectEvents_run
    | erewrite bind_run by reflexivity ].

Lemma EndGame_run h s :
  EndGame h s =
    Some (tt,
          set_bIsRestoringState false (set_CurrentState Disabled
            (set_OnDestroyedBound (OnDestroyedBound s ∖ list_to_set (WorldTrackedActors h))
               (set_ActiveState false s))),
          if ActiveState s then [StateCall ResetState] else []).
Proof.
  unfold EndGame. run_step. 
  destruct (ActiveState s) eqn:Ha; cbn [when]; repeat run_step; cbn; reflexivity.
Qed.

(** X3.  Ending the game leaves the orchestrator [Disabled] with no state
    object and the restoring flag off; the state is reset first exactly when
    there was one; every tracked actor of the levels of the world is
    unsubscribed and no other binding is touched.  The registry of global
    objects, the request in progress and the capture delegate are left as
    they were. *)
Theorem X3_EndGame_disables_and_unsubscribes (h : FHost) (s : USpudSubsystem) :
  ∃ s', exec (EndGame h) s =
          Some (s', if ActiveState s then [StateCall ResetState] else []) ∧
    CurrentState s' = Disabled ∧ ActiveState s' = false ∧ bIsRestoringState s' = false ∧
    (∀ A, A ∈ OnDestroyedBound s' ↔ A ∈ OnDestroyedBound s ∧ A ∉ WorldTrackedActors h) ∧
    SameRegistry s s' ∧
    SlotNameInProgress s' = SlotNameInProgress s ∧
    TitleInProgress s' = TitleInProgress s ∧
    ExtraInfoInProgress s' = ExtraInfoInProgress s ∧
    OnScreenshotHandle s' = OnScreenshotHandle s ∧
    GameThreadTasks s' = GameThreadTasks s.
Proof.
  unfold exec. rewrite EndGame_run. eexists. split; [reflexivity|].
  cbn. repeat split; try done. all: set_solver.
Qed.

Lemma NewGame_run h bCheckServerOnly bAfterLevelLoad s :
  NewGame h bCheckServerOnly bAfterLevelLoad s =
    if bCheckServerOnly && negb (ServerCheck h) then Some (tt, s, [])
    else
      Some (tt,
            set_OnDestroyedBound
              (if bAfterLevelLoad
               then OnDestroyedBound s ∖ list_to_set (WorldTrackedActors h)
               else OnDestroyedBound s ∖ list_to_set (WorldTrackedActors h) ∪
                    list_to_set (WorldTrackedActors h))
              (set_CurrentState (if bAfterLevelLoad then NewGameOnNextLevel else RunningIdle)
                 (set_bIsRestoringState false (set_ActiveState false s))),
            if ActiveState s then [StateCall ResetState] else []).
Proof.
  unfold NewGame. destruct (bCheckServerOnly && negb (ServerCheck h)); [reflexivity|].
  erewrite bind_run by apply EndGame_run.
  destruct bAfterLevelLoad.
  - cbn. by rewrite app_nil_r.
  - run_step. rewrite SubscribeAllLevelObjectEvents_exact. cbn. by rewrite app_nil_r.
Qed.

(** X4.  A new game that the server check does not refuse ends the game in
    progress and then leaves the orchestrator [RunningIdle], with every
    tracked actor of the levels of the world subscribed, or, when it is to
    start after the next map load, [NewGameOnNextLevel] with none of them
    subscribed.  A new game asked for with [bCheckServerOnly] off the server
    changes nothing. *)
Theorem X4_NewGame_starts_idle_or_deferred
    (h : FHost) (bCheckServerOnly bAfterLevelLoad : bool) (s : USpudSubsystem) :
  ∃ s' t, exec (NewGame h bCheckServerOnly bAfterLevelLoad) s = Some (s', t) ∧
    if bCheckServerOnly && negb (ServerCheck h) then s' = s ∧ t = []
    else
      CurrentState s' = (if bAfterLevelLoad then NewGameOnNextLevel else RunningIdle) ∧
      ActiveState s' = false ∧ bIsRestoringState s' = false ∧
      t = (if ActiveState s then [StateCall ResetState] else []) ∧
      (∀ A, A ∈ WorldTrackedActors h →
            (A ∈ OnDestroyedBound s' ↔ bAfterLevelLoad = false)) ∧
      (∀ A, A ∉ WorldTrackedActors h →
            (A ∈ OnDestroyedBound s' ↔ A ∈ OnDestroyedBound s)) ∧
      SameRegistry s s'.
Proof.
  unfold exec. rewrite NewGame_run.
  destruct (bCheckServerOnly && negb (ServerCheck h)); [by exists s, []|].
  eexists _, _. split; [reflexivity|]. cbn.
  split; [done|]. split; [done|]. split; [done|]. split; [done|].
  split; [|split; [|done]].
  - intros A HA. destruct bAfterLevelLoad; set_solver.
  - intros A HA. destruct bAfterLevelLoad; set_solver.
Qed.

(** ** Arriving in a map *)

Lemma Broadcasts_app t1 t2 : Broadcasts (t1 ++ t2) = Broadcasts t1 ++ Broadcasts t2.
Proof. apply omap_app. Qed.

Lemma CanRestoreWorld_run h W s :
  CanRestoreWorld h W s =
    Some (StateCanRestoreWorld h W, set_ActiveState true s,
          if ActiveState s then [] else [NewSpudState]).
Proof.
  unfold CanRestoreWorld. erewrite bind_run by apply GetActiveState_run.
  cbn. by rewrite app_nil_r.
Qed.

Lemma OnPostLoadMap_off_server h World s :
  ServerCheck h = false → OnPostLoadMap h World s = Some (tt, s, []).
Proof. intros Hs. unfold OnPostLoadMap. by rewrite Hs. Qed.

Lemma OnPostLoadMap_loading h W s :
  ServerCheck h = true → CurrentState s = LoadingGame →
  ∃ s' t, exec (OnPostLoadMap h (Some W)) s = Some (s', t) ∧
    CurrentState s' = RunningIdle ∧ bIsRestoringState s' = false ∧
    SlotNameInProgress s' = "" ∧ ActiveState s' = true ∧
    OnDestroyedBound s' = OnDestroyedBound s ∪ list_to_set (WorldTrackedActors h) ∧
    SameRegistry s s' ∧
    last t = Some (Broadcast PostTravelToNewMap) ∧
    StateCalls t = (if StateCanRestoreWorld h W then [RestoreLoadedWorld] else []) ∧
    Broadcasts t =
      (if StateCanRestoreWorld h W
       then [PreLevelRestore (GetCurrentLevelName W);
             PostLevelRestore (GetCurrentLevelName W) true]
       else []) ++
      [PostLoadGame "" (StateCanRestoreWorld h W); PostTravelToNewMap].
Proof.
  intros Hs Hst. unfold exec, OnPostLoadMap. rewrite Hs. cbn [negb].
  run_step. rewrite Hst. unfold LoadComplete.
  destruct (StateCanRestoreWorld h W) eqn:Hcan.
  - erewrite bind_run; cycle 1.
    { erewrite bind_run by apply CanRestoreWorld_run. rewrite Hcan.
      repeat run_step. reflexivity. }
    destruct (ActiveState s); cbn;
      eexists _, _; (split; [reflexivity|]); repeat split; reflexivity.
  - erewrite bind_run; cycle 1.
    { erewrite bind_run by apply CanRestoreWorld_run. rewrite Hcan.
      repeat run_step. reflexivity. }
    destruct (ActiveState s); cbn;
      eexists _, _; (split; [reflexivity|]); repeat split; reflexivity.
Qed.

(** X5.  A load that waits for its map completes when the map has loaded:
    on the server, from [LoadingGame] and with a world, [OnPostLoadMap]
    restores the loaded world exactly when the state can restore it,
    subscribes the tracked actors of all levels, and leaves the orchestrator
    [RunningIdle] with the restoring flag off and no slot in progress.  It
    reports the end of the load once, as a success exactly when the world
    was restored, and under the empty slot name: the name is read after the
    slot in progress was cleared. *)
Theorem X5_deferred_load_completes_on_map_load
    (h : FHost) (W : UWorld) (s : USpudSubsystem)
    (Hserver : ServerCheck h = true) (Hloading : CurrentState s = LoadingGame) :
  ∃ s' t, exec (OnPostLoadMap h (Some W)) s = Some (s', t) ∧
    CurrentState s' = RunningIdle ∧ bIsRestoringState s' = false ∧
    SlotNameInProgress s' = "" ∧
    (∀ A, A ∈ OnDestroyedBound s' ↔ A ∈ OnDestroyedBound s ∨ A ∈ WorldTrackedActors h) ∧
    StateCalls t = (if StateCanRestoreWorld h W then [RestoreLoadedWorld] else []) ∧
    Broadcasts t =
      (if StateCanRestoreWorld h W
       then [PreLevelRestore (GetCurrentLevelName W);
             PostLevelRestore (GetCurrentLevelName W) true]
       else []) ++
      [PostLoadGame "" (StateCanRestoreWorld h W); PostTravelToNewMap].
Proof.
  destruct (OnPostLoadMap_loading h W s Hserver Hloading)
    as (s' & t & Hrun & Hst & Hre & Hslot & _ & Hbound & _ & _ & Hcalls & Hb).
  exists s', t. repeat split; try done.
  - rewrite Hbound. set_solver.
  - rewrite Hbound. set_solver.
Qed.

Lemma X5_deferred_load_completes_on_map_load_witness :
  ∃ s' t,
    exec (OnPostLoadMap ServerHost (Some TownWorld))
      (After [CallNewGame false false; CallLoadGame "S1" true ""]) = Some (s', t) ∧
    CurrentState s' = RunningIdle ∧ bIsRestoringState s' = false ∧
    SlotNameInProgress s' = "" ∧
    (∀ A, A ∈ OnDestroyedBound s' ↔
          A ∈ OnDestroyedBound (After [CallNewGame false false; CallLoadGame "S1" true ""]) ∨
          A ∈ WorldTrackedActors ServerHost) ∧
    StateCalls t =
      (if StateCanRestoreWorld ServerHost TownWorld then [RestoreLoadedWorld] else []) ∧
    Broadcasts t =
      (if StateCanRestoreWorld ServerHost TownWorld
       then [PreLevelRestore (GetCurrentLevelName TownWorld);
             PostLevelRestore (GetCurrentLevelName TownWorld) true]
       else []) ++
      [PostLoadGame "" (StateCanRestoreWorld ServerHost TownWorld); PostTravelToNewMap].
Proof.
  apply (X5_deferred_load_completes_on_map_load ServerHost TownWorld
           (After [CallNewGame false false; CallLoadGame "S1" true ""])).
  - reflexivity.
  - vm_compute. reflexivity.
Defined.

Lemma OnPostLoadMap_new_game h W s :
  ServerCheck h = true → CurrentState s = NewGameOnNextLevel →
  exec (OnPostLoadMap h (Some W)) s =
    Some (set_CurrentState RunningIdle
            (set_OnDestroyedBound
               (OnDestroyedBound s ∪ list_to_set (WorldTrackedActors h)) s),
          [UE_LOG Verbose ("OnPostLoadMap NewGame starting: " +:+ GetCurrentLevelName W);
           Broadcast PostTravelToNewMap]).
Proof.
  intros Hs Hst. unfold exec, OnPostLoadMap. rewrite Hs. cbn [negb].
  run_step. rewrite Hst.
  erewrite bind_run; cycle 1.
  { repeat run_step. reflexivity. }
  reflexivity.
Qed.

Lemma OnPostLoadMap_idle h World s :
  ServerCheck h = true → CurrentState s = RunningIdle →
  exec (OnPostLoadMap h World) s =
    Some (set_OnDestroyedBound
            (OnDestroyedBound s ∪ list_to_set (WorldTrackedActors h)) s,
          [Broadcast PostTravelToNewMap]).
Proof.
  intros Hs Hst. unfold exec, OnPostLoadMap. rewrite Hs. cbn [negb].
  run_step. rewrite Hst. run_step. reflexivity.
Qed.

Lemma OnPostLoadMap_waits h World s :
  ServerCheck h = true →
  CurrentState s ≠ RunningIdle →
  (World = None ∨ CurrentState s = Disabled ∨ CurrentState s = SavingGame) →
  exec (OnPostLoadMap h World) s = Some (s, [Broadcast PostTravelToNewMap]).
Proof.
  intros Hs Hni Hw. unfold exec, OnPostLoadMap. rewrite Hs. cbn [negb].
  run_step.
  destruct (CurrentState s) eqn:Hst, World as [W|]; try done;
    try (destruct Hw as [?|[?|?]]; discriminate).
Qed.

(** X6.  The orchestrator state after [OnPostLoadMap]: on the server a
    pending new game and a pending load become [RunningIdle] when the
    handler is given a world, and stay pending when it is given none; every
    other state is kept, and off the server nothing happens at all.  On the
    server the handler never fails to broadcast the end of the travel, as
    its last effect. *)
Theorem X6_OnPostLoadMap_transitions
    (h : FHost) (World : option UWorld) (s : USpudSubsystem) :
  ∃ s' t, exec (OnPostLoadMap h World) s = Some (s', t) ∧
    CurrentState s' =
      (if ServerCheck h then
         match CurrentState s, World with
         | NewGameOnNextLevel, Some _ | LoadingGame, Some _ => RunningIdle
         | st, _ => st
         end
       else CurrentState s) ∧
    (if ServerCheck h then last t = Some (Broadcast PostTravelToNewMap)
     else t = [] ∧ s' = s).
Proof.
  destruct (ServerCheck h) eqn:Hs.
  2:{ exists s, []. unfold exec. by rewrite OnPostLoadMap_off_server. }
  destruct (CurrentState s) eqn:Hst.
  - exists s, [Broadcast PostTravelToNewMap].
    rewrite OnPostLoadMap_waits by (rewrite ?Hst; auto; done). rewrite Hst. by destruct World.
  - eexists _, _. rewrite OnPostLoadMap_idle by done. split; [reflexivity|].
    cbn. rewrite Hst. by destruct World.
  - exists s, [Broadcast PostTravelToNewMap].
    rewrite OnPostLoadMap_waits by (rewrite ?Hst; auto; done). rewrite Hst. by destruct World.
  - destruct World as [W|].
    + destruct (OnPostLoadMap_loading h W s Hs Hst)
        as (s' & t & Hrun & Hst' & _ & _ & _ & _ & _ & Hlast & _).
      by exists s', t.
    + exists s, [Broadcast PostTravelToNewMap].
      rewrite OnPostLoadMap_waits by (rewrite ?Hst; auto; done). by rewrite Hst.
  - destruct World as [W|].
    + eexists _, _. rewrite OnPostLoadMap_new_game by done. split; [reflexivity|]. done.
    + exists s, [Broadcast PostTravelToNewMap].
      rewrite OnPostLoadMap_waits by (rewrite ?Hst; auto; done). by rewrite Hst.
Qed.

(** ** Saving *)

Lemma for_each_emits {A} (l : list A) (f : A → option FEffect) (body : A → M unit) s :
  (∀ x s', body x s' = Some (tt, s', option_list (f x))) →
  for_each l body s = Some (tt, s, omap f l).
Proof.
  intros Hbody. induction l as [|x l IH]; [reflexivity|].
  cbn [for_each]. erewrite bind_run by apply Hbody. rewrite IH. cbn.
  by destruct (f x).
Qed.

Lemma StateCalls_omap_fmap {A} (g : A → option FStateCall) (l : list A) :
  omap (λ x, StateCall <$> g x) l = StateCall <$> omap g l.
Proof.
  induction l as [|x l IH]; [reflexivity|]. cbn. rewrite IH. by destruct (g x).
Qed.

Lemma StateCalls_fmap (l : list FStateCall) : StateCalls (StateCall <$> l) = l.
Proof.
  unfold StateCalls. induction l as [|c l IH]; [reflexivity|]. cbn. by rewrite IH.
Qed.

Lemma Broadcasts_fmap (l : list FStateCall) : Broadcasts (StateCall <$> l) = [].
Proof. induction l as [|c l IH]; [reflexivity|]. done. Qed.

Lemma StoreGlobalObjects_run h s :
  StoreGlobalObjects h s = Some (tt, s, StateCall <$> StoreGlobalObjectCalls h s).
Proof.
  unfold StoreGlobalObjects, StoreGlobalObjectCalls. run_step.
  erewrite bind_run; cycle 1.
  { apply (for_each_emits _ (λ Ptr, StateCall <$> ((λ o, StoreGlobalObject o None) <$> WeakGet h Ptr))).
    intros Ptr s'. by destruct (WeakGet h Ptr). }
  run_step.
  erewrite (for_each_emits _
    (λ Pair : string * TWeakObjectPtr,
       StateCall <$> ((λ o, StoreGlobalObject o (Some Pair.1)) <$> WeakGet h Pair.2))); cycle 1.
  { intros Pair s'. by destruct (WeakGet h Pair.2). }
  rewrite fmap_app, !StateCalls_omap_fmap. reflexivity.
Qed.

Lemma RestoreGlobalObjects_run h s :
  RestoreGlobalObjects h s = Some (tt, s, StateCall <$> RestoreGlobalObjectCalls h s).
Proof.
  unfold RestoreGlobalObjects, RestoreGlobalObjectCalls. run_step.
  erewrite bind_run; cycle 1.
  { apply (for_each_emits _ (λ Ptr, StateCall <$> ((λ o, RestoreGlobalObject o None) <$> WeakGet h Ptr))).
    intros Ptr s'. by destruct (WeakGet h Ptr). }
  run_step.
  erewrite (for_each_emits _
    (λ Pair : string * TWeakObjectPtr,
       StateCall <$> ((λ o, RestoreGlobalObject o (Some Pair.1)) <$> WeakGet h Pair.2))); cycle 1.
  { intros Pair s'. by destruct (WeakGet h Pair.2). }
  rewrite fmap_app, !StateCalls_omap_fmap. reflexivity.
Qed.

Lemma set_ActiveState_id s : ActiveState s = true → set_ActiveState true s = s.
Proof. intros <-. by destruct s. Qed.

Lemma store_levels_exact (levels : list ULevel) r b s :
  ActiveState s = true →
  for_each levels (λ L, StoreLevel L r b) s =
    Some (tt, s, levels ≫= λ L, StoreLevelTrace L r b).
Proof.
  intros Ha. induction levels as [|L levels IH]; [reflexivity|].
  cbn [for_each]. erewrite bind_run by apply StoreLevel_run.
  rewrite set_ActiveState_id by done. rewrite IH, Ha. reflexivity.
Qed.

Lemma FinishSaveGame_run h W SlotName Title ExtraInfo Shot s :
  GetWorld h = Some W →
  exec (FinishSaveGame h SlotName Title ExtraInfo Shot) s =
    Some (AfterSave s, FinishSaveGameTrace h W SlotName Title ExtraInfo Shot s).
Proof.
  intros HW. unfold exec, FinishSaveGame, FinishSaveGameTrace, SaveOK. rewrite HW.
  run_step. run_step.
  erewrite bind_run by apply StoreGlobalObjects_run.
  erewrite bind_run by (apply store_levels_exact; reflexivity).
  do 3 run_step.
  set (Path := GetSaveGameFilePath h SlotName).
  destruct Shot as [Png|], (FileWriterOpens h Path) eqn:Ho, (FileWriterError h Path) eqn:He;
    unfold SaveComplete; repeat run_step; cbn; rewrite ?Ho, ?He; cbn;
    rewrite ?app_nil_r; reflexivity.
Qed.

Lemma StateCalls_store_levels (levels : list ULevel) r b :
  StateCalls (levels ≫= λ L, StoreLevelTrace L r b) = (λ L, StateStoreLevel L r b) <$> levels.
Proof.
  unfold StateCalls. induction levels as [|L levels IH]; [reflexivity|]. cbn. by rewrite IH.
Qed.

Lemma Broadcasts_store_levels (levels : list ULevel) r b :
  Broadcasts (levels ≫= λ L, StoreLevelTrace L r b) =
    levels ≫= λ L, [PreLevelStore (LevelName L); PostLevelStore (LevelName L) true].
Proof.
  unfold Broadcasts. induction levels as [|L levels IH]; [reflexivity|]. cbn. by rewrite IH.
Qed.

Lemma StateCalls_FinishSaveGameTrace h W SlotName Title ExtraInfo Shot s :
  StateCalls (FinishSaveGameTrace h W SlotName Title ExtraInfo Shot s) =
    StoreWorldGlobals :: StoreGlobalObjectCalls h s ++
    ((λ L, StateStoreLevel L false true) <$> GetLevels W) ++
    [SetTitle Title; SetTimestampNow; SetCustomSaveInfo ExtraInfo] ++
    match Shot with Some Png => [SetScreenshot Png] | None => [] end ++
    (if FileWriterOpens h (GetSaveGameFilePath h SlotName)
     then [SaveToArchive (GetSaveGameFilePath h SlotName)] else []).
Proof.
  unfold FinishSaveGameTrace. rewrite StateCalls_app.
  change (StateCalls (StateCall StoreWorldGlobals :: ?t)) with (StoreWorldGlobals :: StateCalls t).
  rewrite !StateCalls_app, StateCalls_fmap, StateCalls_store_levels.
  destruct (ActiveState s), Shot, (FileWriterOpens h (GetSaveGameFilePath h SlotName)),
    (FileWriterError h (GetSaveGameFilePath h SlotName)); reflexivity.
Qed.

Lemma Broadcasts_FinishSaveGameTrace h W SlotName Title ExtraInfo Shot s :
  Broadcasts (FinishSaveGameTrace h W SlotName Title ExtraInfo Shot s) =
    (GetLevels W ≫= λ L, [PreLevelStore (LevelName L); PostLevelStore (LevelName L) true]) ++
    [PostSaveGame SlotName (SaveOK h SlotName)].
Proof.
  unfold FinishSaveGameTrace. rewrite Broadcasts_app.
  change (Broadcasts (StateCall StoreWorldGlobals :: ?t)) with (Broadcasts t).
  rewrite !Broadcasts_app, Broadcasts_fmap, Broadcasts_store_levels.
  destruct (ActiveState s), Shot, (FileWriterOpens h (GetSaveGameFilePath h SlotName)),
    (FileWriterError h (GetSaveGameFilePath h SlotName)); cbn; by rewrite ?app_nil_r.
Qed.

Lemma elem_of_StoreGlobalObjectCalls h s o Name :
  StoreGlobalObject o Name ∈ StoreGlobalObjectCalls h s ↔
    ObjectIsValid h o = true ∧
    match Name with
    | None => Some o ∈ GlobalObjects s
    | Some n => (n, Some o) ∈ NamedGlobalObjects s
    end.
Proof.
  unfold StoreGlobalObjectCalls. rewrite elem_of_app, !list_elem_of_omap. split.
  - intros [(Ptr & HPtr & Hc)|([n Ptr] & HPair & Hc)].
    + destruct (WeakGet h Ptr) as [o'|] eqn:Hget; [|done]. cbn in Hc.
      injection Hc as -> <-. apply WeakGet_Some in Hget as [-> Hv]. done.
    + cbn in Hc. destruct (WeakGet h Ptr) as [o'|] eqn:Hget; [|done]. cbn in Hc.
      injection Hc as -> <-. apply WeakGet_Some in Hget as [-> Hv]. done.
  - intros [Hv HName]. destruct Name as [n|].
    + right. exists (n, Some o). split; [done|].
      cbn. by rewrite (proj2 (WeakGet_Some h (Some o) o)).
    + left. exists (Some o). split; [done|].
      by rewrite (proj2 (WeakGet_Some h (Some o) o)).
Qed.

Lemma StoreGlobalObject_in_trace h W SlotName Title ExtraInfo Shot s o Name :
  StateCall (StoreGlobalObject o Name) ∈ FinishSaveGameTrace h W SlotName Title ExtraInfo Shot s ↔
    StoreGlobalObject o Name ∈ StoreGlobalObjectCalls h s.
Proof.
  rewrite <- elem_of_StateCalls, StateCalls_FinishSaveGameTrace.
  rewrite elem_of_cons, !elem_of_app, list_elem_of_fmap. split; [|tauto].
  intros [?|[?|[(L & ? & _)|[Hm|[Hs|Hw]]]]]; try done.
  - rewrite !elem_of_cons, elem_of_nil in Hm. naive_solver.
  - destruct Shot; [apply list_elem_of_singleton in Hs; done|by apply elem_of_nil in Hs].
  - destruct (FileWriterOpens _ _); [apply list_elem_of_singleton in Hw; done|by apply elem_of_nil in Hw].
Qed.

Lemma SaveGame_without_thumbnail_run h W SlotName Title ExtraInfo s :
  ServerCheck h = true → SlotName ≠ "" → CurrentState s = RunningIdle →
  GetWorld h = Some W →
  exec (SaveGame h SlotName Title false ExtraInfo) s =
    Some (AfterSave s,
          Broadcast (PreSaveGame SlotName) ::
          FinishSaveGameTrace h W SlotName Title ExtraInfo None s).
Proof.
  intros Hs Hn Hst HW. unfold exec, SaveGame. rewrite Hs. cbn [negb].
  rewrite bool_decide_false by done. run_step. rewrite Hst.
  rewrite bool_decide_false by (intros H; by apply H).
  do 2 run_step.
  pose proof (FinishSaveGame_run h W SlotName Title ExtraInfo None
                (set_CurrentState SavingGame s) HW) as Hrun.
  unfold exec in Hrun.
  destruct (FinishSaveGame h SlotName Title ExtraInfo None (set_CurrentState SavingGame s))
    as [[[[] s1] t1]|]; [|done].
  injection Hrun as -> ->. reflexivity.
Qed.

(** X7.  A save without a thumbnail that passes the guards is over when
    the call returns.  It asks the state, in this order, to store the world
    globals, the live global objects, every level of the world (not released,
    blocking), the title, the time and the custom info, and to write itself
    to the file of the slot when the writer opens.  It announces the save
    first and reports it last and once, as a success exactly when the writer
    opened and the archive was not in error after the close.  The
    orchestrator is [RunningIdle] again and the registry is untouched. *)
Theorem X7_save_without_thumbnail_completes
    (h : FHost) (W : UWorld) (SlotName Title : string) (ExtraInfo : UObjectPtr)
    (s : USpudSubsystem)
    (Hserver : ServerCheck h = true) (Hslot : SlotName ≠ "")
    (Hidle : CurrentState s = RunningIdle) (Hworld : GetWorld h = Some W) :
  ∃ s' t, exec (SaveGame h SlotName Title false ExtraInfo) s = Some (s', t) ∧
    CurrentState s' = RunningIdle ∧ SlotNameInProgress s' = "" ∧ SameRegistry s s' ∧
    StateCalls t =
      StoreWorldGlobals :: StoreGlobalObjectCalls h s ++
      ((λ L, StateStoreLevel L false true) <$> GetLevels W) ++
      [SetTitle Title; SetTimestampNow; SetCustomSaveInfo ExtraInfo] ++
      (if FileWriterOpens h (GetSaveGameFilePath h SlotName)
       then [SaveToArchive (GetSaveGameFilePath h SlotName)] else []) ∧
    Broadcasts t =
      PreSaveGame SlotName ::
      (GetLevels W ≫= λ L, [PreLevelStore (LevelName L); PostLevelStore (LevelName L) true]) ++
      [PostSaveGame SlotName (SaveOK h SlotName)].
Proof.
  eexists _, _. split; [by apply SaveGame_without_thumbnail_run|].
  split; [done|]. split; [done|]. split; [done|]. split.
  - change (StateCalls (Broadcast ?d :: ?t)) with (StateCalls t).
    by rewrite StateCalls_FinishSaveGameTrace.
  - change (Broadcasts (Broadcast ?d :: ?t)) with (d :: Broadcasts t).
    by rewrite Broadcasts_FinishSaveGameTrace.
Qed.

Lemma X7_save_without_thumbnail_completes_witness :
  ∃ s' t,
    exec (SaveGame ServerHost "S1" "First" false None) (After [CallNewGame false false]) =
      Some (s', t) ∧
    CurrentState s' = RunningIdle ∧ SlotNameInProgress s' = "" ∧
    SameRegistry (After [CallNewGame false false]) s' ∧
    StateCalls t =
      StoreWorldGlobals :: StoreGlobalObjectCalls ServerHost (After [CallNewGame false false]) ++
      ((λ L, StateStoreLevel L false true) <$> GetLevels TownWorld) ++
      [SetTitle "First"; SetTimestampNow; SetCustomSaveInfo None] ++
      (if FileWriterOpens ServerHost (GetSaveGameFilePath ServerHost "S1")
       then [SaveToArchive (GetSaveGameFilePath ServerHost "S1")] else []) ∧
    Broadcasts t =
      PreSaveGame "S1" ::
      (GetLevels TownWorld ≫=
         λ L, [PreLevelStore (LevelName L); PostLevelStore (LevelName L) true]) ++
      [PostSaveGame "S1" (SaveOK ServerHost "S1")].
Proof.
  apply (X7_save_without_thumbnail_completes ServerHost TownWorld "S1" "First" None
           (After [CallNewGame false false])).
  - reflexivity.
  - discriminate.
  - vm_compute. reflexivity.
  - reflexivity.
Defined.

(** X8.  A save stores the state of a global object exactly when the
    object is alive and registered: without a name when its handle is among
    the unnamed objects, under a name when the entry of that name holds it.
    Entries whose object is gone are passed over. *)
Theorem X8_save_stores_live_registered_objects
    (h : FHost) (W : UWorld) (SlotName Title : string) (ExtraInfo : UObjectPtr)
    (Shot : option (list Byte.byte)) (s : USpudSubsystem)
    (Hworld : GetWorld h = Some W) :
  ∃ s' t, exec (FinishSaveGame h SlotName Title ExtraInfo Shot) s = Some (s', t) ∧
    ∀ o Name,
      StateCall (StoreGlobalObject o Name) ∈ t ↔
        ObjectIsValid h o = true ∧
        match Name with
        | None => Some o ∈ GlobalObjects s
        | Some n => (n, Some o) ∈ NamedGlobalObjects s
        end.
Proof.
  eexists _, _. split; [by apply FinishSaveGame_run|].
  intros o Name. by rewrite StoreGlobalObject_in_trace, elem_of_StoreGlobalObjectCalls.
Qed.

Lemma X8_save_stores_live_registered_objects_witness :
  ∃ s' t,
    exec (FinishSaveGame ServerHost "S1" "First" None None) (After RegistryCalls) =
      Some (s', t) ∧
    ∀ o Name,
      StateCall (StoreGlobalObject o Name) ∈ t ↔
        ObjectIsValid ServerHost o = true ∧
        match Name with
        | None => Some o ∈ GlobalObjects (After RegistryCalls)
        | Some n => (n, Some o) ∈ NamedGlobalObjects (After RegistryCalls)
        end.
Proof.
  apply (X8_save_stores_live_registered_objects ServerHost TownWorld "S1" "First" None None
           (After RegistryCalls) eq_refl).
Defined.

(** X9.  Registering an object under a name takes the place of whatever
    was registered under that name: a save that follows stores under the
    name the state of the new object if it is alive, and of no other. *)
Theorem X9_named_registration_replaces
    (h : FHost) (W : UWorld) (SlotName Title : string) (ExtraInfo : UObjectPtr)
    (Shot : option (list Byte.byte)) (s : USpudSubsystem) (o : UObject) (Name : string)
    (Hworld : GetWorld h = Some W) :
  ∃ s' t,
    exec (AddPersistentGlobalObjectWithName (Some o) Name;;
          FinishSaveGame h SlotName Title ExtraInfo Shot) s = Some (s', t) ∧
    ∀ o', StateCall (StoreGlobalObject o' (Some Name)) ∈ t ↔
            o' = o ∧ ObjectIsValid h o = true.
Proof.
  unfold exec. erewrite bind_run by reflexivity.
  pose proof (FinishSaveGame_run h W SlotName Title ExtraInfo Shot
                (set_NamedGlobalObjects (TMapAdd Name (Some o) (NamedGlobalObjects s)) s)
                Hworld)
    as Hrun.
  unfold exec in Hrun. unfold AddPersistentGlobalObjectWithName.
  destruct (FinishSaveGame h SlotName Title ExtraInfo Shot _) as [[[[] s1] t1]|]; [|done].
  injection Hrun as -> ->. eexists _, _. split; [reflexivity|].
  intros o'. cbn [app]. rewrite StoreGlobalObject_in_trace, elem_of_StoreGlobalObjectCalls.
  cbn. rewrite elem_of_TMapAdd_key. naive_solver.
Qed.

Lemma X9_named_registration_replaces_witness :
  ∃ s' t,
    exec (AddPersistentGlobalObjectWithName (Some 9) "Inventory";;
          FinishSaveGame ServerHost "S1" "First" None None) (After RegistryCalls) =
      Some (s', t) ∧
    ∀ o', StateCall (StoreGlobalObject o' (Some "Inventory")) ∈ t ↔
            o' = 9 ∧ ObjectIsValid ServerHost 9 = true.
Proof.
  apply (X9_named_registration_replaces ServerHost TownWorld "S1" "First" None None
           (After RegistryCalls) 9 "Inventory" eq_refl).
Defined.

Lemma OnScreenshotCaptured_run h W Width Height Colours s :
  HasLocalPlayerViewport h = true → GetWorld h = Some W →
  exec (OnScreenshotCaptured h Width Height Colours) s =
    Some (AfterSave (set_OnScreenshotHandle false s),
          UnbindScreenshotCaptured ::
          FinishSaveGameTrace h W (SlotNameInProgress s) (TitleInProgress s)
            (ExtraInfoInProgress s) (Some (CompressThumbnail h Width Height Colours))
            (set_OnScreenshotHandle false s)).
Proof.
  intros Hv HW. unfold exec, OnScreenshotCaptured. rewrite Hv.
  do 5 run_step.
  pose proof (FinishSaveGame_run h W (SlotNameInProgress s) (TitleInProgress s)
                (ExtraInfoInProgress s) (Some (CompressThumbnail h Width Height Colours))
                (set_OnScreenshotHandle false s) HW) as Hrun.
  unfold exec in Hrun. cbn [SlotNameInProgress TitleInProgress ExtraInfoInProgress
                            set_OnScreenshotHandle].
  destruct (FinishSaveGame h _ _ _ _ _) as [[[[] s1] t1]|]; [|done].
  injection Hrun as -> ->. reflexivity.
Qed.

(** X10.  The capture callback does not look at the orchestrator state.
    When the game is ended while a save waits for its frame and the frame
    then arrives, the save is still written and reported for the slot in
    progress, from a state object created anew, and the orchestrator that
    [EndGame] had left [Disabled] is [RunningIdle]. *)
Theorem X10_capture_after_EndGame_still_saves
    (h1 h2 : FHost) (W : UWorld) (Width Height : nat) (Colours : list nat)
    (s : USpudSubsystem)
    (Hview : HasLocalPlayerViewport h2 = true) (Hworld : GetWorld h2 = Some W) :
  ∃ s1 t1 s2 t2,
    exec (EndGame h1) s = Some (s1, t1) ∧ CurrentState s1 = Disabled ∧
    ActiveState s1 = false ∧
    exec (OnScreenshotCaptured h2 Width Height Colours) s1 = Some (s2, t2) ∧
    CurrentState s2 = RunningIdle ∧ ActiveState s2 = true ∧
    NewSpudState ∈ t2 ∧
    CreateFileWriter (GetSaveGameFilePath h2 (SlotNameInProgress s)) ∈ t2 ∧
    Broadcast (PostSaveGame (SlotNameInProgress s) (SaveOK h2 (SlotNameInProgress s))) ∈ t2.
Proof.
  eexists _, _, _, _. split; [unfold exec; by rewrite EndGame_run|].
  split; [done|]. split; [done|].
  split; [by apply OnScreenshotCaptured_run|].
  split; [done|]. split; [done|].
  cbn [SlotNameInProgress TitleInProgress ExtraInfoInProgress set_OnScreenshotHandle
       set_bIsRestoringState set_CurrentState set_OnDestroyedBound set_ActiveState].
  unfold FinishSaveGameTrace. cbn [ActiveState set_OnScreenshotHandle].
  split; [set_solver|]. split; [set_solver|]. set_solver.
Qed.

Lemma X10_capture_after_EndGame_still_saves_witness :
  let s := After [CallNewGame false false; CallSaveGame "S1" "First" true None] in
  ∃ s1 t1 s2 t2,
    exec (EndGame ServerHost) s = Some (s1, t1) ∧ CurrentState s1 = Disabled ∧
    ActiveState s1 = false ∧
    exec (OnScreenshotCaptured ServerHost 1 1 [0]) s1 = Some (s2, t2) ∧
    CurrentState s2 = RunningIdle ∧ ActiveState s2 = true ∧
    NewSpudState ∈ t2 ∧
    CreateFileWriter (GetSaveGameFilePath ServerHost (SlotNameInProgress s)) ∈ t2 ∧
    Broadcast (PostSaveGame (SlotNameInProgress s)
                 (SaveOK ServerHost (SlotNameInProgress s))) ∈ t2.
Proof.
  apply (X10_capture_after_EndGame_still_saves ServerHost ServerHost TownWorld 1 1 [0]
           (After [CallNewGame false false; CallSaveGame "S1" "First" true None])
           eq_refl eq_refl).
Defined.

(** ** Loading *)

Lemma StateCalls_cons_call c t : StateCalls (StateCall c :: t) = c :: StateCalls t.
Proof. reflexivity. Qed.

Lemma LoadGame_read_run h SlotName bAutoTravelLevel TravelOptions s :
  ServerCheck h = true → CurrentState s = RunningIdle →
  FileReaderOpens h (GetSaveGameFilePath h SlotName) = true →
  FileReaderError h (GetSaveGameFilePath h SlotName) = false →
  exec (LoadGame h SlotName bAutoTravelLevel TravelOptions) s =
    Some (set_SlotNameInProgress SlotName (set_ActiveState true
            (set_bIsRestoringState true (set_CurrentState LoadingGame s))),
          [Broadcast (PreLoadGame SlotName);
           UE_LOG Verbose ("Loading Game from slot " +:+ SlotName)] ++
          (if ActiveState s then [] else [NewSpudState]) ++
          [StateCall ResetState;
           CreateFileReader (GetSaveGameFilePath h SlotName);
           StateCall (LoadFromArchive (GetSaveGameFilePath h SlotName) false);
           ArchiveClose (GetSaveGameFilePath h SlotName);
           ArchiveIsError (GetSaveGameFilePath h SlotName)] ++
          (StateCall <$> RestoreGlobalObjectCalls h s) ++
          (if bAutoTravelLevel
           then [UE_LOG Verbose ("(Re)loading map: " +:+ StateGetPersistentLevel h);
                 OpenLevel (StateGetPersistentLevel h) TravelOptions]
           else [])).
Proof.
  intros Hs Hst Ho He. unfold exec, LoadGame. rewrite Hs. cbn [negb].
  run_step. rewrite Hst. rewrite bool_decide_false by (intros H; by apply H).
  do 4 run_step. run_step. do 2 run_step.
  cbn zeta. rewrite Ho. do 3 run_step. rewrite He.
  erewrite bind_run by apply RestoreGlobalObjects_run. run_step.
  destruct bAutoTravelLevel, (ActiveState s) eqn:Ha; cbn [when];
    repeat run_step; cbn; rewrite ?Ha, ?app_nil_r; reflexivity.
Qed.

Lemma LoadGame_failed_run h SlotName bAutoTravelLevel TravelOptions s :
  ServerCheck h = true → CurrentState s = RunningIdle →
  FileReaderOpens h (GetSaveGameFilePath h SlotName) &&
    negb (FileReaderError h (GetSaveGameFilePath h SlotName)) = false →
  exec (LoadGame h SlotName bAutoTravelLevel TravelOptions) s =
    Some (set_SlotNameInProgress "" (set_bIsRestoringState false
            (set_CurrentState RunningIdle (set_ActiveState true s))),
          [Broadcast (PreLoadGame SlotName);
           UE_LOG Verbose ("Loading Game from slot " +:+ SlotName)] ++
          (if ActiveState s then [] else [NewSpudState]) ++
          [StateCall ResetState;
           CreateFileReader (GetSaveGameFilePath h SlotName)] ++
          (if FileReaderOpens h (GetSaveGameFilePath h SlotName)
           then [StateCall (LoadFromArchive (GetSaveGameFilePath h SlotName) false);
                 ArchiveClose (GetSaveGameFilePath h SlotName);
                 ArchiveIsError (GetSaveGameFilePath h SlotName);
                 UE_LOG Error ("Error while loading game from " +:+ SlotName)]
           else [UE_LOG Error ("Error while opening save game for slot " +:+ SlotName)]) ++
          [Broadcast (PostLoadGame SlotName false)]).
Proof.
  intros Hs Hst Hf. unfold exec, LoadGame. rewrite Hs. cbn [negb].
  run_step. rewrite Hst. rewrite bool_decide_false by (intros H; by apply H).
  do 4 run_step. run_step. do 2 run_step. cbn zeta. unfold LoadComplete.
  destruct (FileReaderOpens h (GetSaveGameFilePath h SlotName)) eqn:Ho.
  - destruct (FileReaderError h (GetSaveGameFilePath h SlotName)) eqn:He; [|done].
    repeat run_step. destruct (ActiveState s) eqn:Ha; cbn; rewrite ?Ha; reflexivity.
  - repeat run_step. destruct (ActiveState s) eqn:Ha; cbn; rewrite ?Ha; reflexivity.
Qed.

(** X11.  A load that passes the guards and reads its file without error
    resets the state, reads the global data only, restores the live global
    objects, and then waits: the orchestrator is [LoadingGame] with the
    restoring flag on and the slot in progress, the end of the load is not
    reported yet, and the map of the save is opened exactly when travel was
    asked for. *)
Theorem X11_load_reads_then_waits
    (h : FHost) (SlotName : string) (bAutoTravelLevel : bool) (TravelOptions : string)
    (s : USpudSubsystem)
    (Hserver : ServerCheck h = true) (Hidle : CurrentState s = RunningIdle)
    (Hopens : FileReaderOpens h (GetSaveGameFilePath h SlotName) = true)
    (Hsound : FileReaderError h (GetSaveGameFilePath h SlotName) = false) :
  ∃ s' t, exec (LoadGame h SlotName bAutoTravelLevel TravelOptions) s = Some (s', t) ∧
    CurrentState s' = LoadingGame ∧ bIsRestoringState s' = true ∧
    SlotNameInProgress s' = SlotName ∧ SameRegistry s s' ∧
    StateCalls t =
      ResetState :: LoadFromArchive (GetSaveGameFilePath h SlotName) false ::
      RestoreGlobalObjectCalls h s ∧
    Broadcasts t = [PreLoadGame SlotName] ∧
    (∀ Level Options, OpenLevel Level Options ∈ t ↔
       bAutoTravelLevel = true ∧ Level = StateGetPersistentLevel h ∧ Options = TravelOptions).
Proof.
  eexists _, _. split; [by apply LoadGame_read_run|].
  split; [done|]. split; [done|]. split; [done|]. split; [done|]. split; [|split].
  - rewrite !StateCalls_app, StateCalls_fmap.
    destruct (ActiveState s), bAutoTravelLevel; cbn; by rewrite ?app_nil_r.
  - rewrite !Broadcasts_app, Broadcasts_fmap.
    by destruct (ActiveState s), bAutoTravelLevel.
  - intros Level Options. rewrite !elem_of_app, list_elem_of_fmap.
    rewrite !elem_of_cons, !elem_of_nil. split.
    + intros [[?|[?|?]]|[Ha|[[?|[?|[?|[?|[?|?]]]]]|[(c & ? & _)|Ht]]]]; try done.
      * destruct (ActiveState s); [by apply elem_of_nil in Ha|].
        by apply list_elem_of_singleton in Ha.
      * destruct bAutoTravelLevel; [|by apply elem_of_nil in Ht].
        rewrite !elem_of_cons, elem_of_nil in Ht. naive_solver.
    + intros (-> & -> & ->). do 4 right. rewrite !elem_of_cons. auto.
Qed.

Lemma X11_load_reads_then_waits_witness :
  ∃ s' t,
    exec (LoadGame ServerHost "S1" true "") (After [CallNewGame false false]) =
      Some (s', t) ∧
    CurrentState s' = LoadingGame ∧ bIsRestoringState s' = true ∧
    SlotNameInProgress s' = "S1" ∧ SameRegistry (After [CallNewGame false false]) s' ∧
    StateCalls t =
      ResetState :: LoadFromArchive (GetSaveGameFilePath ServerHost "S1") false ::
      RestoreGlobalObjectCalls ServerHost (After [CallNewGame false false]) ∧
    Broadcasts t = [PreLoadGame "S1"] ∧
    (∀ Level Options, OpenLevel Level Options ∈ t ↔
       true = true ∧ Level = StateGetPersistentLevel ServerHost ∧ Options = "").
Proof.
  apply (X11_load_reads_then_waits ServerHost "S1" true "" (After [CallNewGame false false])).
  - reflexivity.
  - vm_compute. reflexivity.
  - vm_compute. reflexivity.
  - reflexivity.
Defined.

(** X12.  A load that passes the guards but cannot read its file (the
    reader does not open, or the archive is in error after the read) has
    reset the state all the same.  It restores no global object and opens no
    map, reports the failure for the slot once, and leaves the orchestrator
    [RunningIdle] with the restoring flag off and no slot in progress. *)
Theorem X12_failed_load_has_reset_the_state
    (h : FHost) (SlotName : string) (bAutoTravelLevel : bool) (TravelOptions : string)
    (s : USpudSubsystem)
    (Hserver : ServerCheck h = true) (Hidle : CurrentState s = RunningIdle)
    (Hfails : FileReaderOpens h (GetSaveGameFilePath h SlotName) &&
              negb (FileReaderError h (GetSaveGameFilePath h SlotName)) = false) :
  ∃ s' t, exec (LoadGame h SlotName bAutoTravelLevel TravelOptions) s = Some (s', t) ∧
    CurrentState s' = RunningIdle ∧ bIsRestoringState s' = false ∧
    SlotNameInProgress s' = "" ∧
    StateCalls t =
      ResetState ::
      (if FileReaderOpens h (GetSaveGameFilePath h SlotName)
       then [LoadFromArchive (GetSaveGameFilePath h SlotName) false] else []) ∧
    Broadcasts t = [PreLoadGame SlotName; PostLoadGame SlotName false] ∧
    (∀ Level Options, OpenLevel Level Options ∉ t).
Proof.
  eexists _, _. split; [by apply LoadGame_failed_run|].
  split; [done|]. split; [done|]. split; [done|]. split; [|split].
  - rewrite !StateCalls_app.
    by destruct (ActiveState s), (FileReaderOpens h (GetSaveGameFilePath h SlotName)).
  - rewrite !Broadcasts_app.
    by destruct (ActiveState s), (FileReaderOpens h (GetSaveGameFilePath h SlotName)).
  - intros Level Options.
    destruct (ActiveState s), (FileReaderOpens h (GetSaveGameFilePath h SlotName)); cbn;
      rewrite !elem_of_cons, elem_of_nil; naive_solver.
Qed.

Lemma X12_failed_load_has_reset_the_state_witness :
  ∃ s' t,
    exec (LoadGame ServerHost "Lost" true "") (After [CallNewGame false false]) =
      Some (s', t) ∧
    CurrentState s' = RunningIdle ∧ bIsRestoringState s' = false ∧
    SlotNameInProgress s' = "" ∧
    StateCalls t =
      ResetState ::
      (if FileReaderOpens ServerHost (GetSaveGameFilePath ServerHost "Lost")
       then [LoadFromArchive (GetSaveGameFilePath ServerHost "Lost") false] else []) ∧
    Broadcasts t = [PreLoadGame "Lost"; PostLoadGame "Lost" false] ∧
    (∀ Level Options, OpenLevel Level Options ∉ t).
Proof.
  apply (X12_failed_load_has_reset_the_state ServerHost "Lost" true ""
           (After [CallNewGame false false])).
  - reflexivity.
  - vm_compute. reflexivity.
  - vm_compute. reflexivity.
Defined.

(** ** A save that waits for its thumbnail (C7) *)

#[local] Instance SameSession_refl : Reflexive SameSession.
Proof. by intros s. Qed.
#[local] Instance SameSession_trans : Transitive SameSession.
Proof. intros s1 s2 s3 (?&?&?&?) (?&?&?&?). repeat split; congruence. Qed.

Lemma WhileWaiting_mono (U U' : list ULevel) (e : FEffect) :
  (∀ L, L ∈ U → L ∈ U') → WhileWaiting U e → WhileWaiting U' e.
Proof.
  intros Hsub [Hsilent He]. split; [done|].
  destruct e as [| [] | | [] | | | | | | | | | | |]; try done.
  - rewrite list_elem_of_fmap in He |- *. naive_solver.
  - rewrite list_elem_of_fmap in He |- *. naive_solver.
  - naive_solver.
Qed.

(** Calls that leave a request in flight alone.  [LoadActorData] changes
    the orchestrator state and puts it back; [OnPostLoadMap] and
    [OnPreLoadMap] leave it alone and store nothing unless the orchestrator
    is idle or a new game or a load is pending; the unloading of a level
    stores that level; the others never write the orchestrator state nor
    store anything. *)
Lemma LoadActorData_keeps h Actor b U :
  keeps SameSession (WhileWaiting U) (LoadActorData h Actor b).
Proof.
  intros s. pose proof (LoadActorData_run h Actor b s) as Hrun. unfold exec in Hrun.
  unfold keeps_at.
  destruct (LoadActorData h Actor b s) as [[[[] s'] t]|]; [|by destruct (ServerCheck h)].
  exists tt, s', t. split; [done|].
  destruct (ServerCheck h); injection Hrun as -> ->.
  - split; [done|].
    destruct (ActiveState s); repeat (apply Forall_cons_2; [by split|]); apply Forall_nil_2.
  - split; [done|]. apply Forall_nil_2.
Qed.

Lemma OnPostLoadMap_keeps_while_saving h World s U :
  CurrentState s = SavingGame →
  keeps_at SameSession (WhileWaiting U) (OnPostLoadMap h World) s.
Proof.
  intros Hst. unfold OnPostLoadMap. destruct (negb (ServerCheck h)); [by apply keeps_ret|].
  apply keeps_at_get. rewrite Hst.
  assert (keeps SameSession (WhileWaiting U)
            (mret tt;; emit (Broadcast PostTravelToNewMap))) as Hk
    by keeps_auto.
  apply Hk.
Qed.

Lemma OnPreLoadMap_keeps_while_saving h MapName s U :
  CurrentState s = SavingGame →
  keeps_at SameSession (WhileWaiting U) (OnPreLoadMap h MapName) s.
Proof.
  intros Hst. unfold OnPreLoadMap. destruct (negb (ServerCheck h)); [by apply keeps_ret|].
  apply keeps_at_bind; [apply _| |].
  { assert (keeps SameSession (WhileWaiting U)
              (emit (Broadcast (PreTravelToNewMap MapName)))) as Hk by keeps_auto.
    apply Hk. }
  intros _ s' (Hs' & _). apply keeps_at_get. rewrite Hs', Hst. by apply keeps_ret.
Qed.

Lemma HandleLevelUnloaded_keeps L U :
  L ∈ U → keeps SameSession (WhileWaiting U) (HandleLevelUnloaded L).
Proof.
  intros HL.
  assert (LevelName L ∈ LevelName <$> U) as HName by (apply list_elem_of_fmap; eauto).
  unfold HandleLevelUnloaded, StoreLevel, UnsubscribeLevelObjectEvents, GetActiveState.
  keeps_auto; by split.
Qed.

Lemma OnSeamlessTravelStart_keeps_while_saving h World MapName s U :
  CurrentState s = SavingGame →
  keeps_at SameSession (WhileWaiting U) (OnSeamlessTravelStart h World MapName) s.
Proof.
  intros Hst. unfold OnSeamlessTravelStart.
  destruct (negb (ServerCheck h)); [by apply keeps_ret|].
  destruct World; [|by apply keeps_ret].
  apply keeps_at_bind; [apply _| |].
  - assert (keeps SameSession (WhileWaiting U)
              (emit (UE_LOG Verbose ("OnSeamlessTravelStart: " +:+ MapName)))) as Hk
      by keeps_auto.
    apply Hk.
  - intros _ s' (Hs' & _). apply OnPreLoadMap_keeps_while_saving. congruence.
Qed.

Lemma OnLevelBeginMakingInvisible_keeps h World L U :
  L ∈ U → keeps SameSession (WhileWaiting U) (OnLevelBeginMakingInvisible h World L).
Proof.
  intros HL. unfold OnLevelBeginMakingInvisible.
  destruct (negb (ServerCheck h) || IsNetModeClient World); [by apply keeps_ret|].
  cbn zeta. keeps_auto. by apply HandleLevelUnloaded_keeps.
Qed.

Lemma quiet_call_keeps h c s U :
  Quiet c = true → CurrentState s = SavingGame →
  (∀ L, L ∈ UnloadingLevels [(h, c)] → L ∈ U) →
  keeps_at SameSession (WhileWaiting U) (call h c) s.
Proof.
  intros Hq Hst HU. destruct c; try discriminate Hq; cbn [call].
  all: try (by apply OnPostLoadMap_keeps_while_saving).
  all: try (by apply OnPreLoadMap_keeps_while_saving).
  all: try (by apply OnSeamlessTravelStart_keeps_while_saving).
  all: try (by apply LoadActorData_keeps).
  all: try (by apply HandleLevelUnloaded_keeps, HU; left).
  all: try (by apply OnLevelBeginMakingInvisible_keeps, HU; left).
  all: clear Hst HU; revert s;
       lazymatch goal with |- ∀ s, keeps_at ?R ?Q ?m s => change (keeps R Q m) end.
  all: unfold Initialize, Deinitialize, MarkActorDestroyed, OnActorDestroyed,
         NotifyLevelLoadedExternally, OnLevelBeginMakingVisible,
         RunGameThreadTask, AddPersistentGlobalObject, AddPersistentGlobalObjectWithName,
         RemovePersistentGlobalObject, ClearLevelState, HandleLevelLoaded,
         PostLoadStreamLevelGameThread, CanRestoreLevel,
         SubscribeLevelObjectEvents, GetActiveState.
  all: keeps_auto.
Qed.

Lemma UnloadingLevels_cons hc calls L :
  L ∈ UnloadingLevels (hc :: calls) ↔ L ∈ UnloadingLevels [hc] ∨ L ∈ UnloadingLevels calls.
Proof.
  unfold UnloadingLevels. change (hc :: calls) with ([hc] ++ calls).
  by rewrite omap_app, elem_of_app.
Qed.

Lemma run_quiet_keeps (calls : list (FHost * FCall)) s U :
  Forall (λ hc, Quiet hc.2 = true) calls → CurrentState s = SavingGame →
  (∀ L, L ∈ UnloadingLevels calls → L ∈ U) →
  keeps_at SameSession (WhileWaiting U) (run calls) s.
Proof.
  unfold run. revert s. induction calls as [|[h c] calls IH]; intros s Hq Hst HU.
  - by apply keeps_ret.
  - apply Forall_cons in Hq as [Hc Hq]. cbn [for_each].
    apply keeps_at_bind; [apply _ | |].
    + apply quiet_call_keeps; [done..|]. intros L HL. apply HU, UnloadingLevels_cons. by left.
    + intros _ s' (Hs' & _). apply IH; [done | congruence |].
      intros L HL. apply HU, UnloadingLevels_cons. by right.
Qed.

Lemma SaveGame_with_thumbnail_run h SlotName Title ExtraInfo s :
  ServerCheck h = true → SlotName ≠ "" → CurrentState s = RunningIdle →
  HasGameInstance h && HasGameViewportClient h = true →
  exec (SaveGame h SlotName Title true ExtraInfo) s =
    Some (set_OnScreenshotHandle true (set_ExtraInfoInProgress ExtraInfo
            (set_TitleInProgress Title (set_SlotNameInProgress SlotName
               (set_CurrentState SavingGame s)))),
          [Broadcast (PreSaveGame SlotName);
           UE_LOG Verbose ("Queueing screenshot for save " +:+ SlotName);
           BindScreenshotCaptured; RequestScreenshot]).
Proof.
  intros Hs Hn Hst Hv. unfold exec, SaveGame. rewrite Hs. cbn [negb].
  rewrite bool_decide_false by done.
  erewrite bind_run by reflexivity. rewrite Hst.
  rewrite bool_decide_false by (intros H; by apply H).
  rewrite Hv. reflexivity.
Qed.

Lemma OnScreenshotCaptured_completes SlotName Title ExtraInfo s :
  AwaitingCapture SlotName Title ExtraInfo s →
  CaptureCompletesSave SlotName Title ExtraInfo s.
Proof.
  intros (Hst & Hslot & Htitle & Hextra) h W Width Height Colours Hv HW.
  eexists _, _. split; [by apply OnScreenshotCaptured_run|].
  rewrite Hslot, Htitle, Hextra.
  split; [done|]. split; [done|]. split; [|split].
  - change (StateCalls (UnbindScreenshotCaptured :: ?t)) with (StateCalls t).
    by rewrite StateCalls_FinishSaveGameTrace.
  - unfold FinishSaveGameTrace. set_solver.
  - change (Broadcasts (UnbindScreenshotCaptured :: ?t)) with (Broadcasts t).
    by rewrite Broadcasts_FinishSaveGameTrace.
Qed.




(** ** Unregistering a global object (C10) *)

(** C10 (as amended).  [RemovePersistentGlobalObject] drops from the
    unnamed objects every handle equal to that of the object, the handle of
    the object itself among them, and from the named entries those that
    dereference to the object.  For an object that is valid these are all
    the named entries that hold it.  For an object that is not null and no
    longer valid they are none: its handle dereferences to null, and the
    named entries that hold it stay in the registry.  A later save, at a
    time when the object has not come back to life, runs to its end and
    stores nothing for the object, under no name. *)
Theorem C10_removed_object_is_not_saved
    (h h' : FHost) (Obj : UObjectPtr) (s : USpudSubsystem) (W : UWorld)
    (SlotName Title : string) (ExtraInfo : UObjectPtr) (Shot : option (list Byte.byte))
    (Hdead : ∀ o, Obj = Some o → ObjectIsValid h' o = true → ObjectIsValid h o = true)
    (Hworld : GetWorld h' = Some W) :
  ∃ s1, exec (RemovePersistentGlobalObject h Obj) s = Some (s1, []) ∧
    (∀ Ptr, Ptr ∈ GlobalObjects s1 ↔ Ptr ∈ GlobalObjects s ∧ WeakEq h Ptr Obj = false) ∧
    (Obj ∉ GlobalObjects s1) ∧
    (∀ Name Ptr, (Name, Ptr) ∈ NamedGlobalObjects s1 ↔
                 (Name, Ptr) ∈ NamedGlobalObjects s ∧ WeakGet h Ptr ≠ Obj) ∧
    (WeakIsValid h Obj = true → ∀ Name, (Name, Obj) ∉ NamedGlobalObjects s1) ∧
    (∀ o, Obj = Some o → ObjectIsValid h o = false →
       ∀ Name, (Name, Obj) ∈ NamedGlobalObjects s1 ↔ (Name, Obj) ∈ NamedGlobalObjects s) ∧
    ∃ s2 t2, exec (FinishSaveGame h' SlotName Title ExtraInfo Shot) s1 = Some (s2, t2) ∧
      ∀ o Name, Obj = Some o → (StateCall (StoreGlobalObject o Name) ∉ t2).
Proof.
  eexists. split; [apply RemovePersistentGlobalObject_run|].
  set (s1 := set_NamedGlobalObjects _ _).
  assert (Hobjs : ∀ Ptr, Ptr ∈ GlobalObjects s1 ↔
                         Ptr ∈ GlobalObjects s ∧ WeakEq h Ptr Obj = false).
  { intros Ptr. cbn. rewrite list_elem_of_filter. tauto. }
  assert (Hnamed : ∀ Name Ptr, (Name, Ptr) ∈ NamedGlobalObjects s1 ↔
                     (Name, Ptr) ∈ NamedGlobalObjects s ∧ WeakGet h Ptr ≠ Obj).
  { intros Name Ptr. cbn. rewrite list_elem_of_filter. cbn. tauto. }
  assert (Hgone : Obj ∉ GlobalObjects s1).
  { intros [_ Hne]%Hobjs. by rewrite WeakEq_refl in Hne. }
  split; [done|]. split; [done|]. split; [done|]. split.
  { intros Hv Name [_ Hne]%Hnamed. apply Hne. unfold WeakGet. by rewrite Hv. }
  split.
  { intros o -> Hv Name. rewrite Hnamed. split; [tauto|]. intros Hin. split; [done|].
    unfold WeakGet. cbn. by rewrite Hv. }
  eexists _, _. split; [by apply FinishSaveGame_run|].
  intros o Name ->. rewrite StoreGlobalObject_in_trace, elem_of_StoreGlobalObjectCalls.
  intros [Hv' Hin]. destruct Name as [n|].
  - apply Hnamed in Hin as [_ Hne]. apply Hne. apply WeakGet_Some. split; [done|].
    by apply Hdead.
  - done.
Qed.

Lemma C10_removed_object_is_not_saved_witness :
  ∃ s1, exec (RemovePersistentGlobalObject ServerHost (Some 7)) (After RegistryCalls) =
          Some (s1, []) ∧
    (∀ Ptr, Ptr ∈ GlobalObjects s1 ↔
            Ptr ∈ GlobalObjects (After RegistryCalls) ∧
            WeakEq ServerHost Ptr (Some 7) = false) ∧
    (Some 7 ∉ GlobalObjects s1) ∧
    (∀ Name Ptr, (Name, Ptr) ∈ NamedGlobalObjects s1 ↔
                 (Name, Ptr) ∈ NamedGlobalObjects (After RegistryCalls) ∧
                 WeakGet ServerHost Ptr ≠ Some 7) ∧
    (WeakIsValid ServerHost (Some 7) = true →
       ∀ Name, (Name, Some 7) ∉ NamedGlobalObjects s1) ∧
    (∀ o, Some 7 = Some o → ObjectIsValid ServerHost o = false →
       ∀ Name, (Name, Some 7) ∈ NamedGlobalObjects s1 ↔
               (Name, Some 7) ∈ NamedGlobalObjects (After RegistryCalls)) ∧
    ∃ s2 t2, exec (FinishSaveGame ServerHost "S1" "First" None None) s1 = Some (s2, t2) ∧
      ∀ o Name, Some 7 = Some o → (StateCall (StoreGlobalObject o Name) ∉ t2).
Proof.
  apply (C10_removed_object_is_not_saved ServerHost ServerHost (Some 7)
           (After RegistryCalls) TownWorld "S1" "First" None None).
  - intros o _ Ho. exact Ho.
  - reflexivity.
Defined.

(** C10 as stated fails for an object that is no longer valid: the object
    9 was registered, without a name and as "Map", while it was alive; once
    it is gone, removing it drops its unnamed handle, but the entry "Map"
    stays in the registry. *)
Lemma C10_counterexample :
  let s := After (RegistryCalls ++
                  [CallAddPersistentGlobalObject (Some 9);
                   CallAddPersistentGlobalObjectWithName (Some 9) "Map"]) in
  let h := StreamedHost (Zone "Cellar") in
  Some 9 ∈ GlobalObjects s ∧ ("Map", Some 9) ∈ NamedGlobalObjects s ∧
  ObjectIsValid h 9 = false ∧
  ∃ s1, exec (RemovePersistentGlobalObject h (Some 9)) s = Some (s1, []) ∧
    (Some 9 ∉ GlobalObjects s1) ∧ ("Map", Some 9) ∈ NamedGlobalObjects s1.
Proof.
  cbv zeta. split; [in_trace|]. split; [in_trace|]. split; [reflexivity|].
  eexists. split; [vm_compute; reflexivity|]. split; [not_in_trace|in_trace].
Qed.

(** ** Marking an actor destroyed, leaving a map *)

(** X13.  [MarkActorDestroyed] records the destruction exactly when the
    server check passes, the orchestrator is [RunningIdle] and the actor has
    a level that is not being removed; it never changes the orchestrator
    state. *)
Theorem X13_MarkActorDestroyed_records_on_server_when_idle
    (h : FHost) (Actor : AActor) (s : USpudSubsystem) :
  ∃ s' t, exec (MarkActorDestroyed h Actor) s = Some (s', t) ∧
    (StateCall (StoreLevelActorDestroyed Actor) ∈ t ↔
       ServerCheck h = true ∧ CurrentState s = RunningIdle ∧
       ∃ L, GetLevel Actor = Some L ∧ bIsBeingRemoved L = false) ∧
    (∀ c, StateCall c ∈ t → c = StoreLevelActorDestroyed Actor) ∧
    SameButActiveState s s'.
Proof.
  unfold MarkActorDestroyed. destruct (ServerCheck h).
  2:{ exists s, []. cbn. split; [done|]. split; [|split].
      - rewrite elem_of_nil. naive_solver.
      - intros c Hc. by apply elem_of_nil in Hc.
      - by destruct s. }
  cbn [negb]. rewrite OnActorDestroyed_run. cbv zeta.
  destruct (decide (CurrentState s = RunningIdle)) as [Hst|Hst].
  - rewrite bool_decide_true by done. cbn [andb].
    destruct (GetLevel Actor) as [L|].
    + destruct (bIsBeingRemoved L) eqn:HR; cbn [negb].
      * exists s, []. split; [done|]. split; [|split].
        -- rewrite elem_of_nil. split; [done|]. intros (_ & _ & L0 & [= <-] & ?). congruence.
        -- intros c Hc. by apply elem_of_nil in Hc.
        -- by destruct s.
      * eexists _, _. split; [done|]. split; [|split].
        -- split; [eauto 6|]. intros _. apply elem_of_app. right.
           by apply list_elem_of_singleton.
        -- intros c Hc. destruct (ActiveState s); cbn in Hc;
             rewrite ?elem_of_cons, elem_of_nil in Hc; naive_solver.
        -- reflexivity.
    + exists s, []. split; [done|]. split; [|split].
      * rewrite elem_of_nil. split; [done|]. intros (_ & _ & L0 & [=] & ?).
      * intros c Hc. by apply elem_of_nil in Hc.
      * by destruct s.
  - rewrite bool_decide_false by done. cbn [andb].
    exists s, []. split; [done|]. split; [|split].
    + rewrite elem_of_nil. naive_solver.
    + intros c Hc. by apply elem_of_nil in Hc.
    + by destruct s.
Qed.

Lemma OnPreLoadMap_bound h MapName s :
  ∃ s' t, exec (OnPreLoadMap h MapName) s = Some (s', t) ∧
    OnDestroyedBound s' =
      (if ServerCheck h && bool_decide (CurrentState s = RunningIdle)
       then OnDestroyedBound s ∖ list_to_set (WorldTrackedActors h)
       else OnDestroyedBound s) ∧
    SameSession s s' ∧ SameRegistry s s'.
Proof.
  unfold exec, OnPreLoadMap. destruct (ServerCheck h); cbn [negb andb]; [|by exists s, []].
  do 2 run_step.
  destruct (bool_decide (CurrentState s = RunningIdle)); cbn [when]; [|by eexists _, _].
  run_step.
  destruct (GetWorld h) as [W|] eqn:HW; [|by eexists _, _].
  run_step. cbn [bSaveLevelStateWhileTraveling set_OnDestroyedBound].
  destruct (bSaveLevelStateWhileTraveling s).
  - run_step. unfold StoreWorld.
    destruct (store_levels_run (GetLevels W) true true
                (set_OnDestroyedBound
                   (OnDestroyedBound s ∖ list_to_set (WorldTrackedActors h)) s))
      as (s' & t & Hrun & Hs & Ht).
    rewrite Hrun. eexists _, _. split; [reflexivity|]. by rewrite <- Hs.
  - run_step.
    destruct (release_levels_run (GetLevels W)
                (set_OnDestroyedBound
                   (OnDestroyedBound s ∖ list_to_set (WorldTrackedActors h)) s))
      as (s' & t & Hrun & Hs & Ht).
    rewrite Hrun. eexists _, _. split; [reflexivity|]. by rewrite <- Hs.
Qed.

(** X14.  Leaving a map unsubscribes the tracked actors of every level of
    the world exactly when the call comes on the server while the
    orchestrator is [RunningIdle]; otherwise the bindings stay as they are.
    The request in progress and the registry are never touched. *)
Theorem X14_OnPreLoadMap_unsubscribes_when_idle
    (h : FHost) (MapName : string) (s : USpudSubsystem) :
  ∃ s' t, exec (OnPreLoadMap h MapName) s = Some (s', t) ∧
    (∀ A, A ∈ OnDestroyedBound s' ↔
          A ∈ OnDestroyedBound s ∧
          (ServerCheck h = true ∧ CurrentState s = RunningIdle → A ∉ WorldTrackedActors h)) ∧
    SameSession s s' ∧ SameRegistry s s'.
Proof.
  destruct (OnPreLoadMap_bound h MapName s) as (s' & t & Hrun & Hb & Hss & Hr).
  exists s', t. split; [done|]. split; [|done].
  intros A. rewrite Hb. destruct (ServerCheck h); cbn [andb].
  - destruct (decide (CurrentState s = RunningIdle)) as [Hst|Hst].
    + rewrite bool_decide_true by done. set_solver.
    + rewrite bool_decide_false by done. naive_solver.
  - naive_solver.
Qed.

(** ** Levels streaming in *)

Lemma OnLevelBeginMakingVisible_run h World L s :
  ServerCheck h = true → IsNetModeClient World = false → StateCanRestoreLevel h L = true →
  exec (OnLevelBeginMakingVisible h World L) s =
    Some (set_GameThreadTasks (GameThreadTasks s ++ [LevelName L])
            (set_LevelStreamingRestoreStates
               (<[LevelName L := true]> (LevelStreamingRestoreStates s))
               (set_ActiveState true s)),
          UE_LOG Verbose ("Level shown: " +:+ LevelName L) ::
          (if ActiveState s then [] else [NewSpudState]) ++
          [Broadcast (PreLoadStreamingLevel (LevelName L));
           StateCall (PreLoadLevelData (LevelName L))]).
Proof.
  intros Hs Hn Hc. unfold exec, OnLevelBeginMakingVisible, CanRestoreLevel, HandleLevelLoaded.
  rewrite Hs, Hn. cbn [negb orb]. cbn zeta. run_step.
  erewrite bind_run; cycle 1.
  { run_step. reflexivity. }
  rewrite Hc. cbn [negb]. repeat run_step.
  destruct (ActiveState s); reflexivity.
Qed.

Lemma PostLoadStreamLevelGameThread_run h Name s :
  PostLoadStreamLevelGameThread h Name s =
    match GetStreamingLevel h Name with
    | Some StreamLevel =>
        match GetLoadedLevel StreamLevel with
        | Some Level =>
            Some (tt,
                  set_bIsRestoringState false
                    (set_OnDestroyedBound
                       (OnDestroyedBound s ∪ list_to_set (TrackedActors Level))
                       (set_ActiveState true s)),
                  [Broadcast (PostLoadStreamingLevel Name);
                   Broadcast (PreLevelRestore Name)] ++
                  (if ActiveState s then [] else [NewSpudState]) ++
                  [StateCall (RestoreLevel Level); SetShouldBeVisible Name;
                   Broadcast (PostLevelRestore Name true)])
        | None =>
            Some (tt, s,
                  [Broadcast (PostLoadStreamingLevel Name);
                   UE_LOG Log ("PostLoadStreamLevel called for " +:+ Name +:+
                               " but level is null; probably unloaded again?")])
        end
    | None => Some (tt, s, [Broadcast (PostLoadStreamingLevel Name)])
    end.
Proof.
  unfold PostLoadStreamLevelGameThread. run_step.
  destruct (GetStreamingLevel h Name) as [[[Level|]]|]; cbn [GetLoadedLevel]; try reflexivity.
  repeat run_step. destruct s as [? ? ? [] ? ? ? ? ? ? ? ? ? ?]; reflexivity.
Qed.

Lemma RunGameThreadTask_run h Name rest s :
  GameThreadTasks s = Name :: rest →
  exec (RunGameThreadTask h) s =
    match PostLoadStreamLevelGameThread h Name (set_GameThreadTasks rest s) with
    | Some (_, s1, t1) =>
        Some (set_LevelStreamingRestoreStates
                (<[Name := false]> (LevelStreamingRestoreStates s1)) s1,
              t1 ++ [Broadcast (PostLoadStreamingLevel Name)])
    | None => None
    end.
Proof.
  intros Hq. unfold exec, RunGameThreadTask. run_step. rewrite Hq. run_step.
  unfold mbind at 1, M_bind at 1.
  destruct (PostLoadStreamLevelGameThread h Name (set_GameThreadTasks rest s))
    as [[[[] s1] t1]|]; [|done].
  repeat run_step. reflexivity.
Qed.

(** X15.  A level that becomes visible on the server while the state holds
    data for it is marked as restoring, has its data loaded ahead, and its
    restore queued for the game thread.  When the game thread takes it up
    and the level is still streamed in, the level is restored once and made
    visible, its tracked actors are subscribed, the level is no longer
    restoring and the restoring flag is off, whatever it was; the
    orchestrator state never changes.  [PostLoadStreamingLevel] is broadcast
    twice, before and after the restore. *)
Theorem X15_streamed_level_is_restored_on_the_game_thread
    (h h' : FHost) (World : UWorld) (L L' : ULevel) (s : USpudSubsystem)
    (Hserver : ServerCheck h = true) (Hnet : IsNetModeClient World = false)
    (Hdata : StateCanRestoreLevel h L = true)
    (Hqueue : GameThreadTasks s = [])
    (Hstream : GetStreamingLevel h' (LevelName L) = Some (mkStreaming (Some L'))) :
  ∃ s1 t1 s2 t2,
    exec (OnLevelBeginMakingVisible h World L) s = Some (s1, t1) ∧
    IsStreamedLevelRestoring s1 L = true ∧ GameThreadTasks s1 = [LevelName L] ∧
    StateCalls t1 = [PreLoadLevelData (LevelName L)] ∧
    Broadcasts t1 = [PreLoadStreamingLevel (LevelName L)] ∧
    exec (RunGameThreadTask h') s1 = Some (s2, t2) ∧
    StateCalls t2 = [RestoreLevel L'] ∧
    SetShouldBeVisible (LevelName L) ∈ t2 ∧
    Broadcasts t2 =
      [PostLoadStreamingLevel (LevelName L); PreLevelRestore (LevelName L);
       PostLevelRestore (LevelName L) true; PostLoadStreamingLevel (LevelName L)] ∧
    IsStreamedLevelRestoring s2 L = false ∧ bIsRestoringState s2 = false ∧
    GameThreadTasks s2 = [] ∧ CurrentState s2 = CurrentState s ∧
    (∀ A, A ∈ OnDestroyedBound s2 ↔ A ∈ OnDestroyedBound s ∨ A ∈ TrackedActors L').
Proof.
  eexists _, _, _, _. split; [by apply OnLevelBeginMakingVisible_run|].
  split; [unfold IsStreamedLevelRestoring; cbn; by rewrite lookup_insert_eq|].
  split; [cbn; by rewrite Hqueue|].
  split; [by destruct (ActiveState s)|].
  split; [by destruct (ActiveState s)|].
  split.
  { erewrite RunGameThreadTask_run by (cbn; rewrite Hqueue; reflexivity).
    rewrite PostLoadStreamLevelGameThread_run, Hstream. cbn [GetLoadedLevel]. reflexivity. }
  cbn. split; [done|]. split; [set_solver|]. split; [done|].
  split; [unfold IsStreamedLevelRestoring; cbn; by rewrite lookup_insert_eq|].
  split; [done|]. split; [done|]. split; [done|].
  intros A. set_solver.
Qed.

Lemma X15_streamed_level_is_restored_on_the_game_thread_witness :
  let h := StreamedHost (Zone "Cellar") in
  let L := Zone "Cellar" in
  let s := After [CallNewGame false false] in
  ∃ s1 t1 s2 t2,
    exec (OnLevelBeginMakingVisible h TownWorld L) s = Some (s1, t1) ∧
    IsStreamedLevelRestoring s1 L = true ∧ GameThreadTasks s1 = [LevelName L] ∧
    StateCalls t1 = [PreLoadLevelData (LevelName L)] ∧
    Broadcasts t1 = [PreLoadStreamingLevel (LevelName L)] ∧
    exec (RunGameThreadTask h) s1 = Some (s2, t2) ∧
    StateCalls t2 = [RestoreLevel L] ∧
    SetShouldBeVisible (LevelName L) ∈ t2 ∧
    Broadcasts t2 =
      [PostLoadStreamingLevel (LevelName L); PreLevelRestore (LevelName L);
       PostLevelRestore (LevelName L) true; PostLoadStreamingLevel (LevelName L)] ∧
    IsStreamedLevelRestoring s2 L = false ∧ bIsRestoringState s2 = false ∧
    GameThreadTasks s2 = [] ∧ CurrentState s2 = CurrentState s ∧
    (∀ A, A ∈ OnDestroyedBound s2 ↔ A ∈ OnDestroyedBound s ∨ A ∈ TrackedActors L).
Proof.
  apply (X15_streamed_level_is_restored_on_the_game_thread
           (StreamedHost (Zone "Cellar")) (StreamedHost (Zone "Cellar")) TownWorld
           (Zone "Cellar") (Zone "Cellar") (After [CallNewGame false false])).
  - reflexivity.
  - reflexivity.
  - reflexivity.
  - vm_compute. reflexivity.
  - vm_compute. reflexivity.
Defined.

(** X16.  When the game thread takes up the restore of a level that is no
    longer streamed in (no streaming level of the name, or none loaded),
    nothing is restored and no actor is subscribed; the level is marked as
    not restoring all the same, the task is taken off the queue,
    [PostLoadStreamingLevel] is broadcast twice, and the restoring flag and
    the orchestrator state stay as they were. *)
Theorem X16_restore_of_a_level_gone_is_skipped
    (h : FHost) (Name : string) (rest : list string) (s : USpudSubsystem)
    (Hqueue : GameThreadTasks s = Name :: rest)
    (Hgone : GetStreamingLevel h Name = None ∨
             GetStreamingLevel h Name = Some (mkStreaming None)) :
  ∃ s' t, exec (RunGameThreadTask h) s = Some (s', t) ∧
    StateCalls t = [] ∧
    Broadcasts t = [PostLoadStreamingLevel Name; PostLoadStreamingLevel Name] ∧
    LevelStreamingRestoreStates s' = <[Name := false]> (LevelStreamingRestoreStates s) ∧
    GameThreadTasks s' = rest ∧
    bIsRestoringState s' = bIsRestoringState s ∧ CurrentState s' = CurrentState s ∧
    OnDestroyedBound s' = OnDestroyedBound s ∧ ActiveState s' = ActiveState s.
Proof.
  erewrite RunGameThreadTask_run by done. rewrite PostLoadStreamLevelGameThread_run.
  destruct Hgone as [-> | ->]; cbn [GetLoadedLevel]; eexists _, _;
    (split; [reflexivity|]); repeat split; reflexivity.
Qed.

Lemma X16_restore_of_a_level_gone_is_skipped_witness :
  let s := After [CallNewGame false false; CallNotifyLevelLoadedExternally "Cellar"] in
  ∃ s' t, exec (RunGameThreadTask ServerHost) s = Some (s', t) ∧
    StateCalls t = [] ∧
    Broadcasts t = [PostLoadStreamingLevel "Cellar"; PostLoadStreamingLevel "Cellar"] ∧
    LevelStreamingRestoreStates s' = <["Cellar" := false]> (LevelStreamingRestoreStates s) ∧
    GameThreadTasks s' = [] ∧
    bIsRestoringState s' = bIsRestoringState s ∧ CurrentState s' = CurrentState s ∧
    OnDestroyedBound s' = OnDestroyedBound s ∧ ActiveState s' = ActiveState s.
Proof.
  apply (X16_restore_of_a_level_gone_is_skipped ServerHost "Cellar" []
           (After [CallNewGame false false; CallNotifyLevelLoadedExternally "Cellar"])).
  - vm_compute. reflexivity.
  - left. reflexivity.
Defined.

(** ** The registry of global objects *)


(** X18.  Registering an object without a name and then removing it puts
    the subsystem back exactly as it was, when no registered handle equalled
    that of the object before and no named entry dereferences to it. *)
Theorem X18_register_then_remove_restores
    (h : FHost) (Obj : UObjectPtr) (s : USpudSubsystem)
    (Hnew : ∀ Ptr, Ptr ∈ GlobalObjects s → WeakEq h Ptr Obj = false)
    (Hnamed : ∀ Name Ptr, (Name, Ptr) ∈ NamedGlobalObjects s → WeakGet h Ptr ≠ Obj) :
  exec (AddPersistentGlobalObject h Obj;; RemovePersistentGlobalObject h Obj) s =
    Some (s, []).
Proof.
  unfold exec. erewrite bind_run; cycle 1.
  { unfold AddPersistentGlobalObject. run_step.
    rewrite (proj2 (existsb_WeakEq_false h Obj (GlobalObjects s))) by done.
    reflexivity. }
  unfold RemovePersistentGlobalObject. repeat run_step. cbn.
  rewrite filter_app, (filter_all _ (GlobalObjects s)) by done.
  rewrite filter_cons_False by (rewrite WeakEq_refl; done).
  rewrite filter_nil, app_nil_r.
  rewrite filter_all by (intros [Name Ptr] HPair; by apply (Hnamed Name Ptr)).
  by destruct s.
Qed.

Lemma X18_register_then_remove_restores_witness :
  exec (AddPersistentGlobalObject ServerHost (Some 9);;
        RemovePersistentGlobalObject ServerHost (Some 9)) (After RegistryCalls) =
    Some (After RegistryCalls, []).
Proof.
  apply (X18_register_then_remove_restores ServerHost (Some 9) (After RegistryCalls)).
  - apply Forall_forall. apply (bool_decide_unpack _). vm_compute. exact I.
  - intros Name Ptr HPair.
    assert (Forall (λ Pair : string * TWeakObjectPtr, WeakGet ServerHost Pair.2 ≠ Some 9)
              (NamedGlobalObjects (After RegistryCalls))) as Hall
      by (apply (bool_decide_unpack _); vm_compute; exact I).
    exact (proj1 (Forall_forall _ _) Hall (Name, Ptr) HPair).
Defined.

(** X19.  Removing the null object clears the registry of the handles
    that are no longer valid: afterwards the unnamed handles and the named
    entries are exactly the earlier ones whose object is valid, in the
    order they had. *)
Theorem X19_removing_null_purges_dead_named_entries (h : FHost) (s : USpudSubsystem) :
  ∃ s1, exec (RemovePersistentGlobalObject h None) s = Some (s1, []) ∧
    GlobalObjects s1 = filter (λ Ptr, WeakIsValid h Ptr = true) (GlobalObjects s) ∧
    NamedGlobalObjects s1 =
      filter (λ Pair : string * TWeakObjectPtr, WeakIsValid h Pair.2 = true)
        (NamedGlobalObjects s) ∧
    (∀ Ptr, Ptr ∈ GlobalObjects s1 ↔ Ptr ∈ GlobalObjects s ∧ WeakIsValid h Ptr = true) ∧
    (∀ Name Ptr, (Name, Ptr) ∈ NamedGlobalObjects s1 ↔
                 (Name, Ptr) ∈ NamedGlobalObjects s ∧ WeakIsValid h Ptr = true).
Proof.
  eexists. split; [apply RemovePersistentGlobalObject_run|]. cbn.
  assert (∀ Ptr, WeakEq h Ptr None = false ↔ WeakIsValid h Ptr = true) as Hunnamed.
  { intros Ptr. rewrite WeakEq_None. by destruct (WeakIsValid h Ptr). }
  assert (∀ Pair : string * TWeakObjectPtr,
            WeakGet h Pair.2 ≠ None ↔ WeakIsValid h Pair.2 = true) as Hnamed.
  { intros [Name Ptr]. cbn. unfold WeakGet.
    destruct (WeakIsValid h Ptr) eqn:Hv; [|done]. by destruct Ptr. }
  split; [by apply list_filter_iff|]. split; [by apply list_filter_iff|]. split.
  - intros Ptr. rewrite list_elem_of_filter, Hunnamed. tauto.
  - intros Name Ptr. rewrite list_elem_of_filter, (Hnamed (Name, Ptr)). cbn. tauto.
Qed.

(** ** The background upgrade of the saves *)

Lemma SaveNeedsUpgrading_true (State : FLoadedSave) :
  SaveNeedsUpgrading State = true ↔
  GlobalDataOutdated State = true ∨ ∃ Name, (Name, true) ∈ LevelDataOutdated State.
Proof.
  unfold SaveNeedsUpgrading. destruct (GlobalDataOutdated State); [naive_solver|].
  rewrite existsb_exists. split.
  - intros [[Name b] [Hin%list_elem_of_In Hb]]. cbn in Hb. subst b. eauto.
  - intros [?|[Name Hin]]; [done|]. exists (Name, true). by rewrite <-list_elem_of_In.
Qed.

Lemma elem_of_DoWork (h : FHost) (Task : FUpgradeTask) (e : FEffect) :
  e ∈ DoWork h Task ↔
  UpgradeCallbackIsBound Task = true ∧
  ∃ SaveFile, SaveFile ∈ FindSaveFiles h ∧ e ∈ UpgradeSaveFile h Task SaveFile.
Proof.
  unfold DoWork. destruct (UpgradeCallbackIsBound Task); cbn [negb].
  - rewrite list_elem_of_In, in_concat. setoid_rewrite in_map_iff.
    setoid_rewrite <-list_elem_of_In. naive_solver.
  - split; [by intros ?%not_elem_of_nil|naive_solver].
Qed.

Lemma upgrade_path_inj (h : FHost) (File1 File2 : string) :
  GetSaveGameDirectory h +:+ File1 = GetSaveGameDirectory h +:+ File2 → File1 = File2.
Proof. apply String.app_inj. Qed.

Lemma string_length_app (a b : string) :
  String.length (a +:+ b) = String.length a + String.length b.
Proof.
  induction a as [|x a IH]; [done|].
  change (String x a +:+ b) with (String x (a +:+ b)). cbn. by rewrite IH.
Qed.

Lemma string_app_ne_self (a c : string) : a ≠ "" → a +:+ c ≠ c.
Proof.
  intros Ha Heq. apply (f_equal String.length) in Heq.
  rewrite string_length_app in Heq. destruct a; [done|]. cbn in Heq. lia.
Qed.

Lemma UpgradeOffered_cond (h : FHost) (Task : FUpgradeTask) (SaveFile : string) :
  UpgradeOffered h Task SaveFile ↔
  UpgradeCallbackIsBound Task = true ∧ SaveFile ∈ FindSaveFiles h ∧
  FileReaderOpens h (GetSaveGameDirectory h +:+ SaveFile) = true ∧
  FileReaderError h (GetSaveGameDirectory h +:+ SaveFile) = false ∧
  bUpgradeAlways Task ||
    SaveNeedsUpgrading (LoadedSave Task (GetSaveGameDirectory h +:+ SaveFile)) = true.
Proof.
  unfold UpgradeOffered. cbn zeta. rewrite orb_true_iff, SaveNeedsUpgrading_true. done.
Qed.

Ltac upgrade_cases h Task F :=
  destruct (FileReaderOpens h F), (FileReaderError h F),
    (bUpgradeAlways Task || SaveNeedsUpgrading (LoadedSave Task F)),
    (UpgradeCallbackExecute Task F), (FileWriterOpens h F);
  rewrite ?elem_of_cons, ?elem_of_nil.

(** The effects of the upgrade of a file are on that file. *)
Lemma UpgradeSaveFile_own h Task SaveFile e :
  e ∈ UpgradeSaveFile h Task SaveFile →
  match e with
  | UpgradeCallback File | FileMove _ File | StateCall (SaveToArchive File) =>
      File = GetSaveGameDirectory h +:+ SaveFile
  | _ => True
  end.
Proof.
  unfold UpgradeSaveFile. cbn zeta.
  upgrade_cases h Task (GetSaveGameDirectory h +:+ SaveFile);
    intros H; repeat (destruct H as [->|H]; [done|]); done.
Qed.

Lemma elem_of_UpgradeSaveFile_callback h Task SaveFile :
  UpgradeCallback (GetSaveGameDirectory h +:+ SaveFile) ∈ UpgradeSaveFile h Task SaveFile ↔
  FileReaderOpens h (GetSaveGameDirectory h +:+ SaveFile) = true ∧
  FileReaderError h (GetSaveGameDirectory h +:+ SaveFile) = false ∧
  bUpgradeAlways Task ||
    SaveNeedsUpgrading (LoadedSave Task (GetSaveGameDirectory h +:+ SaveFile)) = true.
Proof.
  unfold UpgradeSaveFile. cbn zeta.
  upgrade_cases h Task (GetSaveGameDirectory h +:+ SaveFile); naive_solver.
Qed.

Lemma elem_of_UpgradeSaveFile_move h Task SaveFile Backup :
  FileMove Backup (GetSaveGameDirectory h +:+ SaveFile) ∈ UpgradeSaveFile h Task SaveFile ↔
  Backup = (GetSaveGameDirectory h +:+ SaveFile) +:+ ".bak" ∧
  UpgradeCallback (GetSaveGameDirectory h +:+ SaveFile) ∈ UpgradeSaveFile h Task SaveFile ∧
  UpgradeCallbackExecute Task (GetSaveGameDirectory h +:+ SaveFile) = true.
Proof.
  unfold UpgradeSaveFile. cbn zeta.
  upgrade_cases h Task (GetSaveGameDirectory h +:+ SaveFile); naive_solver.
Qed.

Lemma elem_of_UpgradeSaveFile_write h Task SaveFile :
  StateCall (SaveToArchive (GetSaveGameDirectory h +:+ SaveFile)) ∈
    UpgradeSaveFile h Task SaveFile ↔
  UpgradeCallback (GetSaveGameDirectory h +:+ SaveFile) ∈ UpgradeSaveFile h Task SaveFile ∧
  UpgradeCallbackExecute Task (GetSaveGameDirectory h +:+ SaveFile) = true ∧
  FileWriterOpens h (GetSaveGameDirectory h +:+ SaveFile) = true.
Proof.
  unfold UpgradeSaveFile. cbn zeta.
  upgrade_cases h Task (GetSaveGameDirectory h +:+ SaveFile); naive_solver.
Qed.

(** Membership in the trace of the batch comes down to the file's own
    part of it. *)
Lemma elem_of_DoWork_own h Task SaveFile e :
  match e with
  | UpgradeCallback File | FileMove _ File | StateCall (SaveToArchive File) =>
      File = GetSaveGameDirectory h +:+ SaveFile
  | _ => False
  end →
  e ∈ DoWork h Task ↔
  UpgradeCallbackIsBound Task = true ∧ SaveFile ∈ FindSaveFiles h ∧
  e ∈ UpgradeSaveFile h Task SaveFile.
Proof.
  intros He. rewrite elem_of_DoWork. split; [|naive_solver].
  intros [Hb [SaveFile' [Hin Hel]]]. split; [done|].
  pose proof (UpgradeSaveFile_own _ _ _ _ Hel) as Hown.
  assert (SaveFile' = SaveFile) as ->; [|done].
  apply (upgrade_path_inj h).
  destruct e as [| | |[]| | | | | | | | | | |]; try done; congruence.
Qed.

(** X20.  The upgrade task hands a save file to the upgrade callback
    exactly when the callback is bound, the file is listed, it opens and
    reads without error, and the task upgrades always or the global data or
    the data of some level of the save is outdated.  It moves the file to
    its backup name exactly when moreover the callback answers true, and
    writes the upgraded state exactly when moreover the writer opens: a
    file is never written without having been moved aside, and a writer
    that does not open leaves the save under its backup name only. *)
Theorem X20_upgrade_touches_exactly_the_outdated_saves
    (h : FHost) (Task : FUpgradeTask) (SaveFile : string) :
  let AbsoluteFilename := GetSaveGameDirectory h +:+ SaveFile in
  (UpgradeCallback AbsoluteFilename ∈ DoWork h Task ↔ UpgradeOffered h Task SaveFile) ∧
  (∀ Backup, FileMove Backup AbsoluteFilename ∈ DoWork h Task ↔
     Backup = AbsoluteFilename +:+ ".bak" ∧ UpgradeOffered h Task SaveFile ∧
     UpgradeCallbackExecute Task AbsoluteFilename = true) ∧
  (StateCall (SaveToArchive AbsoluteFilename) ∈ DoWork h Task ↔
     UpgradeOffered h Task SaveFile ∧ UpgradeCallbackExecute Task AbsoluteFilename = true ∧
     FileWriterOpens h AbsoluteFilename = true).
Proof.
  cbn zeta. split; [|split].
  - rewrite (elem_of_DoWork_own h Task SaveFile) by done.
    rewrite elem_of_UpgradeSaveFile_callback, UpgradeOffered_cond. naive_solver.
  - intros Backup. rewrite (elem_of_DoWork_own h Task SaveFile) by done.
    rewrite elem_of_UpgradeSaveFile_move, elem_of_UpgradeSaveFile_callback,
      UpgradeOffered_cond. naive_solver.
  - rewrite (elem_of_DoWork_own h Task SaveFile) by done.
    rewrite elem_of_UpgradeSaveFile_write, elem_of_UpgradeSaveFile_callback,
      UpgradeOffered_cond. naive_solver.
Qed.

(** ** The files of the saves *)

Lemma string_app_inj_r (a b c : string) : a +:+ c = b +:+ c → a = b.
Proof.
  revert b. induction a as [|x a IH]; intros [|y b] Heq.
  - done.
  - exfalso. symmetry in Heq. by apply (string_app_ne_self (String y b) c).
  - exfalso. by apply (string_app_ne_self (String x a) c).
  - change (String x (a +:+ c) = String y (b +:+ c)) in Heq.
    injection Heq as -> Heq. f_equal. by apply IH.
Qed.

Lemma string_app_assoc (a b c : string) : (a +:+ b) +:+ c = a +:+ (b +:+ c).
Proof.
  induction a as [|x a IH]; [done|].
  change (String x ((a +:+ b) +:+ c) = String x (a +:+ (b +:+ c))). by rewrite IH.
Qed.

(** X21.  Different slots have different save files, and the save file of
    a slot is never a file of the active game folder. *)
Theorem X21_each_slot_has_its_own_file (h : FHost) (Slot1 Slot2 : string) :
  (GetSaveGameFilePath h Slot1 = GetSaveGameFilePath h Slot2 → Slot1 = Slot2) ∧
  GetActiveGameFilePath h Slot1 ≠ GetSaveGameFilePath h Slot2.
Proof.
  unfold GetSaveGameFilePath, GetActiveGameFilePath, GetSaveGameDirectory,
    GetActiveGameFolder. split.
  - intros Heq. apply String.app_inj in Heq. by apply string_app_inj_r in Heq.
  - rewrite !string_app_assoc. intros Heq. apply String.app_inj in Heq. done.
Qed.

(** ** Listing the saves *)

Lemma GetSaveGameInfo_run h store SlotName s :
  ∃ t, GetSaveGameInfo h store SlotName s = Some (SaveInfoOf h store SlotName, s, t) ∧
       Forall IsReadOrLog t.
Proof.
  unfold GetSaveGameInfo, SaveInfoOf, GetSaveGameFilePath. cbn zeta.
  destruct (FileReaderOpens h _); eexists; (split; [reflexivity|]);
    repeat apply Forall_cons_2; try apply Forall_nil_2; done.
Qed.

Lemma gather_run {A B} (f : A → option B) (Q : FEffect → Prop)
    (body : A → M (option B)) (l : list A) (s : USpudSubsystem) :
  (∀ x, ∃ t, body x s = Some (f x, s, t) ∧ Forall Q t) →
  ∃ t, gather l body s = Some (omap f l, s, t) ∧ Forall Q t.
Proof.
  intros Hbody. induction l as [|x l [t [IH Ht]]].
  - exists []. split; [done|apply Forall_nil_2].
  - destruct (Hbody x) as [tx [Hx Htx]]. exists (tx ++ t ++ []). cbn [gather].
    erewrite bind_run by exact Hx. erewrite bind_run by exact IH.
    split; [cbn; by destruct (f x)|]. rewrite app_nil_r. by apply Forall_app_2.
Qed.

Lemma GetSaveGameList_run h store bIncludeQuickSave bIncludeAutoSave Sorting s :
  ∃ t, GetSaveGameList h store bIncludeQuickSave bIncludeAutoSave Sorting s =
         Some (let Ret := omap (ListedInfoOf h store bIncludeQuickSave bIncludeAutoSave)
                               (FindSaveFiles h) in
               if bool_decide (Sorting ≠ SortNone)
               then ArraySort store (FSaveSorter store Sorting) Ret else Ret, s, t) ∧
       Forall IsReadOrLog t.
Proof.
  unfold GetSaveGameList.
  edestruct (gather_run (ListedInfoOf h store bIncludeQuickSave bIncludeAutoSave)
               IsReadOrLog) as [t [Hrun Ht]]; cycle 1.
  - exists (t ++ []). erewrite bind_run by exact Hrun. split; [reflexivity|].
    by rewrite app_nil_r.
  - intros File. unfold ListedInfoOf. cbn zeta.
    destruct (_ || _); [|apply GetSaveGameInfo_run].
    exists []. split; [reflexivity|apply Forall_nil_2].
Qed.

Lemma IsReadOrLog_quiet (t : list FEffect) :
  Forall IsReadOrLog t → Broadcasts t = [] ∧ StateCalls t = [].
Proof.
  induction 1 as [|e t He _ [IHb IHs]]; [done|].
  destruct e; try done; cbn; by rewrite ?IHb, ?IHs.
Qed.

Lemma elem_of_ListedInfoOf h store bIncludeQuickSave bIncludeAutoSave File Info :
  ListedInfoOf h store bIncludeQuickSave bIncludeAutoSave File = Some Info ↔
  InfoSlotName Info = GetBaseFilename store File ∧
  (bIncludeQuickSave = true ∨
   FStringEq (InfoSlotName Info) (QuickSaveSlotName store) = false) ∧
  (bIncludeAutoSave = true ∨
   FStringEq (InfoSlotName Info) (AutoSaveSlotName store) = false) ∧
  FileReaderOpens h (GetSaveGameFilePath h (InfoSlotName Info)) = true ∧
  LoadSaveInfoFromArchive store (GetSaveGameFilePath h (InfoSlotName Info)) =
    Some (InfoTitle Info, InfoTimestamp Info).
Proof.
  unfold ListedInfoOf, SaveInfoOf. cbn zeta.
  set (SlotName := GetBaseFilename store File). split.
  - destruct (_ || _) eqn:Hskip; [done|].
    apply orb_false_iff in Hskip as [Hq Ha]. apply andb_false_iff in Hq, Ha.
    destruct (FileReaderOpens h _) eqn:Hopen; [|done].
    destruct (LoadSaveInfoFromArchive store _) as [[Title Timestamp]|] eqn:Hload; [|done].
    intros [= <-]. cbn. rewrite Hopen, Hload. split; [done|]. split.
    + destruct Hq as [?%negb_false_iff|?]; auto.
    + split; [|done]. destruct Ha as [?%negb_false_iff|?]; auto.
  - destruct Info as [Slot Title Timestamp]. cbn. intros (-> & Hq & Ha & Hopen & Hload).
    rewrite Hopen, Hload.
    assert (negb bIncludeQuickSave && FStringEq SlotName (QuickSaveSlotName store) = false)
      as -> by (destruct Hq as [->| ->]; [done|apply andb_false_r]).
    assert (negb bIncludeAutoSave && FStringEq SlotName (AutoSaveSlotName store) = false)
      as -> by (destruct Ha as [->| ->]; [done|apply andb_false_r]).
    done.
Qed.

(** X22.  The list of saves holds exactly one entry per listed file whose
    slot is not left out (the quick save and the auto save can be, their
    slot names being compared without regard to case), whose
    file opens and whose head can be read, under the slot name taken from
    the file name and with the title and timestamp read from the file; a
    file that does not open or read is passed over.  Without sorting the
    entries come in the order of the files.  Listing changes nothing of the
    subsystem, broadcasts nothing and calls nothing on the state.  The sort
    of the engine is taken to permute its argument. *)
Theorem X22_list_holds_the_readable_saves
    (h : FHost) (store : FSaveStore) (bIncludeQuickSave bIncludeAutoSave : bool)
    (Sorting : ESpudSaveSorting) (s : USpudSubsystem)
    (Hsort : ∀ l, ArraySort store (FSaveSorter store Sorting) l ≡ₚ l) :
  ∃ List t,
    GetSaveGameList h store bIncludeQuickSave bIncludeAutoSave Sorting s = Some (List, s, t) ∧
    Broadcasts t = [] ∧ StateCalls t = [] ∧
    List ≡ₚ omap (ListedInfoOf h store bIncludeQuickSave bIncludeAutoSave) (FindSaveFiles h) ∧
    (Sorting = SortNone →
       List = omap (ListedInfoOf h store bIncludeQuickSave bIncludeAutoSave) (FindSaveFiles h)) ∧
    (∀ Info, Info ∈ List ↔
       ∃ File, File ∈ FindSaveFiles h ∧
         InfoSlotName Info = GetBaseFilename store File ∧
         (bIncludeQuickSave = true ∨
          FStringEq (InfoSlotName Info) (QuickSaveSlotName store) = false) ∧
         (bIncludeAutoSave = true ∨
          FStringEq (InfoSlotName Info) (AutoSaveSlotName store) = false) ∧
         FileReaderOpens h (GetSaveGameFilePath h (InfoSlotName Info)) = true ∧
         LoadSaveInfoFromArchive store (GetSaveGameFilePath h (InfoSlotName Info)) =
           Some (InfoTitle Info, InfoTimestamp Info)).
Proof.
  destruct (GetSaveGameList_run h store bIncludeQuickSave bIncludeAutoSave Sorting s)
    as [t [Hrun Ht]].
  apply IsReadOrLog_quiet in Ht as [Hb Hc]. cbn zeta in Hrun.
  eexists _, t. split; [exact Hrun|]. split; [done|]. split; [done|].
  assert ((if bool_decide (Sorting ≠ SortNone)
           then ArraySort store (FSaveSorter store Sorting)
                  (omap (ListedInfoOf h store bIncludeQuickSave bIncludeAutoSave)
                        (FindSaveFiles h))
           else omap (ListedInfoOf h store bIncludeQuickSave bIncludeAutoSave)
                     (FindSaveFiles h))
          ≡ₚ omap (ListedInfoOf h store bIncludeQuickSave bIncludeAutoSave)
                  (FindSaveFiles h)) as Hperm
    by (destruct (bool_decide _); [apply Hsort|done]).
  split; [done|]. split.
  - intros ->. by rewrite bool_decide_false by naive_solver.
  - intros Info. rewrite Hperm, list_elem_of_omap.
    by setoid_rewrite elem_of_ListedInfoOf.
Qed.

Lemma X22_list_holds_the_readable_saves_witness :
  let h := StreamedHost (Zone "Cellar") in
  ∃ List t,
    GetSaveGameList h PlainStore true false SortMostRecent FreshSubsystem =
      Some (List, FreshSubsystem, t) ∧
    Broadcasts t = [] ∧ StateCalls t = [] ∧
    List ≡ₚ omap (ListedInfoOf h PlainStore true false) (FindSaveFiles h) ∧
    (SortMostRecent = SortNone →
       List = omap (ListedInfoOf h PlainStore true false) (FindSaveFiles h)) ∧
    (∀ Info, Info ∈ List ↔
       ∃ File, File ∈ FindSaveFiles h ∧
         InfoSlotName Info = GetBaseFilename PlainStore File ∧
         (true = true ∨
          FStringEq (InfoSlotName Info) (QuickSaveSlotName PlainStore) = false) ∧
         (false = true ∨
          FStringEq (InfoSlotName Info) (AutoSaveSlotName PlainStore) = false) ∧
         FileReaderOpens h (GetSaveGameFilePath h (InfoSlotName Info)) = true ∧
         LoadSaveInfoFromArchive PlainStore (GetSaveGameFilePath h (InfoSlotName Info)) =
           Some (InfoTitle Info, InfoTimestamp Info)).
Proof.
  apply (X22_list_holds_the_readable_saves (StreamedHost (Zone "Cellar")) PlainStore
           true false SortMostRecent FreshSubsystem).
  intros l. apply merge_sort_Permutation.
Defined.

Lemma LatestOf_from (A : USpudSaveGameInfo) (l : list USpudSaveGameInfo) :
  ∃ B, foldl (λ Best Curr,
                match Best with
                | None => Some Curr
                | Some B => if (InfoTimestamp B <? InfoTimestamp Curr)%Z
                            then Some Curr else Best
                end) (Some A) l = Some B ∧
    ((B = A ∧ ∀ I, I ∈ l → (InfoTimestamp I ≤ InfoTimestamp A)%Z) ∨
     (∃ l1 l2, l = l1 ++ B :: l2 ∧ (InfoTimestamp A < InfoTimestamp B)%Z ∧
        (∀ I, I ∈ l1 → (InfoTimestamp I < InfoTimestamp B)%Z) ∧
        (∀ I, I ∈ l2 → (InfoTimestamp I ≤ InfoTimestamp B)%Z))).
Proof.
  revert A. induction l as [|x l IH]; intros A.
  - exists A. split; [done|]. left. split; [done|]. by intros I ?%elem_of_nil.
  - cbn [foldl]. destruct (Z.ltb_spec (InfoTimestamp A) (InfoTimestamp x)) as [Hlt|Hge].
    + destruct (IH x) as [B [-> [[-> Hall]|(l1 & l2 & -> & HxB & H1 & H2)]]];
        eexists; (split; [reflexivity|]); right.
      * exists [], l. split; [done|]. split; [done|]. split; [|done].
        by intros I ?%elem_of_nil.
      * exists (x :: l1), l2. split; [done|]. split; [lia|]. split; [|done].
        intros I [->|?]%elem_of_cons; auto.
    + destruct (IH A) as [B [-> [[-> Hall]|(l1 & l2 & -> & HAB & H1 & H2)]]];
        eexists; (split; [reflexivity|]).
      * left. split; [done|]. intros I [->|?]%elem_of_cons; auto.
      * right. exists (x :: l1), l2. split; [done|]. split; [done|]. split; [|done].
        intros I [->|?]%elem_of_cons; [lia|auto].
Qed.

Lemma LatestOf_spec (l : list USpudSaveGameInfo) :
  match LatestOf l with
  | None => l = []
  | Some B => ∃ l1 l2, l = l1 ++ B :: l2 ∧
      (∀ I, I ∈ l1 → (InfoTimestamp I < InfoTimestamp B)%Z) ∧
      (∀ I, I ∈ l2 → (InfoTimestamp I ≤ InfoTimestamp B)%Z)
  end.
Proof.
  unfold LatestOf. destruct l as [|x l]; [done|]. cbn [foldl].
  destruct (LatestOf_from x l) as [B [-> [[-> Hall]|(l1 & l2 & -> & HxB & H1 & H2)]]].
  - exists [], l. split; [done|]. split; [|done]. by intros I ?%elem_of_nil.
  - exists (x :: l1), l2. split; [done|]. split; [|done].
    intros I [->|?]%elem_of_cons; auto.
Qed.

(** X23.  The latest save is the first entry of the list of saves that
    has the greatest timestamp: every entry before it is strictly older,
    none after it is newer; there is none exactly when the list is empty.
    Asking for it changes nothing of the subsystem. *)
Theorem X23_latest_save_is_first_of_the_newest
    (h : FHost) (store : FSaveStore) (bIncludeQuickSave bIncludeAutoSave : bool)
    (Sorting : ESpudSaveSorting) (s : USpudSubsystem) :
  ∃ List Latest t,
    GetSaveGameList h store bIncludeQuickSave bIncludeAutoSave Sorting s = Some (List, s, t) ∧
    GetLatestSaveGame h store bIncludeQuickSave bIncludeAutoSave Sorting s =
      Some (Latest, s, t) ∧
    match Latest with
    | None => List = []
    | Some B => ∃ l1 l2, List = l1 ++ B :: l2 ∧
        (∀ I, I ∈ l1 → (InfoTimestamp I < InfoTimestamp B)%Z) ∧
        (∀ I, I ∈ l2 → (InfoTimestamp I ≤ InfoTimestamp B)%Z)
    end.
Proof.
  destruct (GetSaveGameList_run h store bIncludeQuickSave bIncludeAutoSave Sorting s)
    as [t [Hrun _]].
  eexists _, _, t. split; [exact Hrun|]. split.
  - unfold GetLatestSaveGame. erewrite bind_run by exact Hrun. cbn.
    by rewrite app_nil_r.
  - apply LatestOf_spec.
Qed.

Lemma omap_all_None {A B} (f : A → option B) (l : list A) :
  (∀ x, x ∈ l → f x = None) → omap f l = [].
Proof.
  induction l as [|x l IH]; [done|]. intros Hall.
  change (omap f (x :: l)) with
    (match f x with Some y => y :: omap f l | None => omap f l end).
  rewrite Hall by set_solver. apply IH. intros. apply Hall. set_solver.
Qed.

(** X24.  Loading the latest save when no listed file opens loads
    nothing: the subsystem is unchanged, nothing is called on the state and
    nothing is broadcast, not even the failure of a load. *)
Theorem X24_load_latest_without_saves_is_silent
    (h : FHost) (store : FSaveStore) (bIncludeQuickSave bIncludeAutoSave : bool)
    (Sorting : ESpudSaveSorting) (bAutoTravelLevel : bool) (TravelOptions : string)
    (s : USpudSubsystem)
    (Hsort : ∀ l, ArraySort store (FSaveSorter store Sorting) l ≡ₚ l)
    (Hnone : ∀ File, File ∈ FindSaveFiles h →
       FileReaderOpens h (GetSaveGameFilePath h (GetBaseFilename store File)) = false) :
  ∃ t, exec (LoadLatestSaveGame h store bIncludeQuickSave bIncludeAutoSave Sorting
               bAutoTravelLevel TravelOptions) s = Some (s, t) ∧
    Broadcasts t = [] ∧ StateCalls t = [].
Proof.
  destruct (GetSaveGameList_run h store bIncludeQuickSave bIncludeAutoSave Sorting s)
    as [t [Hrun Ht]]. cbn zeta in Hrun.
  assert (omap (ListedInfoOf h store bIncludeQuickSave bIncludeAutoSave) (FindSaveFiles h)
          = []) as Hnil.
  { assert (∀ File, File ∈ FindSaveFiles h →
              ListedInfoOf h store bIncludeQuickSave bIncludeAutoSave File = None) as Hall.
    { intros File Hin. unfold ListedInfoOf, SaveInfoOf. cbn zeta.
      rewrite Hnone by done. by destruct (_ || _). }
    by apply omap_all_None. }
  rewrite Hnil in Hrun.
  assert ((if bool_decide (Sorting ≠ SortNone)
           then ArraySort store (FSaveSorter store Sorting) [] else []) = []) as Hret.
  { destruct (bool_decide _); [|done]. apply Permutation_nil_r, Hsort. }
  rewrite Hret in Hrun. exists t. split; [|by apply IsReadOrLog_quiet].
  unfold exec, LoadLatestSaveGame, GetLatestSaveGame.
  erewrite bind_run; cycle 1.
  { erewrite bind_run by exact Hrun. reflexivity. }
  cbn. by rewrite !app_nil_r.
Qed.

Lemma X24_load_latest_without_saves_is_silent_witness :
  ∃ t, exec (LoadLatestSaveGame LockedHost PlainStore true true SortMostRecent true "")
         (After [CallNewGame false false]) = Some (After [CallNewGame false false], t) ∧
    Broadcasts t = [] ∧ StateCalls t = [].
Proof.
  apply (X24_load_latest_without_saves_is_silent LockedHost PlainStore true true
           SortMostRecent true "" (After [CallNewGame false false])).
  - intros l. apply merge_sort_Permutation.
  - intros File _. reflexivity.
Defined.

(** ** Requests refused at the guards *)

(** X25.  A save refused at a guard (off the server, a blank slot name,
    or an orchestrator that is not [RunningIdle]) reports the failure for
    the slot once and touches neither the state object nor a file.  It
    leaves the orchestrator [RunningIdle] whatever it was, [Disabled]
    included, and nothing in progress; the registry, the state object and
    the binding of the capture delegate are as before. *)
Theorem X25_refused_save_leaves_idle
    (h : FHost) (SlotName Title : string) (bTakeScreenshot : bool) (ExtraInfo : UObjectPtr)
    (s : USpudSubsystem)
    (Hrefused : ServerCheck h = false ∨ SlotName = "" ∨ CurrentState s ≠ RunningIdle) :
  ∃ s' t, exec (SaveGame h SlotName Title bTakeScreenshot ExtraInfo) s = Some (s', t) ∧
    Broadcasts t = [PostSaveGame SlotName false] ∧ StateCalls t = [] ∧
    (∀ Path, CreateFileWriter Path ∉ t) ∧
    CurrentState s' = RunningIdle ∧ SlotNameInProgress s' = "" ∧
    TitleInProgress s' = "" ∧ ExtraInfoInProgress s' = None ∧
    SameRegistry s s' ∧ ActiveState s' = ActiveState s ∧
    OnScreenshotHandle s' = OnScreenshotHandle s ∧
    OnDestroyedBound s' = OnDestroyedBound s.
Proof.
  unfold exec, SaveGame, SaveComplete.
  destruct (ServerCheck h) eqn:Hs; cbn [negb].
  - destruct (decide (SlotName = "")) as [Hblank|Hslot].
    + rewrite bool_decide_true by done. repeat run_step.
      eexists _, _. split; [reflexivity|]. cbn.
      repeat split; try done; set_solver.
    + rewrite bool_decide_false by done.
      destruct Hrefused as [?|[?|Hbusy]]; [done..|]. run_step.
      rewrite bool_decide_true by done. repeat run_step.
      eexists _, _. split; [reflexivity|]. cbn.
      repeat split; try done; set_solver.
  - repeat run_step. eexists _, _. split; [reflexivity|]. cbn.
    repeat split; try done; set_solver.
Qed.

Lemma X25_refused_save_leaves_idle_witness :
  let s := After [CallNewGame false false; CallEndGame] in
  CurrentState s = Disabled ∧
  ∃ s' t, exec (SaveGame ServerHost "" "First" false None) s = Some (s', t) ∧
    Broadcasts t = [PostSaveGame "" false] ∧ StateCalls t = [] ∧
    (∀ Path, CreateFileWriter Path ∉ t) ∧
    CurrentState s' = RunningIdle ∧ SlotNameInProgress s' = "" ∧
    TitleInProgress s' = "" ∧ ExtraInfoInProgress s' = None ∧
    SameRegistry s s' ∧ ActiveState s' = ActiveState s ∧
    OnScreenshotHandle s' = OnScreenshotHandle s ∧
    OnDestroyedBound s' = OnDestroyedBound s.
Proof.
  split; [vm_compute; reflexivity|].
  apply (X25_refused_save_leaves_idle ServerHost "" "First" false None
           (After [CallNewGame false false; CallEndGame])).
  right. left. reflexivity.
Defined.

(** X26.  A load refused at a guard (off the server, or an orchestrator
    that is not [RunningIdle]) reports the failure for the slot once; the
    state is not reset and no file is opened.  It leaves the orchestrator
    [RunningIdle] whatever it was, the restoring flag off and no slot in
    progress; the title and the custom info in progress, the registry and
    the state object are as before. *)
Theorem X26_refused_load_leaves_idle
    (h : FHost) (SlotName : string) (bAutoTravelLevel : bool) (TravelOptions : string)
    (s : USpudSubsystem)
    (Hrefused : ServerCheck h = false ∨ CurrentState s ≠ RunningIdle) :
  ∃ s' t, exec (LoadGame h SlotName bAutoTravelLevel TravelOptions) s = Some (s', t) ∧
    Broadcasts t = [PostLoadGame SlotName false] ∧ StateCalls t = [] ∧
    (∀ Path, CreateFileReader Path ∉ t) ∧
    (∀ Level Options, OpenLevel Level Options ∉ t) ∧
    CurrentState s' = RunningIdle ∧ bIsRestoringState s' = false ∧
    SlotNameInProgress s' = "" ∧
    TitleInProgress s' = TitleInProgress s ∧
    ExtraInfoInProgress s' = ExtraInfoInProgress s ∧
    SameRegistry s s' ∧ ActiveState s' = ActiveState s ∧
    OnDestroyedBound s' = OnDestroyedBound s.
Proof.
  unfold exec, LoadGame, LoadComplete.
  destruct (ServerCheck h) eqn:Hs; cbn [negb].
  - destruct Hrefused as [?|Hbusy]; [done|]. run_step.
    rewrite bool_decide_true by done. repeat run_step.
    eexists _, _. split; [reflexivity|]. cbn.
    repeat split; try done; set_solver.
  - repeat run_step. eexists _, _. split; [reflexivity|]. cbn.
    repeat split; try done; set_solver.
Qed.

Lemma X26_refused_load_leaves_idle_witness :
  let s := After [CallNewGame false false; CallSaveGame "S1" "First" true None] in
  ∃ s' t, exec (LoadGame ServerHost "S1" false "") s = Some (s', t) ∧
    Broadcasts t = [PostLoadGame "S1" false] ∧ StateCalls t = [] ∧
    (∀ Path, CreateFileReader Path ∉ t) ∧
    (∀ Level Options, OpenLevel Level Options ∉ t) ∧
    CurrentState s' = RunningIdle ∧ bIsRestoringState s' = false ∧
    SlotNameInProgress s' = "" ∧
    TitleInProgress s' = TitleInProgress s ∧
    ExtraInfoInProgress s' = ExtraInfoInProgress s ∧
    SameRegistry s s' ∧ ActiveState s' = ActiveState s ∧
    OnDestroyedBound s' = OnDestroyedBound s.
Proof.
  apply (X26_refused_load_leaves_idle ServerHost "S1" false ""
           (After [CallNewGame false false; CallSaveGame "S1" "First" true None])).
  right. vm_compute. discriminate.
Defined.
